(** * anylist-export: the recipe-to-PDF batch of [download.js]

    A shallow embedding of [src/download.js] and the properties of its
    formatters, of the per-recipe document renderer and of the export loop.

    Conventions of the embedding.
    - A JavaScript string is the list of its UTF-16 code units ([jsstring]).
    - A JavaScript number is an IEEE 754 binary64 value ([float], the
      kernel's primitive floats); counters that only ever hold small
      naturals ([stepNumber], [index + 1], [recipes.length]) are [nat].
    - A recipe field that may be missing is an [option]; [None] stands for
      [undefined], and a method call on it raises [TypeError] as in
      JavaScript.
    - The PDF document is the trace of the calls made on the [PDFDocument]
      object, grouped by the source block that issued them.
    - The network, the image decoder and the file system are oracles
      collected in a record ([Env]). *)

From Stdlib Require Import List ZArith NArith Bool Lia Ascii String.
From Stdlib Require Import PrimFloat FloatOps SpecFloat FloatAxioms Uint63.
Import ListNotations.

Set Implicit Arguments.

(* ================================================================= *)
(** ** JavaScript strings *)

Definition CodeUnit := N.
Definition jsstring := list CodeUnit.

(** The code units of an ASCII literal of the source. *)
Definition lit (s : string) : jsstring :=
  map N_of_ascii (list_ascii_of_string s).

Definition cu_eq_dec : forall a b : CodeUnit, {a = b} + {a <> b} := N.eq_dec.
Definition jsstring_eq_dec : forall a b : jsstring, {a = b} + {a <> b} :=
  list_eq_dec cu_eq_dec.

Definition str_eqb (a b : jsstring) : bool :=
  if jsstring_eq_dec a b then true else false.

(** [WhiteSpace] and [LineTerminator] of ECMAScript, the code units that
    [String.prototype.trim] strips. *)
Definition isWhiteSpace (c : CodeUnit) : bool :=
  ((9 <=? c) && (c <=? 13)                (* TAB LF VT FF CR *)
   || (c =? 32) || (c =? 160)             (* SP NBSP *)
   || (c =? 5760)                         (* U+1680 *)
   || ((8192 <=? c) && (c <=? 8202))      (* U+2000 .. U+200A *)
   || (c =? 8232) || (c =? 8233)          (* LS PS *)
   || (c =? 8239) || (c =? 8287)          (* U+202F U+205F *)
   || (c =? 12288) || (c =? 65279))%N.    (* U+3000 U+FEFF *)

Fixpoint trimStart (s : jsstring) : jsstring :=
  match s with
  | [] => []
  | c :: s' => if isWhiteSpace c then trimStart s' else s
  end.

Fixpoint trimEnd (s : jsstring) : jsstring :=
  match s with
  | [] => []
  | c :: s' =>
      match trimEnd s' with
      | [] => if isWhiteSpace c then [] else [c]
      | t => c :: t
      end
  end.

(** [s.trim()] *)
Definition trim (s : jsstring) : jsstring := trimEnd (trimStart s).

(** [s.startsWith('#')] *)
Definition startsWithHash (s : jsstring) : bool :=
  match s with
  | c :: _ => (c =? 35)%N
  | [] => false
  end.

(** [s.substring(1)] *)
Definition substring1 (s : jsstring) : jsstring := tl s.

(** [s.split('\n')]: never empty, the empty string gives one empty piece. *)
Fixpoint split_nl (s : jsstring) : list jsstring :=
  match s with
  | [] => [[]]
  | c :: s' =>
      if (c =? 10)%N then [] :: split_nl s'
      else match split_nl s' with
           | [] => [[c]]
           | p :: ps => (c :: p) :: ps
           end
  end.

(** [a.join(sep)] on an array of strings. *)
Fixpoint join (sep : jsstring) (l : list jsstring) : jsstring :=
  match l with
  | [] => []
  | [x] => x
  | x :: r => x ++ sep ++ join sep r
  end.

(** Decimal numeral of a natural number: [String(n)] for the counters. *)
Fixpoint digits_fuel (fuel : nat) (n : N) (acc : jsstring) : jsstring :=
  match fuel with
  | O => acc
  | S f =>
      let acc' := (48 + n mod 10)%N :: acc in
      if (n / 10 =? 0)%N then acc' else digits_fuel f (n / 10)%N acc'
  end.

Definition decimalN (n : N) : jsstring := digits_fuel (S (N.to_nat (N.log2 n))) n [].
Definition decimal (n : nat) : jsstring := decimalN (N.of_nat n).

(* ================================================================= *)
(** ** [sanitizeFilename] *)

(** The character class of the regular expression: slash, backslash,
    question mark, percent, asterisk, colon, bar, double quote, less-than
    and greater-than, in that order. *)
Definition reservedChars : list CodeUnit :=
  [47; 92; 63; 37; 42; 58; 124; 34; 60; 62]%N.

Definition isReserved (c : CodeUnit) : bool :=
  existsb (N.eqb c) reservedChars.

Definition hyphen : CodeUnit := 45%N.

(** [name.replace(..., '-')] with the global flag: every match is
    replaced. *)
Definition replaceReserved (name : jsstring) : jsstring :=
  map (fun c => if isReserved c then hyphen else c) name.

(** [function sanitizeFilename(name)] *)
Definition sanitizeFilename (name : jsstring) : jsstring :=
  trim (replaceReserved name).

(** [.replace(/\//g, '-')] of [formatDate] *)
Definition slashesToHyphens (s : jsstring) : jsstring :=
  map (fun c => if (c =? 47)%N then hyphen else c) s.

(* ================================================================= *)
(** ** Dates *)

(** What the script needs from its host: the offset of local time from
    UTC, in milliseconds, at a given UTC instant (it follows the time zone
    and its daylight-saving rules), and [Number::toString], the decimal
    form JavaScript gives a number inside a template literal. *)
Record Host := {
  localOffsetMs : Z -> Z;
  numberToString : float -> jsstring
}.

(** A [Date] object: its time value in milliseconds since the epoch, or
    [None] for an Invalid Date (time value [NaN]). *)
Definition Date := option Z.

(** The integer part of a finite float, rounding toward zero
    ([ToIntegerOrInfinity]); [None] for [NaN] and the infinities. *)
Definition truncate (x : float) : option Z :=
  match Prim2SF x with
  | S754_zero _ => Some 0%Z
  | S754_finite s m e =>
      let a := match e with
               | Zneg p => Z.shiftr (Zpos m) (Zpos p)
               | _ => Z.shiftl (Zpos m) e
               end in
      Some (if s then (- a)%Z else a)
  | S754_infinity _ => None
  | S754_nan => None
  end.

Definition maxTime : Z := 8640000000000000.

(** [TimeClip]: beyond 8.64e15 ms on either side there is no date.  A
    binary64 value of that magnitude is an integer (8.64e15 lies between
    2^52 and 2^53), so the bound on the integer part is the bound on the
    value. *)
Definition TimeClip (x : float) : Date :=
  match truncate x with
  | Some t => if (Z.abs t <=? maxTime)%Z then Some t else None
  | None => None
  end.

(** [new Date(value)] for a number. *)
Definition newDate (value : float) : Date := TimeClip value.

Definition msPerDay : Z := 86400000.

(** [Day(t)]: the day number of a time value. *)
Definition Day (t : Z) : Z := (t / msPerDay)%Z.

(** Year, month (1..12) and day of the month of a day number in the
    proleptic Gregorian calendar, counting 400-year eras from March 1st of
    year 0. *)
Definition civilFromDays (days : Z) : Z * Z * Z :=
  let z := (days + 719468)%Z in
  let era := (z / 146097)%Z in
  let doe := (z - era * 146097)%Z in
  let yoe := ((doe - doe / 1460 + doe / 36524 - doe / 146096) / 365)%Z in
  let doy := (doe - (365 * yoe + yoe / 4 - yoe / 100))%Z in
  let mp := ((5 * doy + 2) / 153)%Z in
  let d := (doy - (153 * mp + 2) / 5 + 1)%Z in
  let m := if (mp <? 10)%Z then (mp + 3)%Z else (mp - 9)%Z in
  let y := (yoe + era * 400)%Z in
  (if (m <=? 2)%Z then (y + 1)%Z else y, m, d).

(** The calendar date of a time value in local time. *)
Definition localDate (h : Host) (t : Z) : Z * Z * Z :=
  civilFromDays (Day (t + localOffsetMs h t)).

(** [date.getFullYear()]; [None] is [NaN]. *)
Definition getFullYear (h : Host) (date : Date) : option Z :=
  match date with
  | Some t => let '(y, _, _) := localDate h t in Some y
  | None => None
  end.

(** [date.getFullYear() < 2000]: a comparison with [NaN] is false. *)
Definition yearBefore2000 (h : Host) (date : Date) : bool :=
  match getFullYear h date with
  | Some y => (y <? 2000)%Z
  | None => false
  end.

Definition decimalZ (n : Z) : jsstring := decimalN (Z.to_N n).

Definition pad2 (n : Z) : jsstring :=
  if (n <? 10)%Z then lit "0" ++ decimalZ n else decimalZ n.

Definition monthNames : list jsstring :=
  map lit ["January"; "February"; "March"; "April"; "May"; "June"; "July";
           "August"; "September"; "October"; "November"; "December"]%string.

Definition monthName (m : Z) : jsstring :=
  nth (Z.to_nat (m - 1)) monthNames [].

Definition invalidDate : jsstring := lit "Invalid Date".

(** [date.toLocaleDateString('en-US', {year: 'numeric', month: '2-digit',
    day: '2-digit'})]: month/day/year.  The year numeral is the one of a
    non-negative year; [formatDate] formats no other. *)
Definition toLocaleDateString_2digit (h : Host) (date : Date) : jsstring :=
  match date with
  | None => invalidDate
  | Some t =>
      let '(y, m, d) := localDate h t in
      pad2 m ++ lit "/" ++ pad2 d ++ lit "/" ++ decimalZ y
  end.

(** [date.toLocaleDateString('en-US', {year: 'numeric', month: 'long',
    day: 'numeric'})] *)
Definition toLocaleDateString_long (h : Host) (date : Date) : jsstring :=
  match date with
  | None => invalidDate
  | Some t =>
      let '(y, m, d) := localDate h t in
      monthName m ++ lit " " ++ decimalZ d ++ lit ", " ++ decimalZ y
  end.

Record FormattedDate := {
  fileName : jsstring;
  display : jsstring
}.

(** [function formatDate(timestamp)] *)
Definition formatDate (h : Host) (timestamp : float) : FormattedDate :=
  let date := newDate (timestamp * 1000)%float in
  {| fileName :=
       if yearBefore2000 h date then []
       else slashesToHyphens (toLocaleDateString_2digit h date);
     display :=
       if yearBefore2000 h date then lit "Unknown"
       else toLocaleDateString_long h date |}.

(* ================================================================= *)
(** ** Recipe records *)

(** A field that holds a number or a string ([servings]). *)
Inductive Scalar :=
| SNum (x : float)
| SStr (s : jsstring).

Record Ingredient := {
  rawIngredient : jsstring
}.

(** A recipe as [getRecipes] returns it.  [None] is a missing field
    ([undefined]); a missing [creationTimestamp] is [nan], which is what
    [undefined * 1000] evaluates to. *)
Record Recipe := {
  name : option jsstring;
  creationTimestamp : float;
  photoIds : option (list jsstring);
  sourceName : option jsstring;
  sourceUrl : option jsstring;
  servings : option Scalar;
  rating : option float;
  prepTime : option float;
  cookTime : option float;
  categories : option (list jsstring);
  notes : option jsstring;
  note : option jsstring;
  ingredients : option (list Ingredient);
  instructions : option jsstring;
  preparationSteps : option (list jsstring);
  nutritionalInfo : option jsstring
}.

(** *** Truthiness ([ToBoolean]) *)

Definition truthyNum (x : float) : bool := negb (PrimFloat.is_zero x || PrimFloat.is_nan x).

Definition truthyStr (s : jsstring) : bool :=
  match s with
  | [] => false
  | _ :: _ => true
  end.

Definition truthyScalar (v : Scalar) : bool :=
  match v with
  | SNum x => truthyNum x
  | SStr s => truthyStr s
  end.

Definition truthy {A} (f : A -> bool) (v : option A) : bool :=
  match v with
  | Some a => f a
  | None => false
  end.

(** [x && x.length > 0] on an optional array. *)
Definition nonEmpty {A} (v : option (list A)) : bool :=
  match v with
  | Some (_ :: _) => true
  | _ => false
  end.

(** [ToString] inside a template literal. *)
Definition scalarToString (h : Host) (v : Scalar) : jsstring :=
  match v with
  | SNum x => numberToString h x
  | SStr s => s
  end.

(** [`${recipe.name}`] *)
Definition nameText (r : Recipe) : jsstring :=
  match name r with
  | Some s => s
  | None => lit "undefined"
  end.

(** [Math.min] on two numbers. *)
Definition Math_min (a b : float) : float :=
  if PrimFloat.is_nan a || PrimFloat.is_nan b then nan
  else if (a <? b)%float then a
  else if (b <? a)%float then b
  else if PrimFloat.get_sign a then a else b.

(* ================================================================= *)
(** ** The document: a trace of [PDFDocument] calls *)

Inductive Font := Helvetica | HelveticaBold | HelveticaOblique.

(** The option objects the script passes to [doc.text]. *)
Inductive TextOptions :=
| NoOptions
| AlignCenter                 (* { align: 'center' } *)
| AlignLeft                   (* { align: 'left' } *)
| Continued                   (* { continued: true } *)
| Link (url : jsstring).      (* { align: 'left', link: url, underline: true,
                                   color: 'blue', width: doc.page.width,
                                   lineBreak: false } *)

Inductive Gap := OneLine | HalfLine.   (* moveDown() and moveDown(0.5) *)

Definition Buffer := list N.

Inductive DocOp :=
| FontSize (n : nat)
| SetFont (f : Font)
| Text (s : jsstring) (o : TextOptions)
| MoveDown (g : Gap)
| Image (buf : Buffer) (x : float) (width height : float)
    (* doc.image(buf, x, y, {width, height}) with y = doc.y read just before *)
| RestoreY                    (* doc.y = y *)
| End.                        (* doc.end() *)

(** The blocks of the render body, in source order. *)
Inductive SectionId :=
| Title | Photo | Created | Source | Servings | Rating | Times | Categories
| NotesEarly | Ingredients | Instructions | PreparationSteps | NotesLate
| NutritionalInformation | Finish.

Definition Block := (SectionId * list DocOp)%type.
Definition Document := list Block.

Definition SectionId_eqb (a b : SectionId) : bool :=
  match a, b with
  | Title, Title | Photo, Photo | Created, Created | Source, Source
  | Servings, Servings | Rating, Rating | Times, Times
  | Categories, Categories | NotesEarly, NotesEarly
  | Ingredients, Ingredients | Instructions, Instructions
  | PreparationSteps, PreparationSteps | NotesLate, NotesLate
  | NutritionalInformation, NutritionalInformation | Finish, Finish => true
  | _, _ => false
  end.

(** The blocks of a document issued by a given source block. *)
Definition blocksOf (s : SectionId) (d : Document) : list (list DocOp) :=
  map snd (filter (fun b => SectionId_eqb (fst b) s) d).

(** The flat trace of calls. *)
Definition traceOf (d : Document) : list DocOp := flat_map snd d.

(** A block that is emitted only under a condition. *)
Definition when (c : bool) (s : SectionId) (ops : list DocOp) : Document :=
  if c then [(s, ops)] else [].

(* ================================================================= *)
(** ** Errors and the world outside *)

Inductive Error :=
| TypeError                      (* a method call on undefined *)
| ErrorMsg (message : jsstring)  (* new Error(message) *)
| SystemError (code : jsstring). (* a failure reported by the host *)

Inductive HttpsResult :=
| Response (statusCode : nat) (body : Buffer)
| RequestError (e : Error).      (* an 'error' event of request or response *)

Record Env := {
  host : Host;
  (** [anylist.login()] and [anylist.getRecipes()] *)
  loginError : option Error;
  recipesResult : Error + list Recipe;
  (** [https.get(url, ...)] *)
  httpsGet : jsstring -> HttpsResult;
  (** [doc.openImage(buffer)]: the intrinsic width and height, or the
      decoder's exception. *)
  openImage : Buffer -> Error + (float * float);
  (** The ['error'] event of the write stream opened at a path, if one is
      emitted. *)
  streamError : jsstring -> option Error;
  (** Whether the directory [recipe-pdfs] exists when the script starts,
      and a failure of [writeFile] other than a missing directory. *)
  dirExists : bool;
  writeFileError : option Error
}.

Inductive LogLine :=
| Log (s : jsstring)                   (* console.log(s) *)
| LogError (s : jsstring) (e : Error)  (* console.error(s, e) *)
| LogUncaught (e : Error).             (* console.error(e) *)

(* ================================================================= *)
(** ** [downloadImage] *)

(** [function downloadImage(url)]: the promise resolves with the body of
    a 200 response and rejects otherwise. *)
Definition downloadImage (env : Env) (url : jsstring) : Error + Buffer :=
  match httpsGet env url with
  | Response statusCode body =>
      if Nat.eqb statusCode 200 then inr body
      else inl (ErrorMsg (lit "Failed to download image: " ++ decimal statusCode))
  | RequestError e => inl e
  end.

(* ================================================================= *)
(** ** The render body, block by block *)

Definition maxWidth : float := 200.
Definition maxHeight : float := 200.

(** [doc.page.width] and [doc.page.margins.right] of the LETTER page the
    script creates. *)
Definition pageWidth : float := 612.
Definition marginRight : float := 72.

Definition imageRatio (w h : float) : float :=
  Math_min (maxWidth / w) (maxHeight / h).

(** The size at which an image of intrinsic size [w] x [h] is placed. *)
Definition placedSize (w h : float) : float * float :=
  let ratio := imageRatio w h in
  ((w * ratio)%float, (h * ratio)%float).

Definition failedPhoto (recipe : Recipe) (e : Error) : LogLine :=
  LogError (lit "Failed to add photo for " ++ nameText recipe ++ lit ":") e.

(** [`https://photos.anylist.com/${recipe.photoIds[0]}.jpg`] *)
Definition photoUrlOf (id : jsstring) : jsstring :=
  lit "https://photos.anylist.com/" ++ id ++ lit ".jpg".

(** The photo block with its own [try]/[catch]. *)
Definition photoBlock (env : Env) (recipe : Recipe) : Document * list LogLine :=
  match photoIds recipe with
  | Some (id :: _) =>
      let photoUrl := photoUrlOf id in
      match downloadImage env photoUrl with
      | inl e => ([], [failedPhoto recipe e])
      | inr imageBuffer =>
          match openImage env imageBuffer with
          | inl e => ([], [failedPhoto recipe e])
          | inr (w, h) =>
              let '(width, height) := placedSize w h in
              let x := (pageWidth - marginRight - width)%float in
              ([(Photo, [Image imageBuffer x width height; RestoreY])], [])
          end
      end
  | _ => ([], [])
  end.

Definition titleBlock (nm : jsstring) : Document :=
  [(Title, [FontSize 24; SetFont HelveticaBold; Text nm AlignCenter;
            MoveDown OneLine])].

Definition createdBlock (h : Host) (recipe : Recipe) : Document :=
  let dateStr := formatDate h (creationTimestamp recipe) in
  [(Created,
    [FontSize 12; SetFont HelveticaBold; Text (lit "Created:") Continued;
     SetFont (if yearBefore2000 h (newDate (creationTimestamp recipe * 1000)%float)
              then HelveticaOblique else Helvetica);
     Text (lit " " ++ display dateStr) AlignLeft;
     MoveDown OneLine])].

Definition orEmpty (o : option jsstring) : jsstring :=
  match o with
  | Some s => s
  | None => []
  end.

Definition sourceBlock (recipe : Recipe) : Document :=
  let hasName := truthy truthyStr (sourceName recipe) in
  let hasUrl := truthy truthyStr (sourceUrl recipe) in
  let nm := orEmpty (sourceName recipe) in
  let url := orEmpty (sourceUrl recipe) in
  when (hasName || hasUrl) Source
    ([FontSize 12; SetFont HelveticaBold; Text (lit "Source:") AlignLeft;
      SetFont Helvetica]
     ++ (if hasName && hasUrl then [FontSize 12; Text nm (Link url)]
         else (if hasName then [FontSize 12; Text nm AlignLeft] else [])
              ++ (if hasUrl
                  then [MoveDown OneLine; FontSize 12; SetFont HelveticaBold;
                        Text (lit "Source URL:") AlignLeft;
                        FontSize 12; Text url (Link url)]
                  else []))
     ++ [MoveDown OneLine]).

Definition servingsBlock (h : Host) (recipe : Recipe) : Document :=
  match servings recipe with
  | Some v =>
      when (truthyScalar v) Servings
        [FontSize 12; SetFont HelveticaBold; Text (lit "Servings:") Continued;
         SetFont Helvetica; Text (lit " " ++ scalarToString h v) NoOptions;
         MoveDown OneLine]
  | None => []
  end.

Definition noRating : jsstring := lit " No rating available".

Definition ratingBlock (h : Host) (recipe : Recipe) : Document :=
  [(Rating,
    [FontSize 12; SetFont HelveticaBold; Text (lit "Rating:") Continued;
     SetFont Helvetica;
     Text (match rating recipe with
           | Some x =>
               if truthyNum x then lit " " ++ numberToString h x ++ lit " stars"
               else noRating
           | None => noRating
           end) NoOptions;
     MoveDown OneLine])].

(** The entries pushed on [times]. *)
Definition timeEntry (h : Host) (label : jsstring) (t : option float) : list jsstring :=
  match t with
  | Some x =>
      if truthyNum x
      then [label ++ numberToString h (x / 60)%float ++ lit " min"]
      else []
  | None => []
  end.

Definition timesBlock (h : Host) (recipe : Recipe) : Document :=
  when (truthy truthyNum (prepTime recipe) || truthy truthyNum (cookTime recipe)) Times
    [FontSize 12;
     Text (join (lit " | ")
             (timeEntry h (lit "Prep Time: ") (prepTime recipe)
              ++ timeEntry h (lit "Cook Time: ") (cookTime recipe))) NoOptions;
     MoveDown OneLine].

Definition categoriesBlock (recipe : Recipe) : Document :=
  match categories recipe with
  | Some (c :: cs) =>
      [(Categories,
        [FontSize 12;
         Text (lit "Categories: " ++ join (lit ", ") (c :: cs)) NoOptions;
         MoveDown OneLine])]
  | _ => []
  end.

Definition notesEarlyBlock (recipe : Recipe) : Document :=
  match notes recipe with
  | Some body =>
      when (truthyStr body) NotesEarly
        [FontSize 14; Text (lit "Notes:") NoOptions;
         FontSize 12; Text body NoOptions; MoveDown OneLine]
  | None => []
  end.

Definition ingredientsHeading : list DocOp :=
  [MoveDown HalfLine; FontSize 16; SetFont HelveticaBold;
   Text (lit "Ingredients:") NoOptions; MoveDown HalfLine; SetFont Helvetica].

Definition ingredientLines (l : list Ingredient) : list DocOp :=
  flat_map (fun ingredient => [FontSize 12; Text (rawIngredient ingredient) NoOptions]) l.

(** [steps.forEach((step, index) => ...)] of the instructions. *)
Fixpoint instructionLines (index : nat) (steps : list jsstring) : list DocOp :=
  match steps with
  | [] => []
  | step :: rest =>
      [FontSize 12;
       Text (decimal (index + 1) ++ lit ". " ++ trim step) NoOptions;
       MoveDown HalfLine]
      ++ instructionLines (S index) rest
  end.

Definition instructionsBlock (recipe : Recipe) : Document :=
  match instructions recipe with
  | Some body =>
      when (truthyStr body) Instructions
        ([MoveDown OneLine; FontSize 16; SetFont HelveticaBold;
          Text (lit "Instructions:") NoOptions; MoveDown HalfLine;
          SetFont Helvetica]
         ++ instructionLines 0
              (filter (fun step => truthyStr (trim step)) (split_nl body)))
  | None => []
  end.

(** What one entry of [preparationSteps] emits when the counter is
    [stepNumber]. *)
Definition stepOps (stepNumber : nat) (step : jsstring) : list DocOp :=
  let trimmedStep := trim step in
  (if startsWithHash trimmedStep
   then [FontSize 12; SetFont HelveticaBold;
         Text (trim (substring1 trimmedStep)) NoOptions]
   else [FontSize 12; SetFont HelveticaBold;
         Text (decimal stepNumber ++ lit ".") Continued;
         SetFont Helvetica; Text (lit " " ++ trimmedStep) NoOptions])
  ++ [MoveDown HalfLine].

(** [recipe.preparationSteps.forEach(step => ...)] with the mutable
    [stepNumber] threaded through. *)
Fixpoint preparationLines (stepNumber : nat) (steps : list jsstring) : list DocOp :=
  match steps with
  | [] => []
  | step :: rest =>
      stepOps stepNumber step
      ++ preparationLines
           (if startsWithHash (trim step) then stepNumber else S stepNumber)
           rest
  end.

Definition preparationBlock (recipe : Recipe) : Document :=
  match preparationSteps recipe with
  | Some (s :: ss) =>
      [(PreparationSteps,
        [MoveDown OneLine; FontSize 16; SetFont HelveticaBold;
         Text (lit "Preparation Steps:") NoOptions; MoveDown HalfLine]
        ++ preparationLines 1 (s :: ss))]
  | _ => []
  end.

(** [recipe.note || recipe.notes] *)
Definition noteOrNotes (recipe : Recipe) : option jsstring :=
  if truthy truthyStr (note recipe) then note recipe else notes recipe.

Definition notesLateBlock (recipe : Recipe) : Document :=
  when (truthy truthyStr (note recipe) || truthy truthyStr (notes recipe)) NotesLate
    [MoveDown OneLine; FontSize 16; SetFont HelveticaBold;
     Text (lit "Notes:") NoOptions; MoveDown HalfLine;
     FontSize 12; SetFont Helvetica;
     Text (orEmpty (noteOrNotes recipe)) NoOptions; MoveDown OneLine].

Definition nutritionBlock (recipe : Recipe) : Document :=
  match nutritionalInfo recipe with
  | Some body =>
      when (truthyStr body) NutritionalInformation
        ([MoveDown OneLine; FontSize 16; SetFont HelveticaBold;
          Text (lit "Nutritional Information:") NoOptions; MoveDown HalfLine;
          SetFont Helvetica]
         ++ flat_map (fun line => [FontSize 12; Text line NoOptions]) (split_nl body)
         ++ [MoveDown OneLine])
  | None => []
  end.

(* ================================================================= *)
(** ** One recipe: the promise the loop awaits *)

(** How [await new Promise(async (resolve, reject) => { ... })] ends.
    [resolve] is the stream's ['finish'] handler and [reject] its
    ['error'] handler; nothing else calls them.  An exception raised in
    the body rejects the promise of the [async] executor itself, which
    nobody observes: the awaited promise is then left pending
    ([NeverSettled]), and the host reports an unhandled rejection, on
    which Node.js (15 and later) ends the process before it delivers any
    further event, a late ['error'] of the stream included.  The body is
    taken to raise before the stream reports anything, which is so for
    every recipe without photo: only a body that waits for a photo gives
    the stream the time to reject the promise first. *)
Inductive Settlement :=
| Resolved
| Rejected (e : Error)
| NeverSettled (e : Error).

Record RenderResult := {
  (** the path given to [fs.createWriteStream], once it has been called *)
  outputFile : option jsstring;
  (** the calls made on [doc] *)
  written : Document;
  (** the lines logged from inside the executor *)
  renderLog : list LogLine;
  settlement : Settlement
}.

Definition outputDir : jsstring := lit "recipe-pdfs".

(** [path.join('recipe-pdfs', `${filename}.pdf`)] on a POSIX host.  The
    second segment ends in [.pdf] and holds no slash, so normalisation
    leaves the joined path as it is. *)
Definition pathJoin (dir file : jsstring) : jsstring := dir ++ lit "/" ++ file.

Definition outputPathOf (h : Host) (recipe : Recipe) (nm : jsstring) : jsstring :=
  let dateStr := formatDate h (creationTimestamp recipe) in
  let filename :=
    (if truthyStr (fileName dateStr) then fileName dateStr ++ lit " - " else [])
    ++ sanitizeFilename nm in
  pathJoin outputDir (filename ++ lit ".pdf").

(** The blocks written before the ingredients are read. *)
Definition upperBlocks (h : Host) (recipe : Recipe) (nm : jsstring) (photo : Document) : Document :=
  titleBlock nm ++ photo ++ createdBlock h recipe ++ sourceBlock recipe
  ++ servingsBlock h recipe ++ ratingBlock h recipe ++ timesBlock h recipe
  ++ categoriesBlock recipe ++ notesEarlyBlock recipe.

(** The blocks written after the ingredients. *)
Definition lowerBlocks (recipe : Recipe) : Document :=
  instructionsBlock recipe ++ preparationBlock recipe
  ++ notesLateBlock recipe ++ nutritionBlock recipe.

(** The executor of the promise, run on one recipe. *)
Definition renderRecipe (env : Env) (recipe : Recipe) : RenderResult :=
  let h := host env in
  match name recipe with
  | None =>
      (* sanitizeFilename(undefined): [name.replace] raises before the
         stream exists *)
      {| outputFile := None; written := []; renderLog := [];
         settlement := NeverSettled TypeError |}
  | Some nm =>
      let outputPath := outputPathOf h recipe nm in
      let '(photo, photoLog) := photoBlock env recipe in
      let upper := upperBlocks h recipe nm photo in
      match ingredients recipe with
      | None =>
          (* [recipe.ingredients.forEach] raises after the heading *)
          {| outputFile := Some outputPath;
             written := upper ++ [(Ingredients, ingredientsHeading)];
             renderLog := photoLog;
             settlement := NeverSettled TypeError |}
      | Some l =>
          {| outputFile := Some outputPath;
             written := upper
                        ++ [(Ingredients, ingredientsHeading ++ ingredientLines l)]
                        ++ lowerBlocks recipe ++ [(Finish, [End])];
             renderLog := photoLog ++ [Log (lit "Created PDF for: " ++ nm)];
             settlement := match streamError env outputPath with
                           | Some e => Rejected e
                           | None => Resolved
                           end |}
      end
  end.

(* ================================================================= *)
(** ** The export loop and [downloadRecipes] *)

(** [a.slice(0, end)] for an integer [end]. *)
Definition slice0 {A} (e : Z) (a : list A) : list A :=
  let len := Z.of_nat (List.length a) in
  let final := if (e <? 0)%Z then Z.max (len + e) 0 else Z.min e len in
  firstn (Z.to_nat final) a.

(** [maxPDFsToGenerate === -1 ? recipes : recipes.slice(0, maxPDFsToGenerate)] *)
Definition recipesToProcess (maxPDFsToGenerate : Z) (recipes : list Recipe) : list Recipe :=
  if (maxPDFsToGenerate =? -1)%Z then recipes else slice0 maxPDFsToGenerate recipes.

(** What the loop has produced so far: the documents whose stream has
    finished, the recipes whose render has been started, the paths given
    to [fs.createWriteStream], and the console. *)
Record LoopState := {
  finished : list (jsstring * Document);
  started : list Recipe;
  opened : list jsstring;
  console : list LogLine
}.

Inductive LoopEnd :=
| LoopDone
| LoopStuck (recipe : Recipe) (e : Error).  (* the [await] never returns *)

Definition failedPdf (recipe : Recipe) (e : Error) : LogLine :=
  LogError (lit "Failed to create PDF for " ++ nameText recipe ++ lit ":") e.

Definition optList {A} (o : option A) : list A :=
  match o with
  | Some a => [a]
  | None => []
  end.

(** One iteration of [for (const recipe of recipesToProcess)]: the state
    after it, and whether the loop goes on ([None]) or is stuck.  The
    lines of the body come before the line of the [catch]: the ['error']
    of the stream is delivered once the body has given up control, which
    for a recipe without photo is at its end.  A body that waits for a
    photo may be overtaken by that event; the order of the console for
    such a recipe whose stream fails is not the one given here. *)
Definition iteration (env : Env) (st : LoopState) (recipe : Recipe)
  : LoopState * option Error :=
  let r := renderRecipe env recipe in
  let st' := {| finished := finished st;
                started := started st ++ [recipe];
                opened := opened st ++ optList (outputFile r);
                console := console st ++ renderLog r |} in
  match settlement r with
  | Resolved =>
      ({| finished := finished st'
                      ++ map (fun p => (p, written r)) (optList (outputFile r));
          started := started st';
          opened := opened st';
          console := console st' |}, None)
  | Rejected e =>
      ({| finished := finished st';
          started := started st';
          opened := opened st';
          console := console st' ++ [failedPdf recipe e] |}, None)
  | NeverSettled e => (st', Some e)
  end.

Fixpoint processRecipes (env : Env) (st : LoopState) (l : list Recipe)
  : LoopState * LoopEnd :=
  match l with
  | [] => (st, LoopDone)
  | recipe :: rest =>
      match iteration env st recipe with
      | (st', None) => processRecipes env st' rest
      | (st', Some e) => (st', LoopStuck recipe e)
      end
  end.

Record Config := {
  generatePDF : bool;
  maxPDFsToGenerate : Z
}.

(** The two constants as the script sets them. *)
Definition scriptConfig : Config :=
  {| generatePDF := true; maxPDFsToGenerate := 1000 |}.

(** The calls that reach the file system, in the order they are made. *)
Inductive FsCall :=
| WriteFile (path : jsstring)            (* fsPromises.writeFile(path, ...) *)
| Mkdir (path : jsstring)                (* fsPromises.mkdir(path, {recursive: true}) *)
| CreateWriteStream (path : jsstring).   (* fs.createWriteStream(path) *)

Inductive RunStatus :=
| Exited                              (* reached [process.exit(0)] *)
| Failed (e : Error)                  (* [downloadRecipes()] rejected with [e] *)
| Stuck (recipe : Recipe) (e : Error).  (* halted inside the loop *)

Record Run := {
  status : RunStatus;
  (** the records serialised into [recipe-pdfs/all-recipes.json] *)
  archive : option (list Recipe);
  documents : list (jsstring * Document);
  rendered : list Recipe;
  fsCalls : list FsCall;
  (** whether [recipe-pdfs] exists when the run ends *)
  directory : bool;
  output : list LogLine
}.

Definition emptyLoop (log : list LogLine) : LoopState :=
  {| finished := []; started := []; opened := []; console := log |}.

(** The run rejected with [e] after the calls [calls]; only [mkdir]
    creates the directory, and no failed run gets that far. *)
Definition failedRun (env : Env) (calls : list FsCall) (e : Error) : Run :=
  {| status := Failed e; archive := None; documents := []; rendered := [];
     fsCalls := calls; directory := dirExists env;
     output := [LogUncaught e] |}.

Definition ENOENT : Error := SystemError (lit "ENOENT").

Definition archivePath : jsstring := lit "recipe-pdfs/all-recipes.json".

(** [fsPromises.writeFile('recipe-pdfs/all-recipes.json', ...)] when the
    directory is there or not: it creates the file, never its directory. *)
Definition writeArchive (env : Env) (dir : bool) : option Error :=
  if dir then writeFileError env else Some ENOENT.

(** [fsPromises.mkdir('recipe-pdfs', { recursive: true })]: the directory
    exists afterwards, whether it did before or not. *)
Definition mkdirRecursive (dir : bool) : bool := true.

Definition summaryLine (recipes : list Recipe) : LogLine :=
  Log (lit "Finished processing " ++ decimal (List.length recipes) ++ lit " recipes").

(** The run from the loop on. *)
Definition finishRun (recipes : list Recipe) (calls : list FsCall) (dir : bool)
    (st : LoopState) (fin : LoopEnd) : Run :=
  let calls' := calls ++ map CreateWriteStream (opened st) in
  match fin with
  | LoopDone =>
      {| status := Exited; archive := Some recipes;
         documents := finished st; rendered := started st;
         fsCalls := calls'; directory := dir;
         output := console st ++ [summaryLine recipes] |}
  | LoopStuck recipe e =>
      {| status := Stuck recipe e; archive := Some recipes;
         documents := finished st; rendered := started st;
         fsCalls := calls'; directory := dir;
         output := console st |}
  end.

(** [async function downloadRecipes()], followed by
    [.catch(console.error)]. *)
Definition downloadRecipesWith (cfg : Config) (env : Env) : Run :=
  match loginError env with
  | Some e => failedRun env [] e
  | None =>
      match recipesResult env with
      | inl e => failedRun env [] e
      | inr recipes =>
          let dir := dirExists env in
          match writeArchive env dir with
          | Some e => failedRun env [WriteFile archivePath] e
          | None =>
              let log0 := [Log (lit "Saved all recipes to all-recipes.json")] in
              if generatePDF cfg
              then
                let dir' := mkdirRecursive dir in
                let '(st, fin) :=
                  processRecipes env (emptyLoop log0)
                    (recipesToProcess (maxPDFsToGenerate cfg) recipes) in
                finishRun recipes [WriteFile archivePath; Mkdir outputDir] dir' st fin
              else
                finishRun recipes [WriteFile archivePath] dir (emptyLoop log0) LoopDone
          end
      end
  end.

Definition downloadRecipes (env : Env) : Run := downloadRecipesWith scriptConfig env.

(* ================================================================= *)
(** ** Vocabulary of the statements *)

(** A string without any of the ten reserved characters. *)
Definition clean (s : jsstring) : Prop := Forall (fun c => isReserved c = false) s.

(** A string that does not start with white space. *)
Definition headKept (s : jsstring) : Prop :=
  match s with
  | [] => True
  | c :: _ => isWhiteSpace c = false
  end.

Definition isDigit (c : CodeUnit) : bool := ((48 <=? c) && (c <=? 57))%N.

(** The number a decimal numeral denotes. *)
Definition numeralValue (s : jsstring) : N :=
  fold_left (fun acc c => (acc * 10 + (c - 48))%N) s 0%N.

(** [DayFromYear] of ECMAScript: the day number of January 1st of a year. *)
Definition DayFromYear (y : Z) : Z :=
  (365 * (y - 1970) + (y - 1969) / 4 - (y - 1901) / 100 + (y - 1601) / 400)%Z.

(** The number of days of the months before month [m] (1..12) in a year of
    [DaysInYear] 365 or 366: the table of [MonthFromTime]. *)
Definition daysBeforeMonth (leap : bool) (m : Z) : Z :=
  let l := if leap then 1%Z else 0%Z in
  match m with
  | 1 => 0 | 2 => 31 | 3 => 59 + l | 4 => 90 + l | 5 => 120 + l
  | 6 => 151 + l | 7 => 181 + l | 8 => 212 + l | 9 => 243 + l
  | 10 => 273 + l | 11 => 304 + l | _ => 334 + l
  end%Z.

Definition InLeapYear (y : Z) : bool :=
  ((DayFromYear (y + 1) - DayFromYear y) =? 366)%Z.

(** The float of an integer in the range of [int]. *)
Definition floatOfZ (z : Z) : float := PrimFloat.of_uint63 (Uint63.of_Z z).

(** An image of [W] x [H] pixels is placed larger than it is. *)
Definition upscaled (W H : Z) : bool :=
  let w := floatOfZ W in
  let h := floatOfZ H in
  let '(pw, ph) := placedSize w h in
  ((1 <? imageRatio w h) && (w <? pw) && (h <? ph))%float.

(** The integers [a], [a + 1], ..., [a + n - 1]. *)
Definition Zrange (a : Z) (n : nat) : list Z := map (fun k => (a + Z.of_nat k)%Z) (seq 0 n).

(** The number a non-heading entry at position [i] of [steps] carries: one
    more than the number of non-heading entries before it. *)
Definition isHeading (step : jsstring) : bool := startsWithHash (trim step).

Definition stepNumberAt (steps : list jsstring) (i : nat) : nat :=
  1 + List.length (filter (fun s => negb (isHeading s)) (firstn i steps)).

(** The entries of a list paired with their positions, from [i] on. *)
Fixpoint indexedFrom {A} (i : nat) (l : list A) : list (nat * A) :=
  match l with
  | [] => []
  | a :: r => (i, a) :: indexedFrom (S i) r
  end.

(** The lines of text a trace puts on the page: a [continued] text is
    followed on its line by the next text. *)
Fixpoint linesOf (pending : jsstring) (ops : list DocOp) : list jsstring :=
  match ops with
  | [] => match pending with [] => [] | _ => [pending] end
  | Text s Continued :: r => linesOf (pending ++ s) r
  | Text s _ :: r => (pending ++ s) :: linesOf [] r
  | _ :: r => linesOf pending r
  end.

(** A recipe whose render runs to the end of the body: the two fields the
    body calls methods on unconditionally are present. *)
Definition wellFormed (recipe : Recipe) : Prop :=
  name recipe <> None /\ ingredients recipe <> None.

(** The line the per-recipe [catch] logs. *)
Definition isFailedPdf (l : LogLine) : bool :=
  match l with
  | LogError s _ =>
      str_eqb (firstn 25 s) (lit "Failed to create PDF for ")
  | _ => false
  end.

(** *** Shapes of the pieces of a formatted date *)

(** The month is padded to two characters and has a name. *)
Definition monthShape (m : Z) : bool :=
  Nat.eqb (List.length (pad2 m)) 2
  && existsb (str_eqb (monthName m)) monthNames.

(** The day is padded to two characters in the file name, and its plain
    numeral has no leading zero. *)
Definition dayShape (d : Z) : bool :=
  Nat.eqb (List.length (pad2 d)) 2
  && negb (N.eqb (hd 0%N (decimalZ d)) 48).

Definition yearShape (y : Z) : bool := Nat.eqb (List.length (decimalZ y)) 4.

(** Every block of a document comes from the source block [s]. *)
Definition tagged (s : SectionId) (d : Document) : Prop :=
  Forall (fun b => fst b = s) d.


(** *** The calendar computation, piece by piece *)

(** The day number of March 1st of year [Y]: years counted from March
    carry their leap day at the end. *)
Definition marchDay (Y : Z) : Z :=
  (365 * Y + Y / 4 - Y / 100 + Y / 400 - 719468)%Z.

(** The year counted from March a day number falls in, and the day within
    that year, as [civilFromDays] computes them. *)
Definition marchYearDay (days : Z) : Z * Z :=
  let z := (days + 719468)%Z in
  let era := (z / 146097)%Z in
  let doe := (z - era * 146097)%Z in
  let yoe := ((doe - doe / 1460 + doe / 36524 - doe / 146096) / 365)%Z in
  ((yoe + era * 400)%Z, (doe - (365 * yoe + yoe / 4 - yoe / 100))%Z).

(** The month and the day of the month of a day counted from March 1st,
    as [civilFromDays] computes them. *)
Definition monthFromMarch (doy : Z) : Z * Z :=
  let mp := ((5 * doy + 2) / 153)%Z in
  (if (mp <? 10)%Z then (mp + 3)%Z else (mp - 9)%Z,
   (doy - (153 * mp + 2) / 5 + 1)%Z).

(** The days between March 1st and the first day of month [m], and the
    first day of the month after it (the end of February is open). *)
Definition marchOffset (m : Z) : Z :=
  if (m <=? 2)%Z then (daysBeforeMonth false m + 306)%Z
  else (daysBeforeMonth false m - 59)%Z.

Definition marchOffsetNext (m : Z) : Z :=
  if (m =? 2)%Z then 366%Z
  else if (m =? 12)%Z then 306%Z else marchOffset (m + 1).

Definition monthAgrees (doy : Z) : bool :=
  let '(m, d) := monthFromMarch doy in
  ((1 <=? m) && (m <=? 12) && (marchOffset m <=? doy)
   && (doy <? marchOffsetNext m) && (d =? doy - marchOffset m + 1)
   && (Bool.eqb (m <=? 2) (306 <=? doy)))%Z.

(* ================================================================= *)
(** ** Sample data *)

(** Numerals of integer-valued numbers; the fraction of any other number
    is dropped, where [Number::toString] prints it. *)
Definition integerNumeral (x : float) : jsstring :=
  match truncate x with
  | Some z => if (z <? 0)%Z then lit "-" ++ decimalZ (- z) else decimalZ z
  | None => lit "NaN"
  end.

(** A host on UTC. *)
Definition utcHost : Host :=
  {| localOffsetMs := fun _ => 0%Z; numberToString := integerNumeral |}.

(** A recipe with a name, a creation time and an empty ingredient list. *)
Definition plainRecipe (nm : string) (created : float) : Recipe :=
  {| name := Some (lit nm); creationTimestamp := created;
     photoIds := None; sourceName := None; sourceUrl := None;
     servings := None; rating := None; prepTime := None; cookTime := None;
     categories := None; notes := None; note := None;
     ingredients := Some []; instructions := None;
     preparationSteps := None; nutritionalInfo := None |}.

Definition soup : Recipe := plainRecipe "Soup" 1700000000.
Definition bread : Recipe := plainRecipe "Bread" 1700086400.
Definition salad : Recipe := plainRecipe "Salad" 1700172800.

(** [soup] with both legacy note fields set. *)
Definition soupWithNotes : Recipe :=
  {| name := Some (lit "Soup"); creationTimestamp := 1700000000;
     photoIds := None; sourceName := None; sourceUrl := None;
     servings := None; rating := None; prepTime := None; cookTime := None;
     categories := None; notes := Some (lit "B"); note := Some (lit "A");
     ingredients := Some []; instructions := None;
     preparationSteps := None; nutritionalInfo := None |}.

(** [soup] with three preparation steps, the first a heading. *)
Definition soupWithSteps : Recipe :=
  {| name := Some (lit "Soup"); creationTimestamp := 1700000000;
     photoIds := None; sourceName := None; sourceUrl := None;
     servings := None; rating := None; prepTime := None; cookTime := None;
     categories := None; notes := None; note := None;
     ingredients := Some []; instructions := None;
     preparationSteps := Some (map lit ["# Heading"; "Do X"; "Do Y"]%string);
     nutritionalInfo := None |}.

(** [soup] with falsy values in the gated fields. *)
Definition soupWithZeros : Recipe :=
  {| name := Some (lit "Soup"); creationTimestamp := 1700000000;
     photoIds := None; sourceName := None; sourceUrl := None;
     servings := Some (SNum 0); rating := Some 0%float;
     prepTime := Some 0%float; cookTime := Some 600%float;
     categories := None; notes := Some []; note := None;
     ingredients := Some []; instructions := Some [];
     preparationSteps := None; nutritionalInfo := Some [] |}.

(** [soup] with a photo. *)
Definition soupWithPhoto : Recipe :=
  {| name := Some (lit "Soup"); creationTimestamp := 1700000000;
     photoIds := Some [lit "abc"]; sourceName := None; sourceUrl := None;
     servings := None; rating := None; prepTime := None; cookTime := None;
     categories := None; notes := None; note := None;
     ingredients := Some []; instructions := None;
     preparationSteps := None; nutritionalInfo := None |}.

(** A record whose [ingredients] field is missing. *)
Definition broken : Recipe :=
  {| name := Some (lit "Broken"); creationTimestamp := 1700000000;
     photoIds := None; sourceName := None; sourceUrl := None;
     servings := None; rating := None; prepTime := None; cookTime := None;
     categories := None; notes := None; note := None;
     ingredients := None; instructions := None;
     preparationSteps := None; nutritionalInfo := None |}.

(** A world where everything works: the directory exists, every image is
    a 100 x 50 picture, no stream fails. *)
Definition fineEnv (recipes : list Recipe) : Env :=
  {| host := utcHost; loginError := None; recipesResult := inr recipes;
     httpsGet := fun _ => Response 200 [255; 216]%N;
     openImage := fun _ => inr (100%float, 50%float);
     streamError := fun _ => None;
     dirExists := true; writeFileError := None |}.

(** The same world on a fresh checkout: [recipe-pdfs] does not exist. *)
Definition freshEnv (recipes : list Recipe) : Env :=
  {| host := utcHost; loginError := None; recipesResult := inr recipes;
     httpsGet := fun _ => Response 200 [255; 216]%N;
     openImage := fun _ => inr (100%float, 50%float);
     streamError := fun _ => None;
     dirExists := false; writeFileError := None |}.

Definition limitOf (n : Z) : Config := {| generatePDF := true; maxPDFsToGenerate := n |}.


(* ================================================================= *)
(** ** Further vocabulary *)

(** A string of white space only. *)
Definition allWhite (s : jsstring) : Prop :=
  Forall (fun c => isWhiteSpace c = true) s.

(** A string that does not end with white space. *)
Definition lastKept (s : jsstring) : Prop := headKept (rev s).

(** The targets of the hyperlinks a trace draws. *)
Fixpoint linksOf (ops : list DocOp) : list jsstring :=
  match ops with
  | [] => []
  | Text _ (Link url) :: r => url :: linksOf r
  | _ :: r => linksOf r
  end.

(** The blocks of the body in the order of the source. *)
Definition sectionOrder : list SectionId :=
  [Title; Photo; Created; Source; Servings; Rating; Times; Categories;
   NotesEarly; Ingredients; Instructions; PreparationSteps; NotesLate;
   NutritionalInformation; Finish].

(** The first photo of the recipe was fetched and decoded. *)
Definition photoAvailable (env : Env) (recipe : Recipe) : bool :=
  match photoIds recipe with
  | Some (id :: _) =>
      match downloadImage env (photoUrlOf id) with
      | inr buf => match openImage env buf with
                   | inr _ => true
                   | inl _ => false
                   end
      | inl _ => false
      end
  | _ => false
  end.

(** The condition under which each block is written. *)
Definition included (env : Env) (recipe : Recipe) (s : SectionId) : bool :=
  match s with
  | Title | Created | Rating | Ingredients | Finish => true
  | Photo => photoAvailable env recipe
  | Source => truthy truthyStr (sourceName recipe)
              || truthy truthyStr (sourceUrl recipe)
  | Servings => truthy truthyScalar (servings recipe)
  | Times => truthy truthyNum (prepTime recipe)
             || truthy truthyNum (cookTime recipe)
  | Categories => nonEmpty (categories recipe)
  | NotesEarly => truthy truthyStr (notes recipe)
  | Instructions => truthy truthyStr (instructions recipe)
  | PreparationSteps => nonEmpty (preparationSteps recipe)
  | NotesLate => truthy truthyStr (note recipe)
                 || truthy truthyStr (notes recipe)
  | NutritionalInformation => truthy truthyStr (nutritionalInfo recipe)
  end.

Definition wellFormedb (recipe : Recipe) : bool :=
  match name recipe, ingredients recipe with
  | Some _, Some _ => true
  | _, _ => false
  end.

(** The path of the file a recipe is written to. *)
Definition pathOf (env : Env) (recipe : Recipe) : jsstring :=
  outputPathOf (host env) recipe (nameText recipe).

(** The stream of the file of a recipe finishes. *)
Definition streamOk (env : Env) (recipe : Recipe) : bool :=
  match streamError env (pathOf env recipe) with
  | None => true
  | Some _ => false
  end.

(** The steps of an instructions text: its lines that are not blank. *)
Definition instructionSteps (body : jsstring) : list jsstring :=
  filter (fun step => truthyStr (trim step)) (split_nl body).

(** A length within one rounding step of 200. *)
Definition near200 (x : float) : bool :=
  ((next_down 200 <=? x) && (x <=? next_up 200))%float.

(** The side [W] of an image, scaled by the ratio it determines, lands on
    the box. *)
Definition sideOnBox (W : Z) : bool :=
  let w := floatOfZ W in
  negb (PrimFloat.is_nan (200 / w)%float) && near200 (w * (200 / w))%float.

(** The [n] integers from [a] on, each computed from the one before. *)
Fixpoint Zseq (a : Z) (n : nat) : list Z :=
  match n with
  | O => []
  | S k => a :: Zseq (a + 1) k
  end.

(** A world without network: every request is answered 404. *)
Definition offlineEnv (recipes : list Recipe) : Env :=
  {| host := utcHost; loginError := None; recipesResult := inr recipes;
     httpsGet := fun _ => Response 404 [];
     openImage := fun _ => inr (100%float, 50%float);
     streamError := fun _ => None;
     dirExists := true; writeFileError := None |}.

Definition ENOSPC : Error := SystemError (lit "ENOSPC").

(** A world whose disk is full: every stream fails. *)
Definition fullDiskEnv (recipes : list Recipe) : Env :=
  {| host := utcHost; loginError := None; recipesResult := inr recipes;
     httpsGet := fun _ => Response 200 [255; 216]%N;
     openImage := fun _ => inr (100%float, 50%float);
     streamError := fun _ => Some ENOSPC;
     dirExists := true; writeFileError := None |}.

(** The name of month [m] does not start with the letter U. *)
Definition monthInitial (m : Z) : bool :=
  match monthName m with
  | c :: _ => negb (c =? 85)%N
  | [] => false
  end.

(** The font of the value of the Created line. *)
Definition createdFont (h : Host) (recipe : Recipe) : Font :=
  if yearBefore2000 h (newDate (creationTimestamp recipe * 1000)%float)
  then HelveticaOblique else Helvetica.

(** A call that neither ends the document nor draws a hyperlink. *)
Definition quiet (op : DocOp) : bool :=
  match op with
  | End => false
  | Text _ (Link _) => false
  | _ => true
  end.

Definition isEnd (op : DocOp) : bool :=
  match op with
  | End => true
  | _ => false
  end.

(** [soup] with the [notes] field alone. *)
Definition soupWithNotesOnly : Recipe :=
  {| name := Some (lit "Soup"); creationTimestamp := 1700000000;
     photoIds := None; sourceName := None; sourceUrl := None;
     servings := None; rating := None; prepTime := None; cookTime := None;
     categories := None; notes := Some (lit "B"); note := None;
     ingredients := Some []; instructions := None;
     preparationSteps := None; nutritionalInfo := None |}.

(** [soup] with a source that has a name and a URL, instructions with a
    blank line, and two lines of nutritional information. *)
Definition soupWithSource : Recipe :=
  {| name := Some (lit "Soup"); creationTimestamp := 1700000000;
     photoIds := None; sourceName := Some (lit "Grandma");
     sourceUrl := Some (lit "https://example.org/soup");
     servings := None; rating := None; prepTime := None; cookTime := None;
     categories := None; notes := None; note := None;
     ingredients := Some [{| rawIngredient := lit "1 onion" |}];
     instructions := Some (lit "Chop" ++ [10; 32; 10]%N ++ lit " Boil ");
     preparationSteps := None;
     nutritionalInfo := Some (lit "Calories: 90" ++ [10]%N ++ lit "Fat: 1 g") |}.

(** What [iteration] adds to the console for one recipe whose promise
    settles: the lines of the executor, then the line of the [catch] if
    the stream failed. *)
Definition recipeLog (env : Env) (recipe : Recipe) : list LogLine :=
  renderLog (renderRecipe env recipe)
  ++ match streamError env (pathOf env recipe) with
     | Some e => [failedPdf recipe e]
     | None => []
     end.

(** The file of a recipe and the document rendered for it on its own. *)
Definition documentOf (env : Env) (recipe : Recipe) : jsstring * Document :=
  (pathOf env recipe, written (renderRecipe env recipe)).

(** The state of the loop after a batch of recipes that all settle. *)
Definition afterAll (env : Env) (st : LoopState) (l : list Recipe) : LoopState :=
  {| finished := finished st ++ map (documentOf env) (filter (streamOk env) l);
     started := started st ++ l;
     opened := opened st ++ map (pathOf env) l;
     console := console st ++ flat_map (recipeLog env) l |}.

Definition savedLine : LogLine := Log (lit "Saved all recipes to all-recipes.json").

(** Login, retrieval and the write of the archive all succeed. *)
Definition reachesLoop (env : Env) (recipes : list Recipe) : Prop :=
  loginError env = None /\ recipesResult env = inr recipes
  /\ writeArchive env (dirExists env) = None.

(** [soup] with ten minutes of preparation and an hour of cooking. *)
Definition soupWithTimes : Recipe :=
  {| name := Some (lit "Soup"); creationTimestamp := 1700000000;
     photoIds := None; sourceName := None; sourceUrl := None;
     servings := None; rating := None;
     prepTime := Some 600%float; cookTime := Some 3600%float;
     categories := None; notes := None; note := None;
     ingredients := Some []; instructions := None;
     preparationSteps := None; nutritionalInfo := None |}.

(** Two recipes of the same day whose names differ in a reserved
    character. *)
Definition fishSlash : Recipe := plainRecipe "Fish/Chips" 1700000000.
Definition fishColon : Recipe := plainRecipe "Fish:Chips" 1700003600.

(** [t] is [s] without the white space around it: [s] is [t] between two
    runs of white space, and [t] neither starts nor ends with white
    space. *)
Definition trimmedTo (s t : jsstring) : Prop :=
  (exists a b, s = a ++ t ++ b /\ allWhite a /\ allWhite b)
  /\ headKept t /\ lastKept t.

(** The code unit of the number sign. *)
Definition hash : CodeUnit := 35%N.

(** [soup] with preparation steps that carry white space around them, and
    between the number sign and the heading. *)
Definition soupWithSpacedSteps : Recipe :=
  {| name := Some (lit "Soup"); creationTimestamp := 1700000000;
     photoIds := None; sourceName := None; sourceUrl := None;
     servings := None; rating := None; prepTime := None; cookTime := None;
     categories := None; notes := None; note := None;
     ingredients := Some []; instructions := None;
     preparationSteps :=
       Some [lit "  #  Heading "; [9]%N ++ lit "Do X  ";
             lit "#Sub" ++ [13; 10]%N; lit " Do Y" ++ [10]%N];
     nutritionalInfo := None |}.

(** A finite number above zero. *)
Definition positiveFinite (x : float) : bool :=
  match Prim2SF x with
  | S754_finite false _ _ => true
  | _ => false
  end.

(** The quotient [200 / W] is finite and above zero, and the quotient of
    [W + 1] is not above it. *)
Definition quotientStep (W : Z) : bool :=
  positiveFinite (200 / floatOfZ W)
  && (200 / floatOfZ (W + 1) <=? 200 / floatOfZ W)%float.

(** A world whose images are portraits of 300 x 400 pixels. *)
Definition portraitEnv (recipes : list Recipe) : Env :=
  {| host := utcHost; loginError := None; recipesResult := inr recipes;
     httpsGet := fun _ => Response 200 [255; 216]%N;
     openImage := fun _ => inr (300%float, 400%float);
     streamError := fun _ => None;
     dirExists := true; writeFileError := None |}.

(** A recipe without a photo to fetch: its render body runs from the
    first line to the last without waiting for anything. *)
Definition noPhoto (recipe : Recipe) : Prop := nonEmpty (photoIds recipe) = false.

(** Nothing settles the promise of this recipe once its body has raised:
    no stream was opened, the name being missing, or the stream that was
    opened emits no ['error']. *)
Definition noLateError (env : Env) (recipe : Recipe) : Prop :=
  name recipe = None \/ streamError env (pathOf env recipe) = None.

(** What the console shows for a recipe without photo whose body runs to
    its end: the line of the body, then the line of the [catch] if the
    stream failed. *)
Definition plainLog (env : Env) (recipe : Recipe) : list LogLine :=
  Log (lit "Created PDF for: " ++ nameText recipe)
  :: match streamError env (pathOf env recipe) with
     | Some e => [failedPdf recipe e]
     | None => []
     end.
(* ================================================================= *)
(** * Properties *)

(** ** Strings *)

Lemma trimStart_headKept s : headKept (trimStart s).
Proof.
  induction s as [|c s IH]; simpl; [exact I|].
  destruct (isWhiteSpace c) eqn:E; [exact IH | exact E].
Qed.

Lemma trimStart_fixed s : headKept s -> trimStart s = s.
Proof. destruct s as [|c s]; simpl; [reflexivity|]. intros ->. reflexivity. Qed.

Lemma trimEnd_headKept s : headKept s -> headKept (trimEnd s).
Proof.
  destruct s as [|c s]; simpl; [exact (fun H => H)|].
  intros E. destruct (trimEnd s); [rewrite E|]; exact E.
Qed.

Lemma trimEnd_idem s : trimEnd (trimEnd s) = trimEnd s.
Proof.
  induction s as [|c s IH]; simpl; [reflexivity|].
  destruct (trimEnd s) as [|t ts] eqn:E.
  - destruct (isWhiteSpace c) eqn:W; simpl; [reflexivity | now rewrite W].
  - change (trimEnd (c :: t :: ts)) with
      (match trimEnd (t :: ts) with
       | [] => if isWhiteSpace c then [] else [c]
       | u => c :: u
       end).
    rewrite IH. reflexivity.
Qed.

Lemma trim_idem s : trim (trim s) = trim s.
Proof.
  unfold trim.
  rewrite (trimStart_fixed _ (trimEnd_headKept _ (trimStart_headKept s))).
  apply trimEnd_idem.
Qed.

Lemma trimStart_Forall (P : CodeUnit -> Prop) s : Forall P s -> Forall P (trimStart s).
Proof.
  induction 1 as [|c s Hc Hs IH]; simpl; [constructor|].
  destruct (isWhiteSpace c); [exact IH | now constructor].
Qed.

Lemma trimEnd_Forall (P : CodeUnit -> Prop) s : Forall P s -> Forall P (trimEnd s).
Proof.
  induction 1 as [|c s Hc Hs IH]; simpl; [constructor|].
  destruct (trimEnd s).
  - destruct (isWhiteSpace c); repeat constructor; exact Hc.
  - now constructor.
Qed.

Lemma trim_Forall (P : CodeUnit -> Prop) s : Forall P s -> Forall P (trim s).
Proof. intros H. apply trimEnd_Forall, trimStart_Forall, H. Qed.

(** The trimmed string neither starts nor ends with white space. *)
Lemma trimEnd_last s c : last (trimEnd s) c = c \/ isWhiteSpace (last (trimEnd s) c) = false.
Proof.
  induction s as [|a s IH]; simpl; [now left|].
  destruct (trimEnd s) as [|t ts] eqn:E.
  - destruct (isWhiteSpace a) eqn:W; simpl; [now left | now right].
  - exact IH.
Qed.

Lemma trimStart_split s :
  exists a, s = a ++ trimStart s /\ allWhite a.
Proof.
  induction s as [|c s (a & E & W)]; [exists []; split; [reflexivity|constructor]|].
  simpl. destruct (isWhiteSpace c) eqn:Hc.
  - exists (c :: a). split; [cbn [app]; f_equal; exact E | now constructor].
  - exists []. split; [reflexivity | constructor].
Qed.

Lemma trimEnd_split s :
  exists b, s = trimEnd s ++ b /\ allWhite b.
Proof.
  induction s as [|c s (b & E & W)]; [exists []; split; [reflexivity|constructor]|].
  simpl. destruct (trimEnd s) as [|t ts] eqn:T.
  - simpl in E. subst b. destruct (isWhiteSpace c) eqn:Hc.
    + exists (c :: s). split; [reflexivity | now constructor].
    + exists s. split; [reflexivity | exact W].
  - exists b. split; [cbn [app]; f_equal; exact E | exact W].
Qed.

Lemma trimEnd_lastKept s : lastKept (trimEnd s).
Proof.
  unfold lastKept.
  induction s as [|c s IH]; simpl; [exact I|].
  destruct (trimEnd s) as [|t ts] eqn:T.
  - destruct (isWhiteSpace c) eqn:Hc; simpl; [exact I | exact Hc].
  - change (rev (c :: t :: ts)) with (rev (t :: ts) ++ [c]).
    destruct (rev (t :: ts)) as [|x xs] eqn:R.
    + apply (f_equal (@List.length _)) in R. rewrite length_rev in R. discriminate R.
    + exact IH.
Qed.

Lemma trimEnd_length s : List.length (trimEnd s) <= List.length s.
Proof.
  destruct (trimEnd_split s) as (b & E & _).
  rewrite E at 2. rewrite length_app. lia.
Qed.

Lemma trimEnd_fixed s : lastKept s -> trimEnd s = s.
Proof.
  intros L. destruct (trimEnd_split s) as (b & E & W).
  destruct b as [|x b]; [now rewrite app_nil_r in E|].
  exfalso. unfold lastKept in L. rewrite E in L.
  rewrite rev_app_distr in L.
  assert (Hl : exists y ys, rev (x :: b) = y :: ys /\ isWhiteSpace y = true).
  { destruct (rev (x :: b)) as [|y ys] eqn:R.
    - apply (f_equal (@List.length _)) in R. rewrite length_rev in R. discriminate R.
    - exists y, ys. split; [reflexivity|].
      unfold allWhite in W. rewrite Forall_forall in W. apply W.
      apply in_rev. rewrite R. now left. }
  destruct Hl as (y & ys & R & Wy). rewrite R in L. simpl in L. congruence.
Qed.

(** [trim] removes a run of white space at each end, and nothing else. *)
Lemma trim_trimmedTo s : trimmedTo s (trim s).
Proof.
  unfold trimmedTo, trim.
  destruct (trimStart_split s) as (a & Ea & Wa).
  destruct (trimEnd_split (trimStart s)) as (b & Eb & Wb).
  split; [|split].
  - exists a, b. split; [|split; assumption].
    rewrite Ea at 1. rewrite Eb at 1. reflexivity.
  - apply trimEnd_headKept, trimStart_headKept.
  - apply trimEnd_lastKept.
Qed.

Lemma trimStart_white a s : allWhite a -> trimStart (a ++ s) = trimStart s.
Proof.
  induction 1 as [|c a Hc Ha IH]; [reflexivity|].
  cbn [app trimStart]. rewrite Hc. exact IH.
Qed.

Lemma trimEnd_white b : allWhite b -> trimEnd b = [].
Proof.
  induction 1 as [|c b Hc Hb IH]; [reflexivity|].
  cbn [trimEnd]. rewrite IH, Hc. reflexivity.
Qed.

Lemma trimEnd_app_white t b : allWhite b -> trimEnd (t ++ b) = trimEnd t.
Proof.
  intros W. induction t as [|c t IH]; [exact (trimEnd_white W)|].
  cbn [app trimEnd]. rewrite IH. reflexivity.
Qed.

(** Only one string is [s] without the white space around it. *)
Lemma trimmedTo_unique s t : trimmedTo s t -> trim s = t.
Proof.
  intros ((a & b & E & Wa & Wb) & H & L). subst s. unfold trim.
  rewrite (trimStart_white _ Wa).
  destruct t as [|c t].
  - cbn [app]. destruct (trimStart_split b) as (x & Ex & Wx).
    apply trimEnd_white. unfold allWhite in *. rewrite Ex in Wb.
    apply Forall_app in Wb. tauto.
  - cbn [app trimStart]. simpl in H. rewrite H.
    change (c :: t ++ b) with ((c :: t) ++ b).
    rewrite (trimEnd_app_white _ Wb). apply trimEnd_fixed, L.
Qed.

Lemma replaceReserved_clean s : clean (replaceReserved s).
Proof.
  induction s as [|c s IH]; simpl; constructor; [|exact IH].
  destruct (isReserved c) eqn:E; [reflexivity | exact E].
Qed.

Lemma replaceReserved_fixed s : clean s -> replaceReserved s = s.
Proof.
  induction 1 as [|c s Hc Hs IH]; simpl; [reflexivity|].
  rewrite Hc. f_equal. exact IH.
Qed.

Lemma replaceReserved_length s : List.length (replaceReserved s) = List.length s.
Proof. apply length_map. Qed.

Lemma sanitizeFilename_clean s : clean (sanitizeFilename s).
Proof. apply trim_Forall, replaceReserved_clean. Qed.

Lemma isReserved_In c : isReserved c = false -> ~ In c reservedChars.
Proof.
  unfold isReserved. intros H I.
  assert (existsb (N.eqb c) reservedChars = true) as E.
  { apply existsb_exists. exists c. split; [exact I | apply N.eqb_refl]. }
  congruence.
Qed.

(** C8: [sanitizeFilename] is idempotent, and its result holds none of the
    ten reserved characters; in particular neither the slash (47) nor the
    backslash (92), the path separators. *)
Theorem sanitizeFilename_idempotent_clean (x : jsstring) :
  sanitizeFilename (sanitizeFilename x) = sanitizeFilename x
  /\ (forall c, In c (sanitizeFilename x) -> ~ In c reservedChars)
  /\ ~ In 47%N (sanitizeFilename x) /\ ~ In 92%N (sanitizeFilename x).
Proof.
  pose proof (sanitizeFilename_clean x) as C.
  split; [|split].
  - unfold sanitizeFilename at 1.
    rewrite (replaceReserved_fixed C). apply trim_idem.
  - intros c I. apply isReserved_In.
    unfold clean in C. rewrite Forall_forall in C. exact (C c I).
  - unfold clean in C. rewrite Forall_forall in C.
    split; intros I; specialize (C _ I); discriminate C.
Qed.

(** ** Decimal numerals *)

Lemma isDigit_offset (d : N) : (d < 10)%N -> isDigit (48 + d)%N = true.
Proof.
  intros H. unfold isDigit. apply andb_true_iff; split; apply N.leb_le; lia.
Qed.

Lemma digits_fuel_digits fuel : forall n acc,
  forallb isDigit acc = true -> forallb isDigit (digits_fuel fuel n acc) = true.
Proof.
  induction fuel as [|f IH]; intros n acc H; cbn [digits_fuel]; [exact H|].
  assert (forallb isDigit ((48 + n mod 10)%N :: acc) = true) as H'.
  { cbn [forallb]. rewrite H, andb_true_r.
    apply isDigit_offset, N.mod_upper_bound. discriminate. }
  destruct (n / 10 =? 0)%N; [exact H' | apply IH, H'].
Qed.

Lemma digits_fuel_value fuel : forall n acc,
  (n < 2 ^ N.of_nat fuel)%N ->
  numeralValue (digits_fuel fuel n acc)
  = fold_left (fun a c => (a * 10 + (c - 48))%N) acc n.
Proof.
  unfold numeralValue.
  induction fuel as [|f IH]; intros n acc H.
  - simpl in *. assert (n = 0%N) by lia. subst n. reflexivity.
  - cbn [digits_fuel].
    pose proof (N.div_mod n 10 ltac:(discriminate)) as D.
    pose proof (N.mod_upper_bound n 10 ltac:(discriminate)) as B.
    rewrite Nat2N.inj_succ, N.pow_succ_r' in H.
    set (q := (n / 10)%N) in *. set (r := (n mod 10)%N) in *.
    clearbody q r.
    destruct (q =? 0)%N eqn:Q.
    + apply N.eqb_eq in Q. cbn [fold_left]. f_equal. lia.
    + rewrite IH; [cbn [fold_left]; f_equal; lia | lia].
Qed.

(** The numeral of [n] consists of decimal digits and denotes [n]. *)
Lemma decimalN_spec n :
  forallb isDigit (decimalN n) = true /\ numeralValue (decimalN n) = n.
Proof.
  unfold decimalN. split; [apply digits_fuel_digits; reflexivity|].
  rewrite digits_fuel_value; [reflexivity|].
  rewrite Nat2N.inj_succ, N2Nat.id.
  destruct n as [|p]; [reflexivity|].
  apply N.log2_spec. lia.
Qed.

Lemma slashesToHyphens_app a b :
  slashesToHyphens (a ++ b) = slashesToHyphens a ++ slashesToHyphens b.
Proof. apply map_app. Qed.

Lemma slashesToHyphens_digits s :
  forallb isDigit s = true -> slashesToHyphens s = s.
Proof.
  induction s as [|c s IH]; simpl; [reflexivity|].
  intros H. apply andb_true_iff in H as [Hc Hs].
  rewrite (IH Hs). f_equal.
  destruct (c =? 47)%N eqn:E; [|reflexivity].
  apply N.eqb_eq in E. subst c. discriminate Hc.
Qed.

Lemma pad2_digits n : forallb isDigit (pad2 n) = true.
Proof.
  unfold pad2, decimalZ.
  destruct (n <? 10)%Z; [simpl|]; apply decimalN_spec.
Qed.

(** ** Dates *)

Lemma Zrange_forallb (f : Z -> bool) (a : Z) (n : nat) :
  forallb f (Zrange a n) = true ->
  forall z, (a <= z < a + Z.of_nat n)%Z -> f z = true.
Proof.
  intros H z Hz. rewrite forallb_forall in H. apply H.
  unfold Zrange. apply in_map_iff. exists (Z.to_nat (z - a)).
  split; [lia|]. apply in_seq. lia.
Qed.

Local Open Scope Z_scope.

(** The day of the 400-year era a day number falls on. *)
Lemma dayOfEra_range (days : Z) :
  0 <= days + 719468 - (days + 719468) / 146097 * 146097 < 146097.
Proof.
  pose proof (Z.div_mod (days + 719468) 146097).
  pose proof (Z.mod_pos_bound (days + 719468) 146097).
  lia.
Qed.

Lemma civilFromDays_range (days : Z) :
  let '(y, m, d) := civilFromDays days in
  1 <= m <= 12 /\ 1 <= d <= 31.
Proof.
  unfold civilFromDays.
  pose proof (dayOfEra_range days) as Hdoe.
  set (doe := days + 719468 - (days + 719468) / 146097 * 146097) in *.
  clearbody doe.
  set (yoe := (doe - doe / 1460 + doe / 36524 - doe / 146096) / 365).
  set (doy := doe - (365 * yoe + yoe / 4 - yoe / 100)).
  assert (Hdoy : 0 <= doy <= 365)
    by (subst doy yoe; Z.div_mod_to_equations; lia).
  clearbody doy.
  set (mp := (5 * doy + 2) / 153).
  assert (Hmp : 0 <= mp <= 11) by (subst mp; Z.div_mod_to_equations; lia).
  assert (Hd : 1 <= doy - (153 * mp + 2) / 5 + 1 <= 31)
    by (subst mp; Z.div_mod_to_equations; lia).
  destruct (mp <? 10) eqn:E; [apply Z.ltb_lt in E | apply Z.ltb_ge in E];
    split; lia.
Qed.

Local Close Scope Z_scope.

Lemma month_shapes : forallb monthShape (Zrange 1 12) = true.
Proof. vm_compute. reflexivity. Qed.

Lemma day_shapes : forallb dayShape (Zrange 1 31) = true.
Proof. vm_compute. reflexivity. Qed.

Lemma year_shapes : forallb yearShape (Zrange 2000 (80 * 100)) = true.
Proof. vm_compute. reflexivity. Qed.

Lemma slashes_date (a b c : Z) :
  slashesToHyphens (pad2 a ++ lit "/" ++ pad2 b ++ lit "/" ++ decimalZ c)
  = pad2 a ++ lit "-" ++ pad2 b ++ lit "-" ++ decimalZ c.
Proof.
  rewrite !slashesToHyphens_app.
  rewrite !(slashesToHyphens_digits _ (pad2_digits _)).
  rewrite (slashesToHyphens_digits (decimalZ c)) by apply decimalN_spec.
  reflexivity.
Qed.

(** C5, as the code has it: a timestamp whose milliseconds are a time
    value (finite, at most 8.64e15 in magnitude) gives the empty file token
    and [Unknown] when its local calendar year is below 2000, and otherwise
    the token MM-DD-Y and the text [Month D, Y], with a two-character month
    and day in the token, a named month, a day without leading zero and the
    decimal numeral of the year (four digits up to 9999); any other
    timestamp gives [Invalid Date] in both fields. *)
Theorem formatDate_cases (h : Host) (timestamp : float) :
  match newDate (timestamp * 1000)%float with
  | None =>
      formatDate h timestamp
      = {| fileName := lit "Invalid Date"; display := lit "Invalid Date" |}
  | Some t =>
      let '(y, m, d) := localDate h t in
      if (y <? 2000)%Z
      then formatDate h timestamp = {| fileName := []; display := lit "Unknown" |}
      else formatDate h timestamp
           = {| fileName := pad2 m ++ lit "-" ++ pad2 d ++ lit "-" ++ decimalZ y;
                display := monthName m ++ lit " " ++ decimalZ d ++ lit ", "
                           ++ decimalZ y |}
           /\ (1 <= m <= 12)%Z /\ (1 <= d <= 31)%Z
           /\ monthShape m = true /\ dayShape d = true
           /\ forallb isDigit (decimalZ y) = true
           /\ numeralValue (decimalZ y) = Z.to_N y
           /\ (if (y <=? 9999)%Z then yearShape y = true else True)
  end.
Proof.
  unfold formatDate.
  destruct (newDate (timestamp * 1000)%float) as [t|] eqn:D; [|reflexivity].
  unfold yearBefore2000, getFullYear, toLocaleDateString_2digit,
    toLocaleDateString_long.
  pose proof (civilFromDays_range (Day (t + localOffsetMs h t))) as R.
  unfold localDate in *.
  destruct (civilFromDays (Day (t + localOffsetMs h t))) as [[y m] d].
  destruct (y <? 2000)%Z eqn:Y; [reflexivity|].
  apply Z.ltb_ge in Y. destruct R as [Rm Rd].
  rewrite slashes_date.
  repeat split; try lia.
  - apply (@Zrange_forallb _ _ _ month_shapes). lia.
  - apply (@Zrange_forallb _ _ _ day_shapes). lia.
  - apply decimalN_spec.
  - apply decimalN_spec.
  - destruct (y <=? 9999)%Z eqn:Y'; [|exact I].
    apply Z.leb_le in Y'. apply (@Zrange_forallb _ _ _ year_shapes). lia.
Qed.

(** The formatter on a date of 2023 and on one of 1999. *)
Lemma formatDate_cases_witness :
  formatDate utcHost 1700000000
  = {| fileName := lit "11-14-2023"; display := lit "November 14, 2023" |}
  /\ formatDate utcHost 915148799
     = {| fileName := []; display := lit "Unknown" |}.
Proof.
  split.
  - pose proof (formatDate_cases utcHost 1700000000) as H.
    vm_compute in H. vm_compute. apply H.
  - pose proof (formatDate_cases utcHost 915148799) as H.
    vm_compute in H. vm_compute. apply H.
Defined.

(** C5 as stated fails: a timestamp beyond the range of dates, or a
    missing one ([nan]), has no year below 2000, and its file token is not
    a date. *)
Lemma formatDate_invalid_date :
  yearBefore2000 utcHost (newDate (1e16 * 1000)%float) = false
  /\ formatDate utcHost 1e16
     = {| fileName := lit "Invalid Date"; display := lit "Invalid Date" |}
  /\ formatDate utcHost nan
     = {| fileName := lit "Invalid Date"; display := lit "Invalid Date" |}.
Proof. repeat split. Qed.

Local Open Scope Z_scope.

Lemma DayFromYear_marchDay (y : Z) : DayFromYear y = marchDay (y - 1) + 306.
Proof. unfold DayFromYear, marchDay. Z.div_mod_to_equations; lia. Qed.

Lemma marchDay_step (Y : Z) : 365 <= marchDay (Y + 1) - marchDay Y <= 366.
Proof. unfold marchDay. Z.div_mod_to_equations; lia. Qed.

Lemma marchDay_era (yoe era : Z) :
  0 <= yoe < 400 ->
  marchDay (yoe + era * 400)
  = era * 146097 + 365 * yoe + yoe / 4 - yoe / 100 - 719468.
Proof. unfold marchDay. intros H. Z.div_mod_to_equations; lia. Qed.

Lemma yearOfEra_spec (doe : Z) :
  0 <= doe < 146097 ->
  let yoe := (doe - doe / 1460 + doe / 36524 - doe / 146096) / 365 in
  0 <= yoe < 400
  /\ 365 * yoe + yoe / 4 - yoe / 100 <= doe
  /\ (yoe < 399 -> doe < 365 * (yoe + 1) + (yoe + 1) / 4 - (yoe + 1) / 100).
Proof.
  intros H yoe. subst yoe. Z.div_mod_to_equations; lia.
Qed.

(** A day number lies in the March-based year computed for it. *)
Lemma marchYearDay_spec (days : Z) :
  let '(Y, doy) := marchYearDay days in
  doy = days - marchDay Y /\ marchDay Y <= days < marchDay (Y + 1).
Proof.
  unfold marchYearDay.
  pose proof (dayOfEra_range days) as Hdoe.
  set (era := (days + 719468) / 146097) in *.
  set (doe := days + 719468 - era * 146097) in *.
  assert (Hz : days = doe + era * 146097 - 719468) by (subst doe; lia).
  clearbody doe. clearbody era.
  destruct (yearOfEra_spec Hdoe) as (Hyoe & Hlo & Hhi).
  set (yoe := (doe - doe / 1460 + doe / 36524 - doe / 146096) / 365) in *.
  clearbody yoe.
  pose proof (marchDay_era era Hyoe) as HY.
  split; [lia|]. split; [lia|].
  destruct (Z.eq_dec yoe 399) as [->|N].
  - replace (399 + era * 400 + 1) with (0 + (era + 1) * 400) by lia.
    rewrite (@marchDay_era 0 (era + 1)) by lia.
    change (0 / 4) with 0. change (0 / 100) with 0. lia.
  - replace (yoe + era * 400 + 1) with ((yoe + 1) + era * 400) by lia.
    rewrite (@marchDay_era (yoe + 1) era) by lia. lia.
Qed.

Lemma months_agree : forallb monthAgrees (Zrange 0 366) = true.
Proof. vm_compute. reflexivity. Qed.

Lemma daysBeforeMonth_leap (leap : bool) (m : Z) :
  1 <= m <= 12 ->
  daysBeforeMonth leap m
  = daysBeforeMonth false m + (if (3 <=? m) && leap then 1 else 0).
Proof.
  intros H.
  assert (m = 1 \/ m = 2 \/ m = 3 \/ m = 4 \/ m = 5 \/ m = 6 \/ m = 7
          \/ m = 8 \/ m = 9 \/ m = 10 \/ m = 11 \/ m = 12) as C by lia.
  destruct leap;
    repeat (destruct C as [->|C]; [reflexivity|]); subst m; reflexivity.
Qed.

Lemma civilFromDays_split (days : Z) :
  civilFromDays days
  = let '(Y, doy) := marchYearDay days in
    let '(m, d) := monthFromMarch doy in
    (if m <=? 2 then Y + 1 else Y, m, d).
Proof. reflexivity. Qed.

(** The calendar date agrees with ECMAScript's [YearFromTime],
    [MonthFromTime] and [DateFromTime]: the year is the one whose days
    contain the day number, the month the one whose span within the year
    does, and the day of the month counts from the first day of the
    month. *)
Lemma civilFromDays_ecma (days : Z) :
  let '(y, m, d) := civilFromDays days in
  let dayWithinYear := days - DayFromYear y in
  let leap := InLeapYear y in
  DayFromYear y <= days < DayFromYear (y + 1)
  /\ daysBeforeMonth leap m <= dayWithinYear
  /\ (m < 12 -> dayWithinYear < daysBeforeMonth leap (m + 1))
  /\ d = dayWithinYear - daysBeforeMonth leap m + 1.
Proof.
  rewrite civilFromDays_split.
  pose proof (marchYearDay_spec days) as HY.
  destruct (marchYearDay days) as [Y doy].
  destruct HY as (Hdoy & Hlo & Hhi).
  pose proof (marchDay_step Y) as S1.
  pose proof (marchDay_step (Y - 1)) as S0.
  replace (Y - 1 + 1) with Y in S0 by lia.
  pose proof (@Zrange_forallb _ _ _ months_agree doy ltac:(lia)) as M.
  unfold monthAgrees in M.
  destruct (monthFromMarch doy) as [m d].
  repeat (apply andb_true_iff in M as [M ?]).
  repeat match goal with
         | H : (_ <=? _) = true |- _ => apply Z.leb_le in H
         | H : (_ <? _) = true |- _ => apply Z.ltb_lt in H
         | H : (_ =? _) = true |- _ => apply Z.eqb_eq in H
         | H : Bool.eqb _ _ = true |- _ => apply Bool.eqb_prop in H
         end.
  assert (Hjan : m <= 2 <-> 306 <= doy).
  { match goal with
    | H : (m <=? 2) = (306 <=? doy) |- _ =>
        destruct (Z.leb_spec m 2), (Z.leb_spec 306 doy);
          try discriminate H; lia
    end. }
  cbv zeta. unfold InLeapYear.
  assert (C : m = 1 \/ m = 2 \/ m = 12 \/ 3 <= m <= 11) by lia.
  destruct C as [->|[->|[->|C]]].
  - (* January, of the year after the March-based one *)
    change (marchOffset 1) with 306 in *.
    change (marchOffsetNext 1) with 337 in *.
    change (1 <=? 2) with true. cbv iota.
    change (daysBeforeMonth ?l 1) with 0.
    change (daysBeforeMonth ?l (1 + 1)) with 31.
    rewrite !DayFromYear_marchDay.
    replace (Y + 1 - 1) with Y by lia.
    replace (Y + 1 + 1 - 1) with (Y + 1) by lia.
    lia.
  - (* February: its length is the one of the year *)
    change (marchOffset 2) with 337 in *.
    change (marchOffsetNext 2) with 366 in *.
    change (2 <=? 2) with true. cbv iota.
    change (daysBeforeMonth ?l 2) with 31.
    rewrite !DayFromYear_marchDay.
    replace (Y + 1 - 1) with Y by lia.
    replace (Y + 1 + 1 - 1) with (Y + 1) by lia.
    destruct (marchDay (Y + 1) + 306 - (marchDay Y + 306) =? 366) eqn:L;
      [apply Z.eqb_eq in L | apply Z.eqb_neq in L];
      [change (daysBeforeMonth true (2 + 1)) with 60
      |change (daysBeforeMonth false (2 + 1)) with 59]; lia.
  - (* December *)
    change (marchOffset 12) with 275 in *.
    change (marchOffsetNext 12) with 306 in *.
    change (12 <=? 2) with false. cbv iota.
    rewrite !DayFromYear_marchDay.
    replace (Y + 1 - 1) with Y by lia.
    destruct (marchDay Y + 306 - (marchDay (Y - 1) + 306) =? 366) eqn:L;
      [apply Z.eqb_eq in L | apply Z.eqb_neq in L];
      [change (daysBeforeMonth true 12) with 335
      |change (daysBeforeMonth false 12) with 334]; lia.
  - (* March to November *)
    unfold marchOffsetNext, marchOffset in *.
    replace (m =? 2) with false in * by (symmetry; apply Z.eqb_neq; lia).
    replace (m =? 12) with false in * by (symmetry; apply Z.eqb_neq; lia).
    replace (m <=? 2) with false in * by (symmetry; apply Z.leb_gt; lia).
    replace (m + 1 <=? 2) with false in * by (symmetry; apply Z.leb_gt; lia).
    rewrite !DayFromYear_marchDay.
    replace (Y + 1 - 1) with Y by lia.
    rewrite (daysBeforeMonth_leap _ (m := m)) by lia.
    rewrite (daysBeforeMonth_leap _ (m := m + 1)) by lia.
    replace (3 <=? m) with true by (symmetry; apply Z.leb_le; lia).
    replace (3 <=? m + 1) with true by (symmetry; apply Z.leb_le; lia).
    cbn [andb].
    destruct (marchDay Y + 306 - (marchDay (Y - 1) + 306) =? 366) eqn:L;
      [apply Z.eqb_eq in L | apply Z.eqb_neq in L]; lia.
Qed.

(** [getFullYear] is [YearFromTime] of the local time. *)
Lemma getFullYear_spec (h : Host) (t y : Z) :
  getFullYear h (Some t) = Some y ->
  DayFromYear y <= Day (t + localOffsetMs h t) < DayFromYear (y + 1).
Proof.
  unfold getFullYear, localDate.
  pose proof (civilFromDays_ecma (Day (t + localOffsetMs h t))) as E.
  destruct (civilFromDays (Day (t + localOffsetMs h t))) as [[y' m] d].
  intros [= <-]. apply E.
Qed.

Local Close Scope Z_scope.

(** ** The blocks of a rendered document *)

Lemma blocksOf_app (s : SectionId) (a b : Document) :
  blocksOf s (a ++ b) = blocksOf s a ++ blocksOf s b.
Proof. unfold blocksOf. now rewrite filter_app, map_app. Qed.

Lemma blocksOf_tagged (t s : SectionId) (d : Document) :
  tagged t d ->
  blocksOf s d = if SectionId_eqb t s then map snd d else [].
Proof.
  unfold blocksOf. induction 1 as [|[u ops] d Hu Hd IH]; simpl in *.
  - now destruct (SectionId_eqb t s).
  - subst u. destruct (SectionId_eqb t s); simpl; rewrite IH; reflexivity.
Qed.

Lemma tagged_when (c : bool) (s : SectionId) (ops : list DocOp) :
  tagged s (when c s ops).
Proof. destruct c; repeat constructor. Qed.

Lemma tagged_one (s : SectionId) (ops : list DocOp) : tagged s [(s, ops)].
Proof. repeat constructor. Qed.

Lemma tagged_nil (s : SectionId) : tagged s [].
Proof. constructor. Qed.

Create HintDb blocks.

#[local] Hint Resolve tagged_when tagged_one tagged_nil : blocks.

Lemma titleBlock_tagged nm : tagged Title (titleBlock nm).
Proof. apply tagged_one. Qed.

Lemma photoBlock_tagged env recipe : tagged Photo (fst (photoBlock env recipe)).
Proof.
  unfold photoBlock.
  destruct (photoIds recipe) as [[|id rest]|]; auto with blocks.
  destruct (downloadImage env _); auto with blocks.
  destruct (openImage env _) as [e|[w h]]; auto with blocks.
  unfold placedSize. simpl. auto with blocks.
Qed.

Lemma createdBlock_tagged h recipe : tagged Created (createdBlock h recipe).
Proof. apply tagged_one. Qed.

Lemma sourceBlock_tagged recipe : tagged Source (sourceBlock recipe).
Proof. apply tagged_when. Qed.

Lemma servingsBlock_tagged h recipe : tagged Servings (servingsBlock h recipe).
Proof. unfold servingsBlock. destruct (servings recipe); auto with blocks. Qed.

Lemma ratingBlock_tagged h recipe : tagged Rating (ratingBlock h recipe).
Proof. apply tagged_one. Qed.

Lemma timesBlock_tagged h recipe : tagged Times (timesBlock h recipe).
Proof. apply tagged_when. Qed.

Lemma categoriesBlock_tagged recipe : tagged Categories (categoriesBlock recipe).
Proof.
  unfold categoriesBlock. destruct (categories recipe) as [[|c cs]|]; auto with blocks.
Qed.

Lemma notesEarlyBlock_tagged recipe : tagged NotesEarly (notesEarlyBlock recipe).
Proof. unfold notesEarlyBlock. destruct (notes recipe); auto with blocks. Qed.

Lemma instructionsBlock_tagged recipe : tagged Instructions (instructionsBlock recipe).
Proof. unfold instructionsBlock. destruct (instructions recipe); auto with blocks. Qed.

Lemma preparationBlock_tagged recipe : tagged PreparationSteps (preparationBlock recipe).
Proof.
  unfold preparationBlock.
  destruct (preparationSteps recipe) as [[|s ss]|]; auto with blocks.
Qed.

Lemma notesLateBlock_tagged recipe : tagged NotesLate (notesLateBlock recipe).
Proof. apply tagged_when. Qed.

Lemma nutritionBlock_tagged recipe :
  tagged NutritionalInformation (nutritionBlock recipe).
Proof. unfold nutritionBlock. destruct (nutritionalInfo recipe); auto with blocks. Qed.

(** The document of a recipe that has a name and ingredients: every block
    of the body, in source order, closed by [doc.end()]. *)
Lemma written_wellFormed env recipe nm l :
  name recipe = Some nm -> ingredients recipe = Some l ->
  written (renderRecipe env recipe)
  = upperBlocks (host env) recipe nm (fst (photoBlock env recipe))
    ++ [(Ingredients, ingredientsHeading ++ ingredientLines l)]
    ++ lowerBlocks recipe ++ [(Finish, [End])].
Proof.
  intros Hn Hi. unfold renderRecipe. rewrite Hn, Hi.
  destruct (photoBlock env recipe) as [photo photoLog]. reflexivity.
Qed.

(** Splits [blocksOf] over the blocks of a document and keeps the ones of
    the section asked for. *)
Ltac blocks_of :=
  unfold upperBlocks, lowerBlocks;
  repeat rewrite blocksOf_app;
  rewrite ?(blocksOf_tagged _ (titleBlock_tagged _)),
    ?(blocksOf_tagged _ (photoBlock_tagged _ _)),
    ?(blocksOf_tagged _ (createdBlock_tagged _ _)),
    ?(blocksOf_tagged _ (sourceBlock_tagged _)),
    ?(blocksOf_tagged _ (servingsBlock_tagged _ _)),
    ?(blocksOf_tagged _ (ratingBlock_tagged _ _)),
    ?(blocksOf_tagged _ (timesBlock_tagged _ _)),
    ?(blocksOf_tagged _ (categoriesBlock_tagged _)),
    ?(blocksOf_tagged _ (notesEarlyBlock_tagged _)),
    ?(blocksOf_tagged _ (instructionsBlock_tagged _)),
    ?(blocksOf_tagged _ (preparationBlock_tagged _)),
    ?(blocksOf_tagged _ (notesLateBlock_tagged _)),
    ?(blocksOf_tagged _ (nutritionBlock_tagged _)),
    ?(blocksOf_tagged _ (tagged_one Ingredients _)),
    ?(blocksOf_tagged _ (tagged_one Finish _));
  cbn [SectionId_eqb app];
  rewrite ?app_nil_r.

(** The blocks a section contributes to the document of a well-formed
    recipe are the ones its source block emits. *)
Lemma blocksOf_written env recipe :
  wellFormed recipe ->
  let d := written (renderRecipe env recipe) in
  blocksOf Photo d = map snd (fst (photoBlock env recipe))
  /\ blocksOf Servings d = map snd (servingsBlock (host env) recipe)
  /\ blocksOf Rating d = map snd (ratingBlock (host env) recipe)
  /\ blocksOf Times d = map snd (timesBlock (host env) recipe)
  /\ blocksOf NotesEarly d = map snd (notesEarlyBlock recipe)
  /\ blocksOf Instructions d = map snd (instructionsBlock recipe)
  /\ blocksOf PreparationSteps d = map snd (preparationBlock recipe)
  /\ blocksOf NotesLate d = map snd (notesLateBlock recipe)
  /\ blocksOf NutritionalInformation d = map snd (nutritionBlock recipe).
Proof.
  intros [Hn Hi].
  destruct (name recipe) as [nm|] eqn:En; [|congruence].
  destruct (ingredients recipe) as [l|] eqn:Ei; [|congruence].
  cbv zeta. rewrite (written_wellFormed env recipe En Ei).
  repeat split; blocks_of; reflexivity.
Qed.
(* ================================================================= *)
(** ** Comparison of numbers *)

Lemma SFcompare_antisym x y :
  SFcompare y x = option_map CompOpp (SFcompare x y).
Proof.
  destruct x as [[]|[]| |[] m e], y as [[]|[]| |[] m' e']; try reflexivity;
    cbn [SFcompare option_map]; f_equal;
    rewrite (Z.compare_antisym e e');
    change (Pos.compare_cont Eq m' m) with (Pos.compare m' m);
    change (Pos.compare_cont Eq m m') with (Pos.compare m m');
    rewrite (Pos.compare_antisym m m');
    destruct (e ?= e')%Z; cbn [CompOpp]; try reflexivity.
Qed.

Lemma is_nan_compare a :
  PrimFloat.is_nan a = false -> SFcompare (Prim2SF a) (Prim2SF a) = Some Eq.
Proof.
  unfold PrimFloat.is_nan. rewrite FloatAxioms.eqb_spec. unfold SFeqb.
  destruct (SFcompare _ _) as [[]|]; cbn; congruence.
Qed.

Lemma SFcompare_defined x y :
  SFcompare x x = Some Eq -> SFcompare y y = Some Eq -> SFcompare x y <> None.
Proof.
  destruct x as [[]|[]| |[] m e], y as [[]|[]| |[] m' e']; cbn; congruence.
Qed.

Lemma Math_min_cases (a b : float) :
  PrimFloat.is_nan a = false -> PrimFloat.is_nan b = false ->
  Math_min a b = a \/ Math_min a b = b.
Proof.
  intros A B. unfold Math_min. rewrite A, B. cbn [orb].
  destruct (a <? b)%float; [now left|].
  destruct (b <? a)%float; [now right|].
  destruct (PrimFloat.get_sign a); [now left | now right].
Qed.

(** [Math.min] of two numbers is not above either of them. *)
Lemma Math_min_least (a b : float) :
  PrimFloat.is_nan a = false -> PrimFloat.is_nan b = false ->
  (Math_min a b <=? a)%float = true /\ (Math_min a b <=? b)%float = true.
Proof.
  intros A B. unfold Math_min. rewrite A, B. cbn [orb].
  apply is_nan_compare in A. apply is_nan_compare in B.
  pose proof (@SFcompare_defined _ _ A B) as D.
  rewrite !FloatAxioms.ltb_spec. unfold SFltb.
  rewrite (SFcompare_antisym (Prim2SF a) (Prim2SF b)).
  destruct (SFcompare (Prim2SF a) (Prim2SF b)) as [[]|] eqn:C; [| | |congruence];
    cbn [option_map CompOpp];
    try destruct (PrimFloat.get_sign a);
    rewrite !FloatAxioms.leb_spec; unfold SFleb;
    rewrite ?A, ?B, ?C, ?(SFcompare_antisym (Prim2SF a) (Prim2SF b)), ?C;
    split; reflexivity.
Qed.

Lemma positiveFinite_inv x :
  positiveFinite x = true -> exists m e, Prim2SF x = S754_finite false m e.
Proof.
  unfold positiveFinite. destruct (Prim2SF x) as [| | |[] m e]; try discriminate.
  intros _. now exists m, e.
Qed.

Lemma leb_positiveFinite x y m e m' e' :
  Prim2SF x = S754_finite false m e -> Prim2SF y = S754_finite false m' e' ->
  (x <=? y)%float = true <-> (e < e' \/ e = e' /\ (m <= m')%positive)%Z.
Proof.
  intros X Y. rewrite FloatAxioms.leb_spec, X, Y. unfold SFleb. cbn [SFcompare].
  change (Pos.compare_cont Eq m m') with (Pos.compare m m').
  destruct (Z.compare_spec e e') as [E|E|E].
  - destruct (Pos.compare_spec m m') as [M|M|M]; split; intros H;
      try discriminate; try reflexivity; try lia.
  - split; [intros _; now left | reflexivity].
  - split; [discriminate | lia].
Qed.

Lemma leb_trans x y z :
  positiveFinite x = true -> positiveFinite y = true -> positiveFinite z = true ->
  (x <=? y)%float = true -> (y <=? z)%float = true -> (x <=? z)%float = true.
Proof.
  intros X Y Z0.
  destruct (positiveFinite_inv _ X) as (m1 & e1 & E1).
  destruct (positiveFinite_inv _ Y) as (m2 & e2 & E2).
  destruct (positiveFinite_inv _ Z0) as (m3 & e3 & E3).
  rewrite (@leb_positiveFinite _ _ _ _ _ _ E1 E2),
    (@leb_positiveFinite _ _ _ _ _ _ E2 E3),
    (@leb_positiveFinite _ _ _ _ _ _ E1 E3). lia.
Qed.

Lemma leb_antisym x y :
  positiveFinite x = true -> positiveFinite y = true ->
  (x <=? y)%float = true -> (y <=? x)%float = true -> x = y.
Proof.
  intros X Y.
  destruct (positiveFinite_inv _ X) as (m1 & e1 & E1).
  destruct (positiveFinite_inv _ Y) as (m2 & e2 & E2).
  rewrite (@leb_positiveFinite _ _ _ _ _ _ E1 E2),
    (@leb_positiveFinite _ _ _ _ _ _ E2 E1). intros A B.
  apply Prim2SF_inj. rewrite E1, E2.
  assert (e1 = e2) by lia. subst e2. assert (m1 = m2) by lia. now subst m2.
Qed.

Lemma leb_refl x : positiveFinite x = true -> (x <=? x)%float = true.
Proof.
  intros X. destruct (positiveFinite_inv _ X) as (m & e & E).
  rewrite (@leb_positiveFinite _ _ _ _ _ _ E E). lia.
Qed.

Lemma positiveFinite_not_nan x :
  positiveFinite x = true -> PrimFloat.is_nan x = false.
Proof.
  intros X. unfold PrimFloat.is_nan.
  destruct (positiveFinite_inv _ X) as (m & e & E).
  rewrite FloatAxioms.eqb_spec, E. unfold SFeqb. cbn [SFcompare].
  rewrite Z.compare_refl.
  change (Pos.compare_cont Eq m m) with (Pos.compare m m).
  rewrite Pos.compare_refl. reflexivity.
Qed.

(** ** The quotients [200 / W] *)

Lemma Zseq_forallb (f : Z -> bool) (n : nat) : forall a,
  forallb f (Zseq a n) = true ->
  forall z, (a <= z < a + Z.of_nat n)%Z -> f z = true.
Proof.
  induction n as [|n IH]; intros a H z Hz; [lia|].
  cbn [Zseq forallb] in H. apply andb_true_iff in H as [Ha H].
  destruct (Z.eq_dec z a) as [->|N]; [exact Ha|].
  apply (IH (a + 1)%Z H). lia.
Qed.

Lemma sides_on_box : forallb sideOnBox (Zseq 1 (255 * 257)) = true.
Proof. vm_compute. reflexivity. Qed.

Lemma quotient_steps : forallb quotientStep (Zseq 1 (255 * 257)) = true.
Proof. vm_compute. reflexivity. Qed.

Lemma quotient_positive W :
  (1 <= W <= 65535)%Z -> positiveFinite (200 / floatOfZ W) = true.
Proof.
  intros H. pose proof (@Zseq_forallb _ _ _ quotient_steps W ltac:(lia)) as S.
  unfold quotientStep in S. apply andb_true_iff in S as [S _]. exact S.
Qed.

(** The larger the side, the smaller its quotient. *)
Lemma quotient_decreasing (n : nat) : forall W,
  (1 <= W)%Z -> (W + Z.of_nat n <= 65535)%Z ->
  (200 / floatOfZ (W + Z.of_nat n) <=? 200 / floatOfZ W)%float = true.
Proof.
  induction n as [|n IH]; intros W H1 H2.
  - rewrite Z.add_0_r. apply leb_refl, quotient_positive. lia.
  - replace (W + Z.of_nat (S n))%Z with (W + Z.of_nat n + 1)%Z by lia.
    apply leb_trans with (y := (200 / floatOfZ (W + Z.of_nat n))%float);
      try (apply quotient_positive; lia).
    + pose proof (@Zseq_forallb _ _ _ quotient_steps (W + Z.of_nat n)%Z ltac:(lia)) as S.
      unfold quotientStep in S. apply andb_true_iff in S as [_ S]. exact S.
    + apply IH; lia.
Qed.

Lemma quotient_monotone W H :
  (1 <= W <= H)%Z -> (H <= 65535)%Z ->
  (200 / floatOfZ H <=? 200 / floatOfZ W)%float = true.
Proof.
  intros A B. replace H with (W + Z.of_nat (Z.to_nat (H - W)))%Z by lia.
  apply quotient_decreasing; lia.
Qed.

(** The ratio of an image is the quotient of its larger side. *)
Lemma ratio_of_larger_side W H :
  (1 <= W <= 65535)%Z -> (1 <= H <= 65535)%Z ->
  Math_min (200 / floatOfZ W) (200 / floatOfZ H)
  = (200 / floatOfZ (Z.max W H))%float.
Proof.
  intros HW HH.
  pose proof (quotient_positive HW) as PW.
  pose proof (quotient_positive HH) as PH.
  pose proof (positiveFinite_not_nan _ PW) as NW.
  pose proof (positiveFinite_not_nan _ PH) as NH.
  destruct (Math_min_least _ _ NW NH) as [LW LH].
  destruct (Z.max_spec W H) as [[O ->]|[O ->]].
  - assert (M : (200 / floatOfZ H <=? 200 / floatOfZ W)%float = true)
      by (apply quotient_monotone; lia).
    destruct (Math_min_cases _ _ NW NH) as [E|E]; [|exact E].
    rewrite E in *. apply leb_antisym; assumption.
  - assert (M : (200 / floatOfZ W <=? 200 / floatOfZ H)%float = true)
      by (apply quotient_monotone; lia).
    destruct (Math_min_cases _ _ NW NH) as [E|E]; [exact E|].
    rewrite E in *. apply leb_antisym; assumption.
Qed.


(** ** The photo *)

Lemma pixels_upscaled :
  forallb (fun W => forallb (upscaled W) (Zrange 1 199)) (Zrange 1 199) = true.
Proof. vm_compute. reflexivity. Qed.

Lemma upscaled_below_200 (W H : Z) :
  (1 <= W < 200)%Z -> (1 <= H < 200)%Z -> upscaled W H = true.
Proof.
  intros HW HH.
  pose proof (@Zrange_forallb _ _ _ pixels_upscaled W ltac:(lia)) as R.
  cbv beta in R.
  apply (@Zrange_forallb _ _ _ R H). lia.
Qed.

(** C6: a photo that was fetched and decoded is drawn at exactly
    [(width * ratio, height * ratio)], right-aligned at
    [612 - 72 - width * ratio], where [ratio] is the minimum of
    [200 / width] and [200 / height]: it is one of the two quotients and
    above neither.  For an image of 1 to 65535 pixels a side it is the
    quotient of the larger side, which is thereby placed at 200, up to one
    rounding step.  Nothing clamps the ratio at 1, so an image of fewer
    than 200 x 200 pixels is drawn larger than it is. *)
Theorem photo_scaled_to_fit env recipe nm id rest buf (w h : float) :
  name recipe = Some nm ->
  photoIds recipe = Some (id :: rest) ->
  downloadImage env (photoUrlOf id) = inr buf ->
  openImage env buf = inr (w, h) ->
  let ratio := Math_min (200 / w) (200 / h) in
  placedSize w h = ((w * ratio)%float, (h * ratio)%float)
  /\ fst (photoBlock env recipe)
     = [(Photo, [Image buf (612 - 72 - w * ratio) (w * ratio) (h * ratio);
                 RestoreY])]
  /\ In (Photo, [Image buf (612 - 72 - w * ratio) (w * ratio) (h * ratio);
                 RestoreY])
        (written (renderRecipe env recipe))
  /\ (PrimFloat.is_nan (200 / w) = false -> PrimFloat.is_nan (200 / h) = false ->
        (ratio <=? 200 / w)%float = true /\ (ratio <=? 200 / h)%float = true
        /\ (ratio = (200 / w)%float \/ ratio = (200 / h)%float))
  /\ (forall W H : Z,
        (1 <= W <= 65535)%Z -> (1 <= H <= 65535)%Z ->
        w = floatOfZ W -> h = floatOfZ H ->
        ratio = (200 / floatOfZ (Z.max W H))%float
        /\ (ratio <=? 200 / w)%float = true /\ (ratio <=? 200 / h)%float = true
        /\ near200 (floatOfZ (Z.max W H) * ratio) = true)
  /\ (forall W H : Z,
        (1 <= W < 200)%Z -> (1 <= H < 200)%Z ->
        w = floatOfZ W -> h = floatOfZ H ->
        (1 <? ratio)%float = true
        /\ (w <? w * ratio)%float = true /\ (h <? h * ratio)%float = true).
Proof.
  intros Hn Hp Hd Ho ratio.
  assert (Hb : fst (photoBlock env recipe)
               = [(Photo, [Image buf (612 - 72 - w * ratio) (w * ratio) (h * ratio);
                           RestoreY])]).
  { unfold photoBlock. rewrite Hp. fold (photoUrlOf id). rewrite Hd, Ho. reflexivity. }
  split; [reflexivity|]. split; [exact Hb|]. split; [|split; [|split]].
  - unfold renderRecipe. rewrite Hn.
    destruct (photoBlock env recipe) as [photo photoLog]. simpl in Hb. subst photo.
    destruct (ingredients recipe); cbn [written]; unfold upperBlocks, titleBlock;
      cbn [app]; right; left; reflexivity.
  - intros NW NH. destruct (Math_min_least _ _ NW NH) as [LW LH].
    split; [exact LW|]. split; [exact LH|]. exact (Math_min_cases _ _ NW NH).
  - intros W H HW HH -> ->.
    pose proof (positiveFinite_not_nan _ (quotient_positive HW)) as NW.
    pose proof (positiveFinite_not_nan _ (quotient_positive HH)) as NH.
    destruct (Math_min_least _ _ NW NH) as [LW LH].
    split; [exact (ratio_of_larger_side HW HH)|].
    split; [exact LW|]. split; [exact LH|].
    unfold ratio. rewrite (ratio_of_larger_side HW HH).
    pose proof (@Zseq_forallb _ _ _ sides_on_box (Z.max W H) ltac:(lia)) as S.
    unfold sideOnBox in S. apply andb_true_iff in S as [_ S]. exact S.
  - intros W H HW HH -> ->.
    pose proof (upscaled_below_200 HW HH) as U.
    unfold upscaled, placedSize, imageRatio, maxWidth, maxHeight in U.
    fold ratio in U.
    apply andb_true_iff in U as [U U3]. apply andb_true_iff in U as [U1 U2].
    auto.
Qed.

(** A portrait of 300 x 400 pixels: the height gives the ratio, one half,
    and the picture is drawn at 150 x 200. *)
Lemma photo_scaled_to_fit_witness :
  fst (photoBlock (portraitEnv []) soupWithPhoto)
  = [(Photo, [Image [255; 216]%N 390 150 200; RestoreY])]
  /\ Math_min (200 / 300) (200 / 400) = (200 / 400)%float.
Proof.
  pose proof (@photo_scaled_to_fit (portraitEnv []) soupWithPhoto (lit "Soup")
                (lit "abc") [] [255; 216]%N 300 400
                eq_refl eq_refl eq_refl eq_refl) as T.
  cbv zeta in T. destruct T as (_ & B & _ & _ & R & _).
  split; [exact B|].
  exact (proj1 (R 300%Z 400%Z ltac:(lia) ltac:(lia) eq_refl eq_refl)).
Defined.

(** ** The two Notes sections *)

(** C2: when [note] and [notes] are both set, the document of a recipe has
    exactly two Notes sections: the early one, whose body is [notes], and
    the late one, whose body is [note]. *)
Theorem two_notes_sections env recipe (a b : jsstring) :
  wellFormed recipe ->
  note recipe = Some a -> notes recipe = Some b -> a <> [] -> b <> [] ->
  let d := written (renderRecipe env recipe) in
  blocksOf NotesEarly d
  = [[FontSize 14; Text (lit "Notes:") NoOptions;
      FontSize 12; Text b NoOptions; MoveDown OneLine]]
  /\ blocksOf NotesLate d
     = [[MoveDown OneLine; FontSize 16; SetFont HelveticaBold;
         Text (lit "Notes:") NoOptions; MoveDown HalfLine;
         FontSize 12; SetFont Helvetica; Text a NoOptions; MoveDown OneLine]]
  /\ map (linesOf []) (blocksOf NotesEarly d ++ blocksOf NotesLate d)
     = [[lit "Notes:"; b]; [lit "Notes:"; a]].
Proof.
  intros WF Ha Hb Na Nb d.
  destruct (blocksOf_written env WF) as (_ & _ & _ & _ & He & _ & _ & Hl & _).
  fold d in He, Hl.
  assert (He' : blocksOf NotesEarly d
                = [[FontSize 14; Text (lit "Notes:") NoOptions;
                    FontSize 12; Text b NoOptions; MoveDown OneLine]]).
  { rewrite He. unfold notesEarlyBlock. rewrite Hb.
    destruct b; [congruence | reflexivity]. }
  assert (Hl' : blocksOf NotesLate d
                = [[MoveDown OneLine; FontSize 16; SetFont HelveticaBold;
                    Text (lit "Notes:") NoOptions; MoveDown HalfLine;
                    FontSize 12; SetFont Helvetica; Text a NoOptions;
                    MoveDown OneLine]]).
  { rewrite Hl. unfold notesLateBlock, noteOrNotes. rewrite Ha, Hb.
    destruct a; [congruence | reflexivity]. }
  rewrite He', Hl'. repeat split.
Qed.

(** The example of the specification: [note] is A and [notes] is B. *)
Lemma two_notes_sections_witness :
  map (linesOf [])
    (blocksOf NotesEarly (written (renderRecipe (fineEnv []) soupWithNotes))
     ++ blocksOf NotesLate (written (renderRecipe (fineEnv []) soupWithNotes)))
  = [[lit "Notes:"; lit "B"]; [lit "Notes:"; lit "A"]].
Proof.
  refine (proj2 (proj2
    (@two_notes_sections (fineEnv []) soupWithNotes (lit "A") (lit "B")
       _ eq_refl eq_refl _ _))).
  - split; discriminate.
  - discriminate.
  - discriminate.
Defined.

(** ** Preparation steps *)

Lemma firstn_snoc {A} (d : A) (l : list A) : forall i,
  i < List.length l -> firstn (S i) l = firstn i l ++ [nth i l d].
Proof.
  induction l as [|a l IH]; intros i Hi; simpl in Hi; [lia|].
  destruct i as [|i]; [reflexivity|].
  change (firstn (S (S i)) (a :: l)) with (a :: firstn (S i) l).
  rewrite IH by lia. reflexivity.
Qed.

Lemma indexedFrom_ge {A} (l : list A) : forall k p,
  In p (indexedFrom k l) -> k <= fst p.
Proof.
  induction l as [|a l IH]; intros k p; simpl; [tauto|].
  intros [<-|H]; [simpl; lia|]. apply IH in H. lia.
Qed.

Lemma preparationLines_indexed (steps : list jsstring) : forall n k,
  preparationLines n steps
  = flat_map
      (fun p => stepOps
                  (n + List.length (filter (fun s => negb (isHeading s))
                                      (firstn (fst p - k) steps)))
                  (snd p))
      (indexedFrom k steps).
Proof.
  induction steps as [|step rest IH]; intros n k; [reflexivity|].
  cbn [preparationLines indexedFrom flat_map fst snd].
  rewrite Nat.sub_diag. cbn [firstn filter List.length].
  rewrite Nat.add_0_r. f_equal.
  rewrite (IH _ (S k)).
  rewrite !flat_map_concat_map. f_equal.
  apply map_ext_in. intros [i s] Hin.
  apply indexedFrom_ge in Hin. cbn [fst snd] in *.
  replace (i - k) with (S (i - S k)) by lia.
  cbn [firstn filter]. fold (isHeading step).
  destruct (isHeading step); cbn [negb List.length]; f_equal; lia.
Qed.

Lemma heading_inv (step : jsstring) :
  isHeading step = true -> exists rest, trim step = hash :: rest.
Proof.
  unfold isHeading, startsWithHash.
  destruct (trim step) as [|c rest]; [discriminate|].
  intros H. apply N.eqb_eq in H. subst c. now exists rest.
Qed.

(** C7: every entry of a non-empty [preparationSteps] is trimmed, that
    is, taken without the white space around it, and nothing else is
    removed.  A trimmed entry that starts with [#] becomes a bold line
    without number: the entry after its [#], trimmed again.  Any other
    entry becomes the bold numeral and dot followed by the trimmed entry
    in regular type, reading [n. entry].  The number starts at 1 and grows
    by one past every entry that is not a heading, and only those. *)
Theorem preparation_steps_numbering env recipe (s : jsstring) (ss : list jsstring) :
  wellFormed recipe ->
  preparationSteps recipe = Some (s :: ss) ->
  let steps := s :: ss in
  blocksOf PreparationSteps (written (renderRecipe env recipe))
  = [[MoveDown OneLine; FontSize 16; SetFont HelveticaBold;
      Text (lit "Preparation Steps:") NoOptions; MoveDown HalfLine]
     ++ flat_map (fun p => stepOps (stepNumberAt steps (fst p)) (snd p))
          (indexedFrom 0 steps)]
  /\ stepNumberAt steps 0 = 1
  /\ (forall i, i < List.length steps ->
        stepNumberAt steps (S i)
        = stepNumberAt steps i + (if isHeading (nth i steps []) then 0 else 1))
  /\ (forall n step, isHeading step = true ->
        stepOps n step
        = [FontSize 12; SetFont HelveticaBold;
           Text (trim (substring1 (trim step))) NoOptions; MoveDown HalfLine]
        /\ linesOf [] (stepOps n step) = [trim (substring1 (trim step))])
  /\ (forall n step, isHeading step = false ->
        stepOps n step
        = [FontSize 12; SetFont HelveticaBold;
           Text (decimal n ++ lit ".") Continued;
           SetFont Helvetica; Text (lit " " ++ trim step) NoOptions;
           MoveDown HalfLine]
        /\ linesOf [] (stepOps n step) = [decimal n ++ lit ". " ++ trim step])
  /\ (forall step t, trimmedTo step t <-> t = trim step)
  /\ (forall step, isHeading step = true
                   <-> exists t rest, trimmedTo step t /\ t = hash :: rest)
  /\ (forall n step t rest, trimmedTo step t -> t = hash :: rest ->
        exists heading,
          trimmedTo rest heading
          /\ stepOps n step
             = [FontSize 12; SetFont HelveticaBold; Text heading NoOptions;
                MoveDown HalfLine]
          /\ linesOf [] (stepOps n step) = [heading])
  /\ (forall n step t, trimmedTo step t -> startsWithHash t = false ->
        stepOps n step
        = [FontSize 12; SetFont HelveticaBold;
           Text (decimal n ++ lit ".") Continued;
           SetFont Helvetica; Text (lit " " ++ t) NoOptions; MoveDown HalfLine]
        /\ linesOf [] (stepOps n step) = [decimal n ++ lit ". " ++ t]).
Proof.
  intros WF Hs steps.
  destruct (blocksOf_written env WF) as (_ & _ & _ & _ & _ & _ & Hp & _).
  assert (Hh : forall n step, isHeading step = true ->
             stepOps n step
             = [FontSize 12; SetFont HelveticaBold;
                Text (trim (substring1 (trim step))) NoOptions; MoveDown HalfLine]
             /\ linesOf [] (stepOps n step) = [trim (substring1 (trim step))]).
  { intros n step H. unfold stepOps. fold (isHeading step). rewrite H.
    split; reflexivity. }
  assert (Hn : forall n step, isHeading step = false ->
             stepOps n step
             = [FontSize 12; SetFont HelveticaBold;
                Text (decimal n ++ lit ".") Continued;
                SetFont Helvetica; Text (lit " " ++ trim step) NoOptions;
                MoveDown HalfLine]
             /\ linesOf [] (stepOps n step) = [decimal n ++ lit ". " ++ trim step]).
  { intros n step H. unfold stepOps. fold (isHeading step). rewrite H.
    split; [reflexivity|].
    cbn [app linesOf]. rewrite <- !app_assoc. reflexivity. }
  split; [|split; [reflexivity|split; [|split; [exact Hh|split; [exact Hn|]]]]].
  - rewrite Hp. unfold preparationBlock. rewrite Hs. fold steps.
    cbn [map snd]. do 2 f_equal.
    rewrite (preparationLines_indexed steps 1 0).
    apply flat_map_ext. intros [i st]. cbn [fst snd].
    rewrite Nat.sub_0_r. reflexivity.
  - clearbody steps. intros i Hi. unfold stepNumberAt.
    rewrite (@firstn_snoc jsstring [] steps i Hi), filter_app, length_app.
    cbn [filter]. destruct (isHeading (nth i steps [])); cbn [negb List.length]; lia.
  - split; [|split; [|split]].
    + intros step t. split.
      * intros T. symmetry. exact (@trimmedTo_unique _ _ T).
      * intros ->. apply trim_trimmedTo.
    + intros step. split.
      * intros H. destruct (@heading_inv _ H) as (rest & E).
        exists (trim step), rest. split; [apply trim_trimmedTo | exact E].
      * intros (t & rest & T & ->). apply trimmedTo_unique in T.
        unfold isHeading. rewrite T. reflexivity.
    + intros n step t rest T ->. apply trimmedTo_unique in T.
      assert (H : isHeading step = true) by (unfold isHeading; rewrite T; reflexivity).
      destruct (Hh n step H) as [O L]. rewrite T in O, L.
      exists (trim rest). split; [apply trim_trimmedTo|]. split; [exact O | exact L].
    + intros n step t T S. apply trimmedTo_unique in T. subst t.
      apply Hn. exact S.
Qed.

(** The example of the specification, a heading and two steps, and the
    same entries with white space around them. *)
Lemma preparation_steps_numbering_witness :
  map (linesOf [])
    (blocksOf PreparationSteps (written (renderRecipe (fineEnv []) soupWithSteps)))
  = [[lit "Preparation Steps:"; lit "Heading"; lit "1. Do X"; lit "2. Do Y"]]
  /\ map (linesOf [])
       (blocksOf PreparationSteps
          (written (renderRecipe (fineEnv []) soupWithSpacedSteps)))
     = [[lit "Preparation Steps:"; lit "Heading"; lit "1. Do X"; lit "Sub";
         lit "2. Do Y"]].
Proof.
  assert (WF : wellFormed soupWithSteps) by (split; discriminate).
  assert (WF' : wellFormed soupWithSpacedSteps) by (split; discriminate).
  split.
  - rewrite (proj1 (@preparation_steps_numbering (fineEnv []) soupWithSteps
                      (lit "# Heading") [lit "Do X"; lit "Do Y"] WF eq_refl)).
    reflexivity.
  - rewrite (proj1 (@preparation_steps_numbering (fineEnv []) soupWithSpacedSteps
                      (lit "  #  Heading ")
                      [[9]%N ++ lit "Do X  "; lit "#Sub" ++ [13; 10]%N;
                       lit " Do Y" ++ [10]%N] WF' eq_refl)).
    reflexivity.
Defined.

(** ** Sections gated on truthiness *)

(** C9: the optional sections test the truthiness of their fields, not
    their presence.  A rating of 0 prints [No rating available]; servings
    of 0 or of the empty string print no Servings section; a [prepTime] or
    [cookTime] of 0 is left out of the time line, which then holds the
    other time alone, or is dropped when both are 0; empty [notes],
    [instructions] and [nutritionalInfo] print no section (the late Notes
    section then depends on [note] alone). *)
Theorem sections_gated_on_truthiness env recipe :
  wellFormed recipe ->
  let h := host env in
  let d := written (renderRecipe env recipe) in
  (rating recipe = Some 0%float ->
     blocksOf Rating d
     = [[FontSize 12; SetFont HelveticaBold; Text (lit "Rating:") Continued;
         SetFont Helvetica; Text (lit " No rating available") NoOptions;
         MoveDown OneLine]])
  /\ (servings recipe = Some (SNum 0) \/ servings recipe = Some (SStr []) ->
      blocksOf Servings d = [])
  /\ (prepTime recipe = Some 0%float ->
      blocksOf Times d
      = match cookTime recipe with
        | Some x =>
            if truthyNum x
            then [[FontSize 12;
                   Text (lit "Cook Time: " ++ numberToString h (x / 60)
                         ++ lit " min") NoOptions;
                   MoveDown OneLine]]
            else []
        | None => []
        end)
  /\ (cookTime recipe = Some 0%float ->
      blocksOf Times d
      = match prepTime recipe with
        | Some x =>
            if truthyNum x
            then [[FontSize 12;
                   Text (lit "Prep Time: " ++ numberToString h (x / 60)
                         ++ lit " min") NoOptions;
                   MoveDown OneLine]]
            else []
        | None => []
        end)
  /\ (notes recipe = Some [] ->
      blocksOf NotesEarly d = []
      /\ (truthy truthyStr (note recipe) = false -> blocksOf NotesLate d = []))
  /\ (instructions recipe = Some [] -> blocksOf Instructions d = [])
  /\ (nutritionalInfo recipe = Some [] -> blocksOf NutritionalInformation d = []).
Proof.
  intros WF h d.
  destruct (blocksOf_written env WF)
    as (_ & Hserv & Hrat & Htimes & Hearly & Hinstr & _ & Hlate & Hnut).
  fold d in Hserv, Hrat, Htimes, Hearly, Hinstr, Hlate, Hnut. fold h in Hserv, Hrat, Htimes.
  repeat split.
  - intros E. rewrite Hrat. unfold ratingBlock. rewrite E. reflexivity.
  - intros [E|E]; rewrite Hserv; unfold servingsBlock; rewrite E; reflexivity.
  - intros Ep. rewrite Htimes. unfold timesBlock, timeEntry.
    rewrite Ep. cbn [truthy].
    change (truthyNum 0) with false. cbn [orb app].
    destruct (cookTime recipe) as [x|]; [|reflexivity].
    cbn [truthy]. destruct (truthyNum x); reflexivity.
  - intros Ec. rewrite Htimes. unfold timesBlock, timeEntry.
    rewrite Ec. cbn [truthy].
    change (truthyNum 0) with false. rewrite orb_false_r, app_nil_r.
    destruct (prepTime recipe) as [x|]; [|reflexivity].
    cbn [truthy]. destruct (truthyNum x); reflexivity.
  - rewrite Hearly. unfold notesEarlyBlock. rewrite H. reflexivity.
  - intros N. rewrite Hlate. unfold notesLateBlock. rewrite H, N. reflexivity.
  - intros E. rewrite Hinstr. unfold instructionsBlock. rewrite E. reflexivity.
  - intros E. rewrite Hnut. unfold nutritionBlock. rewrite E. reflexivity.
Qed.

(** A recipe rated 0, for 0 servings, with no preparation time, ten
    minutes of cooking and empty texts. *)
Lemma sections_gated_on_truthiness_witness :
  map (fun b => (fst b, linesOf [] (snd b)))
    (written (renderRecipe (fineEnv []) soupWithZeros))
  = [(Title, [lit "Soup"]);
     (Created, [lit "Created: November 14, 2023"]);
     (Rating, [lit "Rating: No rating available"]);
     (Times, [lit "Cook Time: 10 min"]);
     (Ingredients, [lit "Ingredients:"]);
     (Finish, [])]
  /\ blocksOf Servings (written (renderRecipe (fineEnv []) soupWithZeros)) = [].
Proof.
  assert (WF : wellFormed soupWithZeros) by (split; discriminate).
  split; [reflexivity|].
  exact (proj1 (proj2 (@sections_gated_on_truthiness (fineEnv []) soupWithZeros WF))
           (or_introl eq_refl)).
Defined.

(** ** The export loop *)

Lemma slice0_nonneg {A} (e : Z) (a : list A) :
  (0 <= e)%Z -> slice0 e a = firstn (Z.to_nat e) a.
Proof.
  intros H. unfold slice0.
  destruct (e <? 0)%Z eqn:E; [apply Z.ltb_lt in E; lia|].
  destruct (Z.min_spec e (Z.of_nat (List.length a))) as [[L ->]|[L ->]];
    [reflexivity|].
  rewrite Nat2Z.id, firstn_all. symmetry. apply firstn_all2. lia.
Qed.

Lemma slice0_neg {A} (e : Z) (a : list A) :
  (e < 0)%Z -> slice0 e a = firstn (List.length a - Z.to_nat (- e)) a.
Proof.
  intros H. unfold slice0.
  destruct (e <? 0)%Z eqn:E; [|apply Z.ltb_ge in E; lia].
  f_equal. lia.
Qed.

(** What one settled render leaves in the state, by the way it settled. *)
Lemma renderRecipe_resolved env recipe :
  settlement (renderRecipe env recipe) = Resolved ->
  exists p, outputFile (renderRecipe env recipe) = Some p
            /\ streamError env p = None.
Proof.
  unfold renderRecipe.
  destruct (name recipe) as [nm|]; [|discriminate].
  destruct (photoBlock env recipe) as [photo photoLog].
  destruct (ingredients recipe) as [l|]; [|discriminate].
  cbn [settlement outputFile].
  destruct (streamError env _) eqn:E; [discriminate|].
  intros _. eexists. split; [reflexivity | exact E].
Qed.

Lemma renderRecipe_rejected env recipe e :
  settlement (renderRecipe env recipe) = Rejected e ->
  exists p, outputFile (renderRecipe env recipe) = Some p
            /\ streamError env p = Some e.
Proof.
  unfold renderRecipe.
  destruct (name recipe) as [nm|]; [|discriminate].
  destruct (photoBlock env recipe) as [photo photoLog].
  destruct (ingredients recipe) as [l|]; [|discriminate].
  cbn [settlement outputFile].
  destruct (streamError env _) eqn:E; [|discriminate].
  intros [= ->]. eexists. split; [reflexivity | exact E].
Qed.

(** The render is left pending exactly when a field the body calls a
    method on is missing. *)
Lemma renderRecipe_pending env recipe :
  (exists e, settlement (renderRecipe env recipe) = NeverSettled e)
  <-> ~ wellFormed recipe.
Proof.
  unfold renderRecipe, wellFormed.
  destruct (name recipe) as [nm|].
  - destruct (photoBlock env recipe) as [photo photoLog].
    destruct (ingredients recipe) as [l|]; cbn [settlement].
    + split.
      * intros [e H]. destruct (streamError env _); discriminate.
      * intros H. exfalso. apply H. split; discriminate.
    + split; [intros _ [_ H]; now apply H | intros _; now eexists].
  - split; [intros _ [H _]; now apply H | intros _; now eexists].
Qed.

Lemma iteration_started env st recipe :
  started (fst (iteration env st recipe)) = started st ++ [recipe].
Proof.
  unfold iteration. destruct (settlement (renderRecipe env recipe)); reflexivity.
Qed.

(** The loop starts the renders in order, and stops at the first one that
    never settles. *)
Lemma processRecipes_started env (l : list Recipe) : forall st,
  match processRecipes env st l with
  | (st', LoopDone) => started st' = started st ++ l
  | (st', LoopStuck recipe e) =>
      exists pre post, l = pre ++ recipe :: post
                       /\ started st' = started st ++ pre ++ [recipe]
  end.
Proof.
  induction l as [|recipe rest IH]; intros st; cbn [processRecipes].
  - now rewrite app_nil_r.
  - pose proof (iteration_started env st recipe) as S.
    destruct (iteration env st recipe) as [st1 [e|]]; cbn [fst] in S.
    + exists [], rest. split; [reflexivity | exact S].
    + specialize (IH st1).
      destruct (processRecipes env st1 rest) as [st' [|r e]].
      * rewrite IH, S, <- app_assoc. reflexivity.
      * destruct IH as (pre & post & -> & IH).
        exists (recipe :: pre), post. split; [reflexivity|].
        rewrite IH, S, <- app_assoc. reflexivity.
Qed.

(** With no failing stream, every render the loop gets past leaves a
    document. *)
Lemma processRecipes_finished env (l : list Recipe) : forall st st',
  (forall p, streamError env p = None) ->
  processRecipes env st l = (st', LoopDone) ->
  List.length (finished st') = List.length (finished st) + List.length l.
Proof.
  induction l as [|recipe rest IH]; intros st st' NoErr; cbn [processRecipes].
  - intros [= <-]. cbn [List.length]. lia.
  - unfold iteration.
    destruct (settlement (renderRecipe env recipe)) as [|e|e] eqn:E.
    + destruct (renderRecipe_resolved env recipe E) as (p & -> & _).
      intros H. apply IH in H; [|exact NoErr].
      cbn [finished optList map] in H. rewrite length_app in H.
      cbn [List.length] in *. lia.
    + destruct (renderRecipe_rejected env recipe E) as (p & _ & Q).
      rewrite NoErr in Q. discriminate.
    + discriminate.
Qed.

(** The run, once the recipes are retrieved and the archive is written. *)
Lemma downloadRecipesWith_unfold cfg env recipes :
  loginError env = None -> recipesResult env = inr recipes ->
  writeArchive env (dirExists env) = None ->
  downloadRecipesWith cfg env
  = let log0 := [Log (lit "Saved all recipes to all-recipes.json")] in
    if generatePDF cfg
    then
      let '(st, fin) :=
        processRecipes env (emptyLoop log0)
          (recipesToProcess (maxPDFsToGenerate cfg) recipes) in
      finishRun recipes [WriteFile archivePath; Mkdir outputDir] true st fin
    else
      finishRun recipes [WriteFile archivePath] (dirExists env)
        (emptyLoop log0) LoopDone.
Proof.
  intros L R W. unfold downloadRecipesWith. rewrite L, R, W. reflexivity.
Qed.

Lemma finishRun_exited recipes calls dir st fin :
  status (finishRun recipes calls dir st fin) = Exited ->
  fin = LoopDone.
Proof. destruct fin; [reflexivity | discriminate]. Qed.

(** A run that exits has logged in, retrieved the recipes and written the
    archive. *)
Lemma exited_inv cfg env :
  status (downloadRecipesWith cfg env) = Exited ->
  loginError env = None /\ writeArchive env (dirExists env) = None
  /\ exists recipes, recipesResult env = inr recipes.
Proof.
  unfold downloadRecipesWith.
  destruct (loginError env); [discriminate|].
  destruct (recipesResult env) as [e|recipes]; [discriminate|].
  destruct (writeArchive env (dirExists env)); [discriminate|].
  intros _. repeat split. now exists recipes.
Qed.

(** A run that exits with rendering enabled has started the render of the
    selected recipes, in order. *)
Lemma rendered_selected cfg env recipes :
  recipesResult env = inr recipes ->
  generatePDF cfg = true ->
  status (downloadRecipesWith cfg env) = Exited ->
  rendered (downloadRecipesWith cfg env)
  = recipesToProcess (maxPDFsToGenerate cfg) recipes.
Proof.
  intros R G E.
  destruct (exited_inv cfg env E) as (L & W & _).
  rewrite (downloadRecipesWith_unfold cfg env L R W) in E |- *.
  rewrite G in *. cbv zeta in *.
  pose proof (processRecipes_started env
                (recipesToProcess (maxPDFsToGenerate cfg) recipes)
                (emptyLoop [Log (lit "Saved all recipes to all-recipes.json")])) as S.
  destruct (processRecipes env _ (recipesToProcess (maxPDFsToGenerate cfg) recipes))
    as [st fin].
  apply finishRun_exited in E. subst fin. exact S.
Qed.

(** What a run that exits leaves behind. *)
Lemma exited_run cfg env recipes :
  recipesResult env = inr recipes ->
  status (downloadRecipesWith cfg env) = Exited ->
  archive (downloadRecipesWith cfg env) = Some recipes
  /\ exists log, output (downloadRecipesWith cfg env) = log ++ [summaryLine recipes].
Proof.
  intros R E.
  destruct (exited_inv cfg env E) as (L & W & _).
  rewrite (downloadRecipesWith_unfold cfg env L R W) in E |- *.
  cbv zeta in *.
  destruct (generatePDF cfg).
  - destruct (processRecipes env _ _) as [st fin].
    apply finishRun_exited in E. subst fin.
    split; [reflexivity | now eexists].
  - split; [reflexivity | now eexists].
Qed.

(** With no failing stream, a run that exits leaves one document for
    every selected recipe. *)
Lemma exited_documents cfg env recipes :
  recipesResult env = inr recipes ->
  generatePDF cfg = true ->
  (forall p, streamError env p = None) ->
  status (downloadRecipesWith cfg env) = Exited ->
  List.length (documents (downloadRecipesWith cfg env))
  = List.length (recipesToProcess (maxPDFsToGenerate cfg) recipes).
Proof.
  intros R G NoErr E.
  destruct (exited_inv cfg env E) as (L & W & _).
  rewrite (downloadRecipesWith_unfold cfg env L R W) in E |- *.
  rewrite G in *. cbv zeta in *.
  destruct (processRecipes env _ _) as [st fin] eqn:P.
  apply finishRun_exited in E. subst fin.
  apply (@processRecipes_finished env _ _ _ NoErr) in P. exact P.
Qed.

(** The file-system calls of any run: nothing, or the write of the
    archive first; the directory is made only after that write has
    succeeded, only when rendering is enabled, and before any stream is
    opened. *)
Lemma fsCalls_order cfg env :
  let run := downloadRecipesWith cfg env in
  fsCalls run = []
  \/ fsCalls run = [WriteFile archivePath]
  \/ (generatePDF cfg = true
      /\ writeArchive env (dirExists env) = None
      /\ exists paths,
           fsCalls run
           = WriteFile archivePath :: Mkdir outputDir
             :: map CreateWriteStream paths).
Proof.
  cbv zeta. unfold downloadRecipesWith.
  destruct (loginError env); [now left|].
  destruct (recipesResult env) as [e|recipes]; [now left|].
  destruct (writeArchive env (dirExists env)) eqn:W; [right; now left|].
  destruct (generatePDF cfg).
  - destruct (processRecipes env _ _) as [st fin].
    right; right. repeat split. exists (opened st).
    destruct fin; reflexivity.
  - right; left. reflexivity.
Qed.

(** ** Which recipes are rendered *)

(** C3, as the code has it: a run that exits has started the render of
    exactly the selected recipes, in order; the selection is the first
    [max] recipes (all of them when there are fewer, none when [max] is 0)
    for a limit [max] that is not negative, every recipe for the limit -1,
    and all but the last [-max] recipes for a limit below -1. *)
Theorem limit_selects_recipes cfg env recipes :
  recipesResult env = inr recipes ->
  generatePDF cfg = true ->
  status (downloadRecipesWith cfg env) = Exited ->
  let max := maxPDFsToGenerate cfg in
  rendered (downloadRecipesWith cfg env) = recipesToProcess max recipes
  /\ ((0 <= max)%Z -> recipesToProcess max recipes = firstn (Z.to_nat max) recipes)
  /\ (max = (-1)%Z -> recipesToProcess max recipes = recipes)
  /\ ((max < -1)%Z ->
      recipesToProcess max recipes
      = firstn (List.length recipes - Z.to_nat (- max)) recipes).
Proof.
  intros R G E max.
  split; [|split; [|split]].
  - apply rendered_selected; assumption.
  - intros H. unfold recipesToProcess.
    destruct (max =? -1)%Z eqn:Q; [apply Z.eqb_eq in Q; lia|].
    apply slice0_nonneg, H.
  - intros ->. reflexivity.
  - intros H. unfold recipesToProcess.
    destruct (max =? -1)%Z eqn:Q; [apply Z.eqb_eq in Q; lia|].
    apply slice0_neg. lia.
Qed.

(** Three recipes under a limit of 2. *)
Lemma limit_selects_recipes_witness :
  rendered (downloadRecipesWith (limitOf 2) (fineEnv [soup; bread; salad]))
  = [soup; bread].
Proof.
  exact (proj1 (@limit_selects_recipes (limitOf 2) (fineEnv [soup; bread; salad])
                  [soup; bread; salad] eq_refl eq_refl eq_refl)).
Defined.

(** C3 as stated fails: under the limit 0, which is not positive, no
    recipe is rendered, and under the limit -2 only the first of three. *)
Lemma limit_zero_renders_nothing :
  rendered (downloadRecipesWith (limitOf 0) (fineEnv [soup; bread; salad])) = []
  /\ status (downloadRecipesWith (limitOf 0) (fineEnv [soup; bread; salad])) = Exited
  /\ rendered (downloadRecipesWith (limitOf (-2)) (fineEnv [soup; bread; salad]))
     = [soup].
Proof. repeat split. Qed.

(** ** The summary *)

(** C4: the summary a run logs before it exits counts the recipes
    retrieved, whatever the limit, and the archive holds all of them; the
    renders started are the selected ones, and each leaves a document when
    no stream fails: with three recipes and a limit of 2, two documents,
    an archive of three records and a summary of 3. *)
Theorem summary_counts_all_recipes cfg env recipes :
  recipesResult env = inr recipes ->
  status (downloadRecipesWith cfg env) = Exited ->
  let run := downloadRecipesWith cfg env in
  last (output run) (Log [])
  = Log (lit "Finished processing " ++ decimal (List.length recipes)
         ++ lit " recipes")
  /\ archive run = Some recipes
  /\ (generatePDF cfg = true ->
      (forall p, streamError env p = None) ->
      List.length (documents run)
      = List.length (recipesToProcess (maxPDFsToGenerate cfg) recipes))
  /\ (generatePDF cfg = true -> maxPDFsToGenerate cfg = 2%Z ->
      (forall p, streamError env p = None) ->
      forall r1 r2 r3, recipes = [r1; r2; r3] ->
      rendered run = [r1; r2] /\ List.length (documents run) = 2
      /\ archive run = Some [r1; r2; r3]
      /\ last (output run) (Log []) = Log (lit "Finished processing 3 recipes")).
Proof.
  intros R E run.
  destruct (@exited_run cfg env recipes R E) as (Harch & log & Hout). fold run in Harch, Hout.
  assert (Hsum : last (output run) (Log []) = summaryLine recipes)
    by (rewrite Hout; apply last_last).
  pose proof (@exited_documents cfg env recipes R) as Hdocs. fold run in Hdocs.
  split; [exact Hsum|]. split; [exact Harch|].
  split; [intros G NoErr; exact (Hdocs G NoErr E)|].
  intros G M NoErr r1 r2 r3 ->.
  pose proof (@rendered_selected cfg env _ R G E) as Hr.
  fold run in Hr. rewrite Hr, (Hdocs G NoErr E), M, Hsum, Harch.
  repeat split.
Qed.

(** The example of the specification. *)
Lemma summary_counts_all_recipes_witness :
  map fst (documents (downloadRecipesWith (limitOf 2) (fineEnv [soup; bread; salad])))
  = [lit "recipe-pdfs/11-14-2023 - Soup.pdf";
     lit "recipe-pdfs/11-15-2023 - Bread.pdf"]
  /\ archive (downloadRecipesWith (limitOf 2) (fineEnv [soup; bread; salad]))
     = Some [soup; bread; salad]
  /\ last (output (downloadRecipesWith (limitOf 2) (fineEnv [soup; bread; salad])))
       (Log [])
     = Log (lit "Finished processing 3 recipes").
Proof.
  split; [reflexivity|].
  pose proof (@summary_counts_all_recipes (limitOf 2)
                (fineEnv [soup; bread; salad]) [soup; bread; salad]
                eq_refl eq_refl) as H.
  cbv zeta in H. destruct H as (_ & _ & _ & H).
  destruct (H eq_refl eq_refl (fun _ => eq_refl) soup bread salad eq_refl)
    as (_ & _ & Ha & Hs).
  split; [exact Ha | exact Hs].
Defined.

(** ** The archive and the output directory *)

(** C10: the archive is written into [recipe-pdfs] before anything
    creates that directory: [mkdir] is called only after the write has
    succeeded, and only when rendering is enabled.  A run that starts
    without the directory therefore fails: no archive, no directory, no
    render started, no document; once logged in and with the recipes
    retrieved, the one file-system call made is the write, and it fails
    for the missing directory. *)
Theorem archive_needs_directory cfg env :
  let run := downloadRecipesWith cfg env in
  (fsCalls run = []
   \/ fsCalls run = [WriteFile archivePath]
   \/ (generatePDF cfg = true
       /\ writeArchive env (dirExists env) = None
       /\ exists paths,
            fsCalls run
            = WriteFile archivePath :: Mkdir outputDir
              :: map CreateWriteStream paths))
  /\ (dirExists env = false ->
      (exists e, status run = Failed e)
      /\ archive run = None /\ rendered run = [] /\ documents run = []
      /\ directory run = false
      /\ ~ In (Mkdir outputDir) (fsCalls run)
      /\ (loginError env = None ->
          forall recipes, recipesResult env = inr recipes ->
          writeArchive env (dirExists env) = Some ENOENT
          /\ fsCalls run = [WriteFile archivePath]
          /\ status run = Failed ENOENT /\ output run = [LogUncaught ENOENT])).
Proof.
  intros run. split; [apply fsCalls_order|].
  intros D. subst run. unfold downloadRecipesWith, writeArchive. rewrite D.
  destruct (loginError env) as [e|].
  - repeat split; try discriminate; try exact D; [now exists e | intros []].
  - destruct (recipesResult env) as [e|recipes].
    + repeat split; try discriminate; try exact D; [now exists e | intros []].
    + repeat split; try exact D; [now exists ENOENT|].
      intros [H|[]]. discriminate H.
Qed.

(** A first run on a fresh checkout. *)
Lemma archive_needs_directory_witness :
  status (downloadRecipes (freshEnv [soup; bread])) = Failed ENOENT
  /\ fsCalls (downloadRecipes (freshEnv [soup; bread])) = [WriteFile archivePath]
  /\ documents (downloadRecipes (freshEnv [soup; bread])) = [].
Proof.
  pose proof (@archive_needs_directory scriptConfig (freshEnv [soup; bread])) as H.
  cbv zeta in H. destruct H as (_ & H). specialize (H eq_refl).
  destruct H as (_ & _ & _ & Hd & _ & _ & H).
  destruct (H eq_refl _ eq_refl) as (_ & Hc & Hs & _).
  split; [exact Hs|]. split; [exact Hc | exact Hd].
Defined.

(** ** Failures while rendering one recipe *)

(** A failed fetch or decode of the photo is logged with the name of the
    recipe and leaves the rest of the document as it would have been. *)
Lemma photo_failure_is_contained env recipe nm l id rest :
  name recipe = Some nm -> ingredients recipe = Some l ->
  photoIds recipe = Some (id :: rest) ->
  (exists e, downloadImage env (photoUrlOf id) = inl e)
  \/ (exists buf e, downloadImage env (photoUrlOf id) = inr buf
                    /\ openImage env buf = inl e) ->
  exists e,
    photoBlock env recipe = ([], [failedPhoto recipe e])
    /\ written (renderRecipe env recipe)
       = upperBlocks (host env) recipe nm []
         ++ [(Ingredients, ingredientsHeading ++ ingredientLines l)]
         ++ lowerBlocks recipe ++ [(Finish, [End])]
    /\ renderLog (renderRecipe env recipe)
       = [failedPhoto recipe e; Log (lit "Created PDF for: " ++ nm)].
Proof.
  intros Hn Hi Hp H.
  assert (exists e, photoBlock env recipe = ([], [failedPhoto recipe e])) as [e P].
  { unfold photoBlock. rewrite Hp. fold (photoUrlOf id).
    destruct H as [[e ->]|(buf & e & -> & ->)]; now exists e. }
  exists e. split; [exact P|].
  unfold renderRecipe. rewrite Hn, Hi, P. split; reflexivity.
Qed.

(** An error of the output stream rejects the promise: the [catch] of the
    loop logs it with the name of the recipe, and the loop goes on. *)
Lemma stream_error_is_contained env st recipe e :
  settlement (renderRecipe env recipe) = Rejected e ->
  snd (iteration env st recipe) = None
  /\ console (fst (iteration env st recipe))
     = console st ++ renderLog (renderRecipe env recipe) ++ [failedPdf recipe e].
Proof.
  intros H. unfold iteration. rewrite H. cbn [fst snd console].
  now rewrite app_assoc.
Qed.

(** An exception in the body reaches neither [resolve] nor [reject]: the
    loop stops there, and nothing is logged for the recipe. *)
Lemma processRecipes_stuck env st recipe rest :
  ~ wellFormed recipe ->
  exists e,
    processRecipes env st (recipe :: rest)
    = ({| finished := finished st; started := started st ++ [recipe];
          opened := opened st ++ optList (outputFile (renderRecipe env recipe));
          console := console st ++ renderLog (renderRecipe env recipe) |},
       LoopStuck recipe e).
Proof.
  intros H. apply (renderRecipe_pending env) in H as [e H].
  exists e. cbn [processRecipes]. unfold iteration. rewrite H. reflexivity.
Qed.

(** C1 on a batch whose first record lacks its [ingredients]: the
    [TypeError] raised in the body is not caught by the [catch] of the
    loop; the run halts on that recipe, logs no failure for it, never
    reaches the next recipe, and prints no summary. *)
Theorem malformed_recipe_halts_batch :
  let run := downloadRecipesWith (limitOf (-1)) (fineEnv [broken; bread]) in
  status run = Stuck broken TypeError
  /\ rendered run = [broken]
  /\ documents run = []
  /\ existsb isFailedPdf (output run) = false
  /\ output run = [Log (lit "Saved all recipes to all-recipes.json")]
  /\ fsCalls run
     = [WriteFile archivePath; Mkdir outputDir;
        CreateWriteStream (lit "recipe-pdfs/11-14-2023 - Broken.pdf")].
Proof. repeat split. Qed.

(* ================================================================= *)
(** * Further properties of the script *)

(** ** [sanitizeFilename]: what is removed and what is kept *)

(** X1: [sanitizeFilename] removes nothing but white space around the name:
    the name with its reserved characters replaced is the result between
    two runs of white space; the result neither starts nor ends with
    white space and is no longer than the name; and a name without
    reserved characters and without white space around it is returned as
    it is. *)
Theorem sanitizeFilename_only_trims (x : jsstring) :
  (exists a b, replaceReserved x = a ++ sanitizeFilename x ++ b
               /\ allWhite a /\ allWhite b)
  /\ headKept (sanitizeFilename x) /\ lastKept (sanitizeFilename x)
  /\ List.length (sanitizeFilename x) <= List.length x
  /\ (clean x -> headKept x -> lastKept x -> sanitizeFilename x = x).
Proof.
  unfold sanitizeFilename, trim.
  destruct (trimStart_split (replaceReserved x)) as (a & Ea & Wa).
  destruct (trimEnd_split (trimStart (replaceReserved x))) as (b & Eb & Wb).
  split; [|split; [|split; [|split]]].
  - exists a, b. split; [|split; assumption].
    rewrite Ea at 1. rewrite Eb at 1. reflexivity.
  - apply trimEnd_headKept, trimStart_headKept.
  - apply trimEnd_lastKept.
  - rewrite <- (replaceReserved_length x).
    etransitivity; [apply trimEnd_length|].
    rewrite Ea at 2. rewrite length_app. lia.
  - intros C H L. rewrite (replaceReserved_fixed C).
    rewrite (trimStart_fixed _ H). apply trimEnd_fixed, L.
Qed.

(** A name that is already a file name. *)
Lemma sanitizeFilename_only_trims_witness :
  sanitizeFilename (lit "Pea soup (v2)") = lit "Pea soup (v2)".
Proof.
  refine (proj2 (proj2 (proj2 (proj2
            (sanitizeFilename_only_trims (lit "Pea soup (v2)"))))) _ _ _).
  - repeat constructor.
  - reflexivity.
  - reflexivity.
Defined.

(** ** [downloadImage] *)

(** X2: [downloadImage] resolves exactly when the response has status 200,
    and then with the body received; any other status rejects with an error
    whose message ends in the decimal status code, and an error of the
    request or of the response rejects with that error. *)
Theorem downloadImage_resolves_iff_200 (env : Env) (url : jsstring) :
  (forall body, downloadImage env url = inr body
                <-> httpsGet env url = Response 200 body)
  /\ (forall e, downloadImage env url = inl e
                <-> httpsGet env url = RequestError e
                    \/ exists code body,
                         httpsGet env url = Response code body /\ code <> 200
                         /\ e = ErrorMsg (lit "Failed to download image: "
                                          ++ decimal code)
                         /\ numeralValue (decimal code) = N.of_nat code).
Proof.
  unfold downloadImage. split.
  - intros body. destruct (httpsGet env url) as [code b|e].
    + destruct (Nat.eqb_spec code 200) as [->|N].
      * split; intros [= ->]; reflexivity.
      * split; [discriminate | intros [= E _]; contradiction].
    + split; discriminate.
  - intros e. destruct (httpsGet env url) as [code b|e'].
    + destruct (Nat.eqb_spec code 200) as [->|N].
      * split; [discriminate|].
        intros [H|(c & b' & [= <- _] & N & _)]; [discriminate H | contradiction].
      * split.
        -- intros [= <-]. right. exists code, b. repeat split; [exact N|].
           apply decimalN_spec.
        -- intros [H|(c & b' & [= <- _] & _ & -> & _)]; [discriminate H | reflexivity].
    + split.
      * intros [= ->]. now left.
      * intros [[= ->]|(c & b' & H & _)]; [reflexivity | discriminate H].
Qed.

(** ** The file a recipe is written to *)

Lemma digit_not_reserved c : isDigit c = true -> isReserved c = false.
Proof.
  unfold isDigit, isReserved, reservedChars. intros H.
  apply andb_true_iff in H as [L U].
  apply N.leb_le in L. apply N.leb_le in U.
  cbn [existsb].
  repeat match goal with
         | |- context [(c =? ?k)%N] =>
             replace (c =? k)%N with false by (symmetry; apply N.eqb_neq; lia)
         end.
  reflexivity.
Qed.

Lemma digits_clean s : forallb isDigit s = true -> clean s.
Proof.
  unfold clean. rewrite forallb_forall, Forall_forall.
  intros H c I. apply digit_not_reserved, H, I.
Qed.

Lemma clean_app a b : clean a -> clean b -> clean (a ++ b).
Proof. unfold clean. intros A B. apply Forall_app. now split. Qed.

(** The date token holds no reserved character. *)
Lemma fileName_clean h timestamp : clean (fileName (formatDate h timestamp)).
Proof.
  unfold formatDate. cbn [fileName].
  destruct (yearBefore2000 h _); [constructor|].
  unfold toLocaleDateString_2digit.
  destruct (newDate _) as [t|]; [|repeat constructor].
  destruct (localDate h t) as [[y m] d].
  rewrite slashes_date.
  repeat apply clean_app; try (repeat constructor; fail);
    apply digits_clean; try apply pad2_digits; apply decimalN_spec.
Qed.

Lemma clean_count (s : jsstring) (c : CodeUnit) :
  clean s -> isReserved c = true -> count_occ cu_eq_dec s c = 0.
Proof.
  intros C R. apply count_occ_not_In. intros I.
  unfold clean in C. rewrite Forall_forall in C. specialize (C _ I). congruence.
Qed.

(** X3: whatever the name and the date of a recipe, its file lies directly in
    [recipe-pdfs]: the path is the directory, one slash, a file name
    without any reserved character, and [.pdf]; it holds exactly one slash
    and no backslash. *)
Theorem output_path_in_directory (h : Host) (recipe : Recipe) (nm : jsstring) :
  exists f,
    outputPathOf h recipe nm = outputDir ++ lit "/" ++ f ++ lit ".pdf"
    /\ clean f
    /\ count_occ cu_eq_dec (outputPathOf h recipe nm) 47%N = 1
    /\ count_occ cu_eq_dec (outputPathOf h recipe nm) 92%N = 0.
Proof.
  unfold outputPathOf, pathJoin. cbv zeta.
  set (f := (if truthyStr (fileName (formatDate h (creationTimestamp recipe)))
             then fileName (formatDate h (creationTimestamp recipe)) ++ lit " - "
             else []) ++ sanitizeFilename nm).
  assert (C : clean f).
  { subst f. apply clean_app; [|apply sanitizeFilename_clean].
    destruct (truthyStr _); [|constructor].
    apply clean_app; [apply fileName_clean | repeat constructor]. }
  exists f. split; [reflexivity|]. split; [exact C|].
  rewrite !count_occ_app.
  rewrite (@clean_count f 47%N C eq_refl), (@clean_count f 92%N C eq_refl).
  split; reflexivity.
Qed.

(** ** The unknown date *)

Lemma month_initials : forallb monthInitial (Zrange 1 12) = true.
Proof. vm_compute. reflexivity. Qed.

Lemma app_cons_not_nil {A} (a b : list A) : a <> [] -> a ++ b <> [].
Proof. destruct a; [congruence | discriminate]. Qed.

(** X4: the date of a recipe is unknown in all three places at once: the
    file token is empty exactly when the displayed text is [Unknown],
    exactly when the local year is below 2000, and that is exactly when
    the Created line sets its value in the oblique font. *)
Theorem unknown_date_is_consistent (h : Host) (recipe : Recipe) :
  let dateStr := formatDate h (creationTimestamp recipe) in
  let old := yearBefore2000 h (newDate (creationTimestamp recipe * 1000)%float) in
  (fileName dateStr = [] <-> old = true)
  /\ (display dateStr = lit "Unknown" <-> old = true)
  /\ createdBlock h recipe
     = [(Created,
         [FontSize 12; SetFont HelveticaBold; Text (lit "Created:") Continued;
          SetFont (createdFont h recipe);
          Text (lit " " ++ display dateStr) AlignLeft; MoveDown OneLine])]
  /\ (createdFont h recipe = HelveticaOblique
      <-> display dateStr = lit "Unknown").
Proof.
  intros dateStr old.
  assert (F : fileName dateStr = [] <-> old = true).
  { subst dateStr old. unfold formatDate. cbn [fileName].
    destruct (yearBefore2000 h _) eqn:Y; [tauto|].
    split; [|discriminate]. intros E. exfalso. revert E.
    unfold toLocaleDateString_2digit.
    destruct (newDate _) as [t|]; [|discriminate].
    pose proof (civilFromDays_range (Day (t + localOffsetMs h t))) as R.
    unfold localDate.
    destruct (civilFromDays _) as [[y m] d]. destruct R as [Rm _].
    rewrite slashes_date. apply app_cons_not_nil.
    pose proof (@Zrange_forallb _ _ _ month_shapes m ltac:(lia)) as S.
    unfold monthShape in S. apply andb_true_iff in S as [S _].
    apply Nat.eqb_eq in S. intros E. rewrite E in S. discriminate S. }
  assert (D : display dateStr = lit "Unknown" <-> old = true).
  { subst dateStr old. unfold formatDate. cbn [display].
    destruct (yearBefore2000 h _) eqn:Y; [tauto|].
    split; [|discriminate]. intros E. exfalso. revert E.
    unfold toLocaleDateString_long.
    destruct (newDate _) as [t|]; [|discriminate].
    pose proof (civilFromDays_range (Day (t + localOffsetMs h t))) as R.
    unfold localDate.
    destruct (civilFromDays _) as [[y m] d]. destruct R as [Rm _].
    pose proof (@Zrange_forallb _ _ _ month_initials m ltac:(lia)) as S.
    unfold monthInitial in S.
    destruct (monthName m) as [|c cs]; [discriminate S|].
    cbn [app]. intros [= E _]. subst c. discriminate S. }
  split; [exact F|]. split; [exact D|]. split; [reflexivity|].
  rewrite D. unfold createdFont. fold old.
  destruct old; split; congruence.
Qed.

(** ** Which sections a document has *)

Lemma when_app {A} (c : bool) (x : A) (l : list A) :
  (if c then [x] else []) ++ l = if c then x :: l else l.
Proof. now destruct c. Qed.

Lemma when_tags c s ops : map fst (when c s ops) = if c then [s] else [].
Proof. now destruct c. Qed.

Lemma photoBlock_tags env recipe :
  map fst (fst (photoBlock env recipe))
  = if photoAvailable env recipe then [Photo] else [].
Proof.
  unfold photoBlock, photoAvailable.
  destruct (photoIds recipe) as [[|id rest]|]; try reflexivity.
  destruct (downloadImage env (photoUrlOf id)) as [e|buf]; [reflexivity|].
  destruct (openImage env buf) as [e|[w h]]; [reflexivity|].
  unfold placedSize. reflexivity.
Qed.

Lemma servingsBlock_tags h recipe :
  map fst (servingsBlock h recipe)
  = if truthy truthyScalar (servings recipe) then [Servings] else [].
Proof.
  unfold servingsBlock. destruct (servings recipe); [apply when_tags | reflexivity].
Qed.

Lemma categoriesBlock_tags recipe :
  map fst (categoriesBlock recipe)
  = if nonEmpty (categories recipe) then [Categories] else [].
Proof. unfold categoriesBlock. now destruct (categories recipe) as [[|c cs]|]. Qed.

Lemma notesEarlyBlock_tags recipe :
  map fst (notesEarlyBlock recipe)
  = if truthy truthyStr (notes recipe) then [NotesEarly] else [].
Proof.
  unfold notesEarlyBlock. destruct (notes recipe); [apply when_tags | reflexivity].
Qed.

Lemma instructionsBlock_tags recipe :
  map fst (instructionsBlock recipe)
  = if truthy truthyStr (instructions recipe) then [Instructions] else [].
Proof.
  unfold instructionsBlock.
  destruct (instructions recipe); [apply when_tags | reflexivity].
Qed.

Lemma preparationBlock_tags recipe :
  map fst (preparationBlock recipe)
  = if nonEmpty (preparationSteps recipe) then [PreparationSteps] else [].
Proof.
  unfold preparationBlock. now destruct (preparationSteps recipe) as [[|s ss]|].
Qed.

Lemma nutritionBlock_tags recipe :
  map fst (nutritionBlock recipe)
  = if truthy truthyStr (nutritionalInfo recipe)
    then [NutritionalInformation] else [].
Proof.
  unfold nutritionBlock.
  destruct (nutritionalInfo recipe); [apply when_tags | reflexivity].
Qed.

(** X5: the document of a recipe consists of exactly the sections whose
    condition holds, each once, in the order of the source: the title, the
    creation date, the rating and the ingredients always, the others when
    their field is truthy (the photo when it was fetched and decoded); it
    starts with the name as title and its last call is [doc.end()]. *)
Theorem sections_follow_policy env recipe :
  wellFormed recipe ->
  let d := written (renderRecipe env recipe) in
  map fst d = filter (included env recipe) sectionOrder
  /\ hd (Finish, []) d
     = (Title, [FontSize 24; SetFont HelveticaBold;
                Text (nameText recipe) AlignCenter; MoveDown OneLine])
  /\ last d (Title, []) = (Finish, [End])
  /\ NoDup (map fst d).
Proof.
  intros [Hn Hi] d. subst d.
  destruct (name recipe) as [nm|] eqn:En; [|congruence].
  destruct (ingredients recipe) as [l|] eqn:Ei; [|congruence].
  rewrite (written_wellFormed env recipe En Ei).
  assert (T : map fst
                (upperBlocks (host env) recipe nm (fst (photoBlock env recipe))
                 ++ [(Ingredients, ingredientsHeading ++ ingredientLines l)]
                 ++ lowerBlocks recipe ++ [(Finish, [End])])
              = filter (included env recipe) sectionOrder).
  { unfold upperBlocks, lowerBlocks, titleBlock, createdBlock, ratingBlock,
      sourceBlock, timesBlock, notesLateBlock.
    rewrite !map_app.
    rewrite photoBlock_tags, servingsBlock_tags, categoriesBlock_tags,
      notesEarlyBlock_tags, instructionsBlock_tags, preparationBlock_tags,
      nutritionBlock_tags, !when_tags.
    cbn [map fst].
    rewrite <- !app_assoc. cbn [app]. rewrite !when_app.
    reflexivity. }
  split; [exact T|]. split; [|split].
  - unfold upperBlocks, titleBlock, nameText. rewrite En. reflexivity.
  - rewrite !app_assoc. apply last_last.
  - rewrite T. apply NoDup_filter.
    repeat (constructor; [cbn; intuition discriminate|]). constructor.
Qed.

(** A recipe with nothing but a name has the four mandatory sections. *)
Lemma sections_follow_policy_witness :
  map fst (written (renderRecipe (fineEnv []) soup))
  = [Title; Created; Rating; Ingredients; Finish].
Proof.
  assert (WF : wellFormed soup) by (split; discriminate).
  rewrite (proj1 (sections_follow_policy (fineEnv []) WF)).
  reflexivity.
Defined.

(** ** Hyperlinks and the end of the document *)

Lemma linksOf_app a b : linksOf (a ++ b) = linksOf a ++ linksOf b.
Proof.
  induction a as [|op a IH]; [reflexivity|].
  destruct op as [| |s o| | | |]; cbn [app linksOf]; try exact IH.
  destruct o; cbn [linksOf]; rewrite IH; reflexivity.
Qed.

Lemma quiet_no_links ops : forallb quiet ops = true -> linksOf ops = [].
Proof.
  induction ops as [|op ops IH]; [reflexivity|].
  cbn [forallb]. intros H. apply andb_true_iff in H as [Q R].
  destruct op as [| |s o| | | |]; cbn [linksOf]; try (apply IH, R).
  destruct o; try (apply IH, R). discriminate Q.
Qed.

Lemma quiet_no_end ops : forallb quiet ops = true -> existsb isEnd ops = false.
Proof.
  induction ops as [|op ops IH]; [reflexivity|].
  cbn [forallb existsb]. intros H. apply andb_true_iff in H as [Q R].
  rewrite (IH R). destruct op; try reflexivity. discriminate Q.
Qed.

Lemma traceOf_app (a b : Document) : traceOf (a ++ b) = traceOf a ++ traceOf b.
Proof. apply flat_map_app. Qed.

Lemma traceOf_when c s ops : traceOf (when c s ops) = if c then ops else [].
Proof. destruct c; [apply app_nil_r | reflexivity]. Qed.

Lemma ingredientLines_quiet l : forallb quiet (ingredientLines l) = true.
Proof. induction l as [|i l IH]; [reflexivity | exact IH]. Qed.

Lemma instructionLines_quiet steps : forall index,
  forallb quiet (instructionLines index steps) = true.
Proof. induction steps as [|s steps IH]; intros index; [reflexivity | apply IH]. Qed.

Lemma preparationLines_quiet steps : forall n,
  forallb quiet (preparationLines n steps) = true.
Proof.
  induction steps as [|s steps IH]; intros n; [reflexivity|].
  cbn [preparationLines]. rewrite forallb_app, IH, andb_true_r.
  unfold stepOps. destruct (startsWithHash (trim s)); reflexivity.
Qed.

Lemma nutritionLines_quiet (ls : list jsstring) :
  forallb quiet (flat_map (fun line => [FontSize 12; Text line NoOptions]) ls) = true.
Proof. induction ls as [|x ls IH]; [reflexivity | exact IH]. Qed.

(** Every block but the source and the closing one is quiet. *)
Lemma upper_quiet h recipe nm photoEnv :
  forallb quiet (traceOf (titleBlock nm)) = true
  /\ forallb quiet (traceOf (fst (photoBlock photoEnv recipe))) = true
  /\ forallb quiet (traceOf (createdBlock h recipe)) = true
  /\ forallb quiet (traceOf (servingsBlock h recipe)) = true
  /\ forallb quiet (traceOf (ratingBlock h recipe)) = true
  /\ forallb quiet (traceOf (timesBlock h recipe)) = true
  /\ forallb quiet (traceOf (categoriesBlock recipe)) = true
  /\ forallb quiet (traceOf (notesEarlyBlock recipe)) = true.
Proof.
  repeat split; try reflexivity.
  - unfold photoBlock.
    destruct (photoIds recipe) as [[|id rest]|]; try reflexivity.
    destruct (downloadImage photoEnv _) as [e|buf]; [reflexivity|].
    destruct (openImage photoEnv buf) as [e|[w h']]; [reflexivity|].
    unfold placedSize. reflexivity.
  - unfold servingsBlock. destruct (servings recipe) as [v|]; [|reflexivity].
    destruct (truthyScalar v); reflexivity.
  - unfold timesBlock. destruct (_ || _); reflexivity.
  - unfold categoriesBlock. destruct (categories recipe) as [[|c cs]|]; reflexivity.
  - unfold notesEarlyBlock. destruct (notes recipe) as [b|]; [|reflexivity].
    destruct (truthyStr b); reflexivity.
Qed.

Lemma lower_quiet recipe : forallb quiet (traceOf (lowerBlocks recipe)) = true.
Proof.
  unfold lowerBlocks. rewrite !traceOf_app, !forallb_app.
  repeat (apply andb_true_iff; split).
  - unfold instructionsBlock. destruct (instructions recipe) as [b|]; [|reflexivity].
    rewrite traceOf_when. destruct (truthyStr b); [|reflexivity].
    rewrite forallb_app, instructionLines_quiet. reflexivity.
  - unfold preparationBlock.
    destruct (preparationSteps recipe) as [[|s ss]|]; try reflexivity.
    cbn [traceOf flat_map snd]. rewrite app_nil_r, forallb_app, preparationLines_quiet.
    reflexivity.
  - unfold notesLateBlock. rewrite traceOf_when. destruct (_ || _); reflexivity.
  - unfold nutritionBlock. destruct (nutritionalInfo recipe) as [b|]; [|reflexivity].
    rewrite traceOf_when. destruct (truthyStr b); [|reflexivity].
    rewrite !forallb_app, nutritionLines_quiet. reflexivity.
Qed.

Lemma sourceBlock_trace recipe :
  existsb isEnd (traceOf (sourceBlock recipe)) = false
  /\ match sourceUrl recipe with
     | Some url =>
         if truthyStr url
         then linksOf (traceOf (sourceBlock recipe)) = [url]
              /\ In (Text (if truthy truthyStr (sourceName recipe)
                           then orEmpty (sourceName recipe) else url)
                       (Link url))
                    (traceOf (sourceBlock recipe))
         else linksOf (traceOf (sourceBlock recipe)) = []
     | None => linksOf (traceOf (sourceBlock recipe)) = []
     end.
Proof.
  unfold sourceBlock. rewrite traceOf_when.
  destruct (sourceName recipe) as [nm|], (sourceUrl recipe) as [url|];
    cbn [truthy orEmpty];
    try destruct (truthyStr nm); try destruct (truthyStr url);
    cbn; intuition.
Qed.

(** X6: the trace of a document holds at most one hyperlink: when
    [sourceUrl] is truthy, a link to it, drawn on the source name when
    there is one and on the URL itself otherwise; no other text is a link.
    The trace ends with [doc.end()], which is called once. *)
Theorem one_link_one_end env recipe :
  wellFormed recipe ->
  let t := traceOf (written (renderRecipe env recipe)) in
  match sourceUrl recipe with
  | Some url =>
      if truthyStr url
      then linksOf t = [url]
           /\ In (Text (if truthy truthyStr (sourceName recipe)
                        then orEmpty (sourceName recipe) else url)
                    (Link url)) t
      else linksOf t = []
  | None => linksOf t = []
  end
  /\ exists body, t = body ++ [End] /\ existsb isEnd body = false.
Proof.
  intros [Hn Hi] t. subst t.
  destruct (name recipe) as [nm|] eqn:En; [|congruence].
  destruct (ingredients recipe) as [l|] eqn:Ei; [|congruence].
  rewrite (written_wellFormed env recipe En Ei).
  destruct (upper_quiet (host env) recipe nm env)
    as (Q1 & Q2 & Q3 & Q4 & Q5 & Q6 & Q7 & Q8).
  pose proof (lower_quiet recipe) as QL.
  destruct (sourceBlock_trace recipe) as [SE SL].
  set (before := traceOf (titleBlock nm)
                 ++ traceOf (fst (photoBlock env recipe))
                 ++ traceOf (createdBlock (host env) recipe)).
  set (after := traceOf (servingsBlock (host env) recipe)
                ++ traceOf (ratingBlock (host env) recipe)
                ++ traceOf (timesBlock (host env) recipe)
                ++ traceOf (categoriesBlock recipe)
                ++ traceOf (notesEarlyBlock recipe)
                ++ (ingredientsHeading ++ ingredientLines l)
                ++ traceOf (lowerBlocks recipe)).
  assert (QB : forallb quiet before = true)
    by (subst before; rewrite !forallb_app, Q1, Q2, Q3; reflexivity).
  assert (QA : forallb quiet after = true)
    by (subst after; rewrite !forallb_app, Q4, Q5, Q6, Q7, Q8, QL,
          ingredientLines_quiet; reflexivity).
  assert (E : traceOf
                (upperBlocks (host env) recipe nm (fst (photoBlock env recipe))
                 ++ [(Ingredients, ingredientsHeading ++ ingredientLines l)]
                 ++ lowerBlocks recipe ++ [(Finish, [End])])
              = (before ++ traceOf (sourceBlock recipe) ++ after) ++ [End]).
  { subst before after. unfold upperBlocks.
    rewrite !traceOf_app. cbn [traceOf flat_map snd].
    rewrite !app_nil_r, <- !app_assoc. reflexivity. }
  rewrite E. split.
  - rewrite !linksOf_app, (quiet_no_links _ QB), (quiet_no_links _ QA).
    cbn [linksOf app]. rewrite !app_nil_r.
    destruct (sourceUrl recipe) as [url|]; [|exact SL].
    destruct (truthyStr url); [|exact SL].
    destruct SL as [SL SI]. split; [exact SL|].
    apply in_or_app. left. apply in_or_app. right. apply in_or_app. left. exact SI.
  - eexists. split; [reflexivity|].
    rewrite !existsb_app, (quiet_no_end _ QB), (quiet_no_end _ QA), SE. reflexivity.
Qed.

(** A source with a name and a URL: one link, drawn on the name. *)
Lemma one_link_one_end_witness :
  linksOf (traceOf (written (renderRecipe (fineEnv []) soupWithSource)))
  = [lit "https://example.org/soup"]
  /\ In (Text (lit "Grandma") (Link (lit "https://example.org/soup")))
        (traceOf (written (renderRecipe (fineEnv []) soupWithSource))).
Proof.
  assert (WF : wellFormed soupWithSource) by (split; discriminate).
  exact (proj1 (one_link_one_end (fineEnv []) WF)).
Defined.

(** ** Instructions, ingredients and nutritional information *)

Lemma linesOf_instructionLines steps : forall index,
  linesOf [] (instructionLines index steps)
  = map (fun p => decimal (fst p + 1) ++ lit ". " ++ trim (snd p))
      (indexedFrom index steps).
Proof.
  induction steps as [|s steps IH]; intros index; [reflexivity|].
  cbn [instructionLines app linesOf indexedFrom map fst snd].
  rewrite IH. reflexivity.
Qed.

(** X7: the instructions are printed as the lines of the field that are not
    blank, in their order, each trimmed and numbered from 1 without gaps;
    blank lines take no number. *)
Theorem instructions_numbered env recipe (body : jsstring) :
  wellFormed recipe ->
  instructions recipe = Some body -> body <> [] ->
  map (linesOf []) (blocksOf Instructions (written (renderRecipe env recipe)))
  = [lit "Instructions:"
     :: map (fun p => decimal (fst p + 1) ++ lit ". " ++ trim (snd p))
          (indexedFrom 0 (instructionSteps body))]
  /\ Forall (fun step => trim step <> []) (instructionSteps body)
  /\ List.length (instructionSteps body) <= List.length (split_nl body).
Proof.
  intros WF Hb Nb.
  destruct (blocksOf_written env WF) as (_ & _ & _ & _ & _ & Hinstr & _).
  cbv zeta in Hinstr. rewrite Hinstr.
  unfold instructionsBlock. rewrite Hb.
  destruct body as [|c body]; [congruence|].
  cbn [truthyStr when map snd]. fold (instructionSteps (c :: body)).
  split; [|split].
  - cbn [app linesOf]. rewrite linesOf_instructionLines. reflexivity.
  - unfold instructionSteps. apply Forall_forall. intros step I.
    apply filter_In in I as [_ T]. destruct (trim step); [discriminate T | discriminate].
  - apply filter_length_le.
Qed.

(** Three lines, the second blank: two steps. *)
Lemma instructions_numbered_witness :
  map (linesOf [])
    (blocksOf Instructions (written (renderRecipe (fineEnv []) soupWithSource)))
  = [[lit "Instructions:"; lit "1. Chop"; lit "2. Boil"]].
Proof.
  assert (WF : wellFormed soupWithSource) by (split; discriminate).
  rewrite (proj1 (@instructions_numbered (fineEnv []) soupWithSource _
                    WF eq_refl ltac:(discriminate))).
  reflexivity.
Defined.

Lemma split_nl_not_nil s : split_nl s <> [].
Proof.
  destruct s as [|c s]; [discriminate|]. simpl.
  destruct (c =? 10)%N; [discriminate|]. destruct (split_nl s); discriminate.
Qed.

Lemma join_cons (sep x : jsstring) (l : list jsstring) :
  l <> [] -> join sep (x :: l) = x ++ sep ++ join sep l.
Proof. destruct l; [congruence | reflexivity]. Qed.

(** Splitting at the line feeds and joining with line feeds gives the
    text back. *)
Lemma join_split_nl s : join [10%N] (split_nl s) = s.
Proof.
  induction s as [|c s IH]; [reflexivity|].
  cbn [split_nl]. destruct (c =? 10)%N eqn:E.
  - apply N.eqb_eq in E. subst c.
    rewrite (join_cons _ _ (split_nl_not_nil s)), IH. reflexivity.
  - pose proof (split_nl_not_nil s) as N.
    destruct (split_nl s) as [|p ps]; [congruence|].
    destruct ps as [|q ps].
    + cbn [join] in *. now rewrite IH.
    + rewrite join_cons in * by discriminate.
      rewrite <- IH. reflexivity.
Qed.

Lemma split_nl_no_feed s : Forall (fun line => ~ In 10%N line) (split_nl s).
Proof.
  induction s as [|c s IH]; [repeat constructor; intros []|].
  cbn [split_nl]. destruct (c =? 10)%N eqn:E.
  - constructor; [intros [] | exact IH].
  - apply N.eqb_neq in E.
    destruct (split_nl s) as [|p ps]; [repeat constructor; intros [H|[]]; congruence|].
    inversion IH as [|? ? Hp Hps]; subst.
    constructor; [|exact Hps]. intros [H|H]; [congruence | exact (Hp H)].
Qed.

Lemma linesOf_nutritionLines (ls : list jsstring) :
  linesOf [] (flat_map (fun line => [FontSize 12; Text line NoOptions]) ls
              ++ [MoveDown OneLine])
  = ls.
Proof.
  induction ls as [|x ls IH]; [reflexivity|].
  cbn [flat_map app linesOf]. rewrite IH. reflexivity.
Qed.

(** X8: the nutritional information is printed line by line as it is, empty
    lines included: under the heading, the printed lines are the pieces of
    the field between its line feeds, and joined by line feeds they are
    the field again. *)
Theorem nutrition_printed_verbatim env recipe (body : jsstring) :
  wellFormed recipe ->
  nutritionalInfo recipe = Some body -> body <> [] ->
  map (linesOf [])
    (blocksOf NutritionalInformation (written (renderRecipe env recipe)))
  = [lit "Nutritional Information:" :: split_nl body]
  /\ join [10%N] (split_nl body) = body
  /\ Forall (fun line => ~ In 10%N line) (split_nl body).
Proof.
  intros WF Hb Nb.
  destruct (blocksOf_written env WF) as (_ & _ & _ & _ & _ & _ & _ & _ & Hnut).
  cbv zeta in Hnut. rewrite Hnut.
  unfold nutritionBlock. rewrite Hb.
  destruct body as [|c body]; [congruence|].
  cbn [truthyStr when map snd].
  split; [|split; [apply join_split_nl | apply split_nl_no_feed]].
  cbn [app linesOf]. rewrite linesOf_nutritionLines. reflexivity.
Qed.

(** Two lines of nutritional information. *)
Lemma nutrition_printed_verbatim_witness :
  map (linesOf [])
    (blocksOf NutritionalInformation
       (written (renderRecipe (fineEnv []) soupWithSource)))
  = [[lit "Nutritional Information:"; lit "Calories: 90"; lit "Fat: 1 g"]].
Proof.
  assert (WF : wellFormed soupWithSource) by (split; discriminate).
  rewrite (proj1 (@nutrition_printed_verbatim (fineEnv []) soupWithSource _
                    WF eq_refl ltac:(discriminate))).
  reflexivity.
Defined.

Lemma linesOf_ingredientLines (l : list Ingredient) :
  linesOf [] (ingredientLines l) = map rawIngredient l.
Proof.
  induction l as [|i l IH]; [reflexivity|].
  cbn [ingredientLines flat_map app linesOf map]. 
  change (flat_map _ l) with (ingredientLines l). rewrite IH. reflexivity.
Qed.

(** X9: the Ingredients section is always there, with its heading even for an
    empty list, and holds one line per ingredient: the [rawIngredient]
    texts as they are, in order. *)
Theorem ingredients_one_line_each env recipe (l : list Ingredient) :
  name recipe <> None ->
  ingredients recipe = Some l ->
  map (linesOf []) (blocksOf Ingredients (written (renderRecipe env recipe)))
  = [lit "Ingredients:" :: map rawIngredient l].
Proof.
  intros Hn Hi.
  destruct (name recipe) as [nm|] eqn:En; [|congruence].
  rewrite (written_wellFormed env recipe En Hi).
  blocks_of. cbn [map]. f_equal.
  cbn [snd ingredientsHeading app linesOf]. rewrite linesOf_ingredientLines.
  reflexivity.
Qed.

(** One onion. *)
Lemma ingredients_one_line_each_witness :
  map (linesOf [])
    (blocksOf Ingredients (written (renderRecipe (fineEnv []) soupWithSource)))
  = [[lit "Ingredients:"; lit "1 onion"]].
Proof.
  exact (@ingredients_one_line_each (fineEnv []) soupWithSource _
           ltac:(discriminate) eq_refl).
Defined.

(** ** One legacy note field alone *)

(** X10: with [notes] set and [note] not, the text of [notes] is printed twice,
    in the early and in the late Notes section; with [note] set and
    [notes] not, it is printed once, in the late section. *)
Theorem notes_alone_printed_twice env recipe :
  wellFormed recipe ->
  let d := written (renderRecipe env recipe) in
  (forall b, notes recipe = Some b -> b <> [] ->
             truthy truthyStr (note recipe) = false ->
             map (linesOf []) (blocksOf NotesEarly d ++ blocksOf NotesLate d)
             = [[lit "Notes:"; b]; [lit "Notes:"; b]])
  /\ (forall a, note recipe = Some a -> a <> [] ->
                truthy truthyStr (notes recipe) = false ->
                blocksOf NotesEarly d = []
                /\ map (linesOf []) (blocksOf NotesLate d) = [[lit "Notes:"; a]]).
Proof.
  intros WF d.
  destruct (blocksOf_written env WF) as (_ & _ & _ & _ & He & _ & _ & Hl & _).
  fold d in He, Hl. rewrite He, Hl.
  unfold notesEarlyBlock, notesLateBlock, noteOrNotes. split.
  - intros b Hb Nb Hn. rewrite Hb, Hn.
    destruct b as [|c b]; [congruence | reflexivity].
  - intros a Ha Na Hn. rewrite Ha.
    destruct a as [|c a]; [congruence|].
    destruct (notes recipe) as [b|]; cbn [truthy] in Hn |- *.
    + rewrite Hn. split; reflexivity.
    + split; reflexivity.
Qed.

(** [notes] alone: the same text under both headings. *)
Lemma notes_alone_printed_twice_witness :
  map (linesOf [])
    (blocksOf NotesEarly (written (renderRecipe (fineEnv []) soupWithNotesOnly))
     ++ blocksOf NotesLate (written (renderRecipe (fineEnv []) soupWithNotesOnly)))
  = [[lit "Notes:"; lit "B"]; [lit "Notes:"; lit "B"]].
Proof.
  assert (WF : wellFormed soupWithNotesOnly) by (split; discriminate).
  exact (proj1 (notes_alone_printed_twice (fineEnv []) WF)
           (lit "B") eq_refl ltac:(discriminate) eq_refl).
Defined.

(** ** The whole batch *)

Lemma wellFormed_dec recipe : {wellFormed recipe} + {~ wellFormed recipe}.
Proof.
  unfold wellFormed.
  destruct (name recipe), (ingredients recipe);
    [left; split; discriminate | right | right | right]; intros [A B]; congruence.
Qed.

Lemma render_wellFormed env recipe :
  wellFormed recipe ->
  outputFile (renderRecipe env recipe) = Some (pathOf env recipe)
  /\ settlement (renderRecipe env recipe)
     = match streamError env (pathOf env recipe) with
       | Some e => Rejected e
       | None => Resolved
       end.
Proof.
  intros [Hn Hi]. unfold renderRecipe, pathOf, nameText.
  destruct (name recipe) as [nm|]; [|congruence].
  destruct (photoBlock env recipe) as [photo photoLog].
  destruct (ingredients recipe) as [l|]; [|congruence].
  split; reflexivity.
Qed.

Lemma render_malformed env recipe :
  ~ wellFormed recipe ->
  settlement (renderRecipe env recipe) = NeverSettled TypeError.
Proof.
  intros H. unfold renderRecipe, wellFormed in *.
  destruct (name recipe) as [nm|]; [|reflexivity].
  destruct (photoBlock env recipe) as [photo photoLog].
  destruct (ingredients recipe) as [l|]; [|reflexivity].
  exfalso. apply H. split; discriminate.
Qed.

Lemma iteration_wellFormed env st recipe :
  wellFormed recipe ->
  iteration env st recipe = (afterAll env st [recipe], None).
Proof.
  intros WF. destruct (render_wellFormed env WF) as [Ho Hs].
  unfold iteration, afterAll, recipeLog, documentOf, streamOk.
  rewrite Ho, Hs. cbn [filter flat_map map optList].
  destruct (streamError env (pathOf env recipe)) as [e|];
    cbn [finished started opened console map];
    rewrite ?app_nil_r, <- ?app_assoc; reflexivity.
Qed.

Lemma afterAll_nil env st : afterAll env st [] = st.
Proof.
  destruct st. unfold afterAll. cbn. now rewrite !app_nil_r.
Qed.

Lemma afterAll_cons env st recipe l :
  afterAll env (afterAll env st [recipe]) l = afterAll env st (recipe :: l).
Proof.
  unfold afterAll. cbn [finished started opened console filter flat_map map].
  destruct (streamOk env recipe); cbn [map app];
    rewrite ?app_nil_r, <- ?app_assoc; reflexivity.
Qed.

Lemma processRecipes_wellFormed env (l : list Recipe) : forall st,
  Forall wellFormed l ->
  processRecipes env st l = (afterAll env st l, LoopDone).
Proof.
  induction l as [|recipe l IH]; intros st H.
  - now rewrite afterAll_nil.
  - inversion H as [|? ? WF Hl]; subst.
    cbn [processRecipes]. rewrite (iteration_wellFormed env st WF).
    rewrite (IH _ Hl), afterAll_cons. reflexivity.
Qed.

Lemma processRecipes_malformed env (pre : list Recipe) recipe post : forall st,
  Forall wellFormed pre -> ~ wellFormed recipe ->
  processRecipes env st (pre ++ recipe :: post)
  = ({| finished := finished (afterAll env st pre);
        started := started (afterAll env st pre) ++ [recipe];
        opened := opened (afterAll env st pre)
                  ++ optList (outputFile (renderRecipe env recipe));
        console := console (afterAll env st pre)
                   ++ renderLog (renderRecipe env recipe) |},
     LoopStuck recipe TypeError).
Proof.
  induction pre as [|r pre IH]; intros st H N.
  - rewrite afterAll_nil. cbn [app processRecipes]. unfold iteration.
    rewrite (render_malformed env N). reflexivity.
  - inversion H as [|? ? WF Hl]; subst.
    cbn [app processRecipes]. rewrite (iteration_wellFormed env st WF).
    rewrite (IH _ Hl N), afterAll_cons. reflexivity.
Qed.

Lemma first_malformed (l : list Recipe) :
  Forall wellFormed l
  \/ exists pre recipe post,
       l = pre ++ recipe :: post /\ Forall wellFormed pre /\ ~ wellFormed recipe.
Proof.
  induction l as [|r l IH]; [left; constructor|].
  destruct (wellFormed_dec r) as [WF|N].
  - destruct IH as [A|(pre & x & post & -> & P & N)].
    + left. now constructor.
    + right. exists (r :: pre), x, post. repeat split; [now constructor | exact N].
  - right. exists [], r, l. repeat split; [constructor | exact N].
Qed.

Lemma failedPhoto_not_failedPdf recipe e : isFailedPdf (failedPhoto recipe e) = false.
Proof.
  unfold isFailedPdf, failedPhoto, str_eqb.
  destruct (jsstring_eq_dec _ _) as [E|]; [|reflexivity].
  exfalso. apply (f_equal (fun s => nth 10 s 0%N)) in E.
  vm_compute in E. discriminate E.
Qed.

Lemma renderLog_no_failedPdf env recipe :
  filter isFailedPdf (renderLog (renderRecipe env recipe)) = [].
Proof.
  unfold renderRecipe.
  destruct (name recipe) as [nm|]; [|reflexivity].
  assert (P : filter isFailedPdf (snd (photoBlock env recipe)) = []).
  { unfold photoBlock.
    destruct (photoIds recipe) as [[|id rest]|]; try reflexivity.
    destruct (downloadImage env _) as [e|buf];
      [cbn [snd filter]; now rewrite failedPhoto_not_failedPdf|].
    destruct (openImage env buf) as [e|[w h]];
      [cbn [snd filter]; now rewrite failedPhoto_not_failedPdf|].
    unfold placedSize. reflexivity. }
  destruct (photoBlock env recipe) as [photo photoLog]. cbn [snd] in P.
  destruct (ingredients recipe) as [l|]; cbn [renderLog]; [|exact P].
  rewrite filter_app, P. reflexivity.
Qed.

Lemma failedPdf_is_failedPdf recipe e : isFailedPdf (failedPdf recipe e) = true.
Proof.
  unfold isFailedPdf, failedPdf, str_eqb.
  destruct (jsstring_eq_dec _ _) as [|N]; [reflexivity|].
  exfalso. apply N. reflexivity.
Qed.

Lemma recipeLog_failures env (l : list Recipe) :
  List.length (filter isFailedPdf (flat_map (recipeLog env) l))
  = List.length (filter (fun r => negb (streamOk env r)) l).
Proof.
  induction l as [|r l IH]; [reflexivity|].
  cbn [flat_map filter]. unfold recipeLog at 1, streamOk at 1.
  rewrite !filter_app, renderLog_no_failedPdf, !length_app.
  destruct (streamError env (pathOf env r)) as [e|]; cbn [negb filter List.length app].
  - rewrite failedPdf_is_failedPdf. cbn [List.length]. rewrite IH. reflexivity.
  - exact IH.
Qed.

Lemma photoBlock_noPhoto env recipe :
  noPhoto recipe -> photoBlock env recipe = ([], []).
Proof.
  unfold noPhoto, nonEmpty, photoBlock.
  destruct (photoIds recipe) as [[|id rest]|]; [reflexivity | discriminate | reflexivity].
Qed.

Lemma recipeLog_noPhoto env recipe :
  wellFormed recipe -> noPhoto recipe -> recipeLog env recipe = plainLog env recipe.
Proof.
  intros [Hn Hi] P. unfold recipeLog, plainLog, renderRecipe, nameText.
  rewrite (photoBlock_noPhoto env P).
  destruct (name recipe) as [nm|]; [|congruence].
  destruct (ingredients recipe) as [l|]; [|congruence].
  reflexivity.
Qed.

Lemma batchLog_noPhoto env (l : list Recipe) :
  Forall wellFormed l -> Forall noPhoto l ->
  flat_map (recipeLog env) l = flat_map (plainLog env) l.
Proof.
  induction 1 as [|r l WF Hl IH]; intros P; [reflexivity|].
  inversion P as [|? ? Pr Pl]; subst.
  cbn [flat_map]. rewrite (recipeLog_noPhoto env WF Pr), (IH Pl). reflexivity.
Qed.

Lemma renderLog_malformed env recipe :
  ~ wellFormed recipe -> noPhoto recipe -> renderLog (renderRecipe env recipe) = [].
Proof.
  intros N P. unfold renderRecipe, wellFormed in *.
  rewrite (photoBlock_noPhoto env P).
  destruct (name recipe) as [nm|]; [|reflexivity].
  destruct (ingredients recipe) as [l|]; [|reflexivity].
  exfalso. apply N. split; discriminate.
Qed.

(** X11: a batch of recipes without photos, each with its name and its
    ingredients, runs to the end.  The recipes are rendered in order, one
    stream opened for each; every one is reported as created and leaves
    either its document, the same as if it had been rendered alone, or,
    when its stream failed, a line of the [catch] right after: documents
    and logged failures add up to the recipes selected.  The summary comes
    last. *)
Theorem batch_of_wellformed_recipes cfg env recipes :
  reachesLoop env recipes ->
  generatePDF cfg = true ->
  let selected := recipesToProcess (maxPDFsToGenerate cfg) recipes in
  Forall wellFormed selected ->
  Forall noPhoto selected ->
  downloadRecipesWith cfg env
  = {| status := Exited; archive := Some recipes;
       documents := map (documentOf env) (filter (streamOk env) selected);
       rendered := selected;
       fsCalls := WriteFile archivePath :: Mkdir outputDir
                  :: map CreateWriteStream (map (pathOf env) selected);
       directory := true;
       output := savedLine :: flat_map (plainLog env) selected
                 ++ [summaryLine recipes] |}
  /\ List.length (documents (downloadRecipesWith cfg env))
     + List.length (filter isFailedPdf (output (downloadRecipesWith cfg env)))
     = List.length selected.
Proof.
  intros (L & R & W) G selected WF NP.
  assert (E : downloadRecipesWith cfg env
              = {| status := Exited; archive := Some recipes;
                   documents := map (documentOf env) (filter (streamOk env) selected);
                   rendered := selected;
                   fsCalls := WriteFile archivePath :: Mkdir outputDir
                              :: map CreateWriteStream (map (pathOf env) selected);
                   directory := true;
                   output := savedLine :: flat_map (plainLog env) selected
                             ++ [summaryLine recipes] |}).
  { rewrite (downloadRecipesWith_unfold cfg env L R W), G. cbv zeta.
    fold selected. rewrite (processRecipes_wellFormed env _ WF).
    rewrite <- (batchLog_noPhoto env WF NP). reflexivity. }
  split; [exact E|]. rewrite E. cbn [documents output].
  rewrite length_map, <- (batchLog_noPhoto env WF NP).
  change (savedLine :: flat_map (recipeLog env) selected ++ [summaryLine recipes])
    with ([savedLine] ++ flat_map (recipeLog env) selected ++ [summaryLine recipes]).
  rewrite !filter_app, !length_app, recipeLog_failures.
  cbn [filter isFailedPdf savedLine summaryLine List.length].
  rewrite Nat.add_0_r. apply filter_length.
Qed.

(** Three recipes on a full disk, under a limit of 2: each of the two is
    reported as created and then as failed, and no document is left. *)
Lemma batch_of_wellformed_recipes_witness :
  documents (downloadRecipesWith (limitOf 2) (fullDiskEnv [soup; bread; salad])) = []
  /\ output (downloadRecipesWith (limitOf 2) (fullDiskEnv [soup; bread; salad]))
     = [Log (lit "Saved all recipes to all-recipes.json");
        Log (lit "Created PDF for: Soup");
        LogError (lit "Failed to create PDF for Soup:") ENOSPC;
        Log (lit "Created PDF for: Bread");
        LogError (lit "Failed to create PDF for Bread:") ENOSPC;
        Log (lit "Finished processing 3 recipes")].
Proof.
  assert (WF : Forall wellFormed [soup; bread])
    by (repeat constructor; discriminate).
  assert (NP : Forall noPhoto [soup; bread]) by (repeat constructor).
  pose proof (@batch_of_wellformed_recipes (limitOf 2)
                (fullDiskEnv [soup; bread; salad]) [soup; bread; salad]
                (conj eq_refl (conj eq_refl eq_refl)) eq_refl WF NP) as [E _].
  split; rewrite E; reflexivity.
Defined.

(** X12: among recipes without photos, the batch stops at the first selected
    one that lacks its name or its ingredients, provided nothing settles
    its promise afterwards (no stream was opened for it, or its stream
    emits no error).  The recipes before it are rendered as usual; that
    one is started and leaves neither a document nor any line in the
    console; the recipes after it are never started, and no summary is
    printed.  The archive, written before, is complete. *)
Theorem batch_stops_at_first_malformed cfg env recipes pre recipe post :
  reachesLoop env recipes ->
  generatePDF cfg = true ->
  recipesToProcess (maxPDFsToGenerate cfg) recipes = pre ++ recipe :: post ->
  Forall wellFormed pre -> Forall noPhoto pre ->
  ~ wellFormed recipe -> noPhoto recipe -> noLateError env recipe ->
  let run := downloadRecipesWith cfg env in
  status run = Stuck recipe TypeError
  /\ rendered run = pre ++ [recipe]
  /\ documents run = map (documentOf env) (filter (streamOk env) pre)
  /\ output run = savedLine :: flat_map (plainLog env) pre
  /\ archive run = Some recipes.
Proof.
  intros (L & R & W) G S WF NP N P _ run. subst run.
  rewrite (downloadRecipesWith_unfold cfg env L R W), G. cbv zeta.
  rewrite S, (processRecipes_malformed env post _ WF N).
  cbn [finishRun status rendered documents output archive afterAll emptyLoop
       finished started opened console app].
  rewrite (renderLog_malformed env N P), app_nil_r, (batchLog_noPhoto env WF NP).
  repeat split.
Qed.

(** The record without ingredients in second place. *)
Lemma batch_stops_at_first_malformed_witness :
  status (downloadRecipes (fineEnv [soup; broken; bread])) = Stuck broken TypeError
  /\ rendered (downloadRecipes (fineEnv [soup; broken; bread])) = [soup; broken]
  /\ map fst (documents (downloadRecipes (fineEnv [soup; broken; bread])))
     = [lit "recipe-pdfs/11-14-2023 - Soup.pdf"]
  /\ output (downloadRecipes (fineEnv [soup; broken; bread]))
     = [Log (lit "Saved all recipes to all-recipes.json");
        Log (lit "Created PDF for: Soup")].
Proof.
  assert (WF : Forall wellFormed [soup]) by (repeat constructor; discriminate).
  assert (NP : Forall noPhoto [soup]) by (repeat constructor).
  assert (N : ~ wellFormed broken) by (intros [_ H]; now apply H).
  pose proof (@batch_stops_at_first_malformed scriptConfig
                (fineEnv [soup; broken; bread]) [soup; broken; bread]
                [soup] broken [bread]
                (conj eq_refl (conj eq_refl eq_refl)) eq_refl eq_refl WF NP N
                eq_refl (or_intror eq_refl)) as H.
  cbv zeta in H. destruct H as (Hs & Hr & Hd & Ho & _).
  split; [exact Hs|]. split; [exact Hr|].
  unfold downloadRecipes. rewrite Hd, Ho. split; reflexivity.
Defined.

(** X13: a run over recipes without photos that reaches the loop exits
    exactly when every selected recipe has its name and its ingredients,
    provided nothing settles the promise of a recipe once its body has
    raised. *)
Theorem exits_iff_all_wellformed cfg env recipes :
  reachesLoop env recipes ->
  generatePDF cfg = true ->
  let selected := recipesToProcess (maxPDFsToGenerate cfg) recipes in
  Forall noPhoto selected ->
  Forall (fun recipe => wellFormed recipe \/ noLateError env recipe) selected ->
  (status (downloadRecipesWith cfg env) = Exited <-> Forall wellFormed selected).
Proof.
  intros (L & R & W) G selected _ _. subst selected.
  rewrite (downloadRecipesWith_unfold cfg env L R W), G. cbv zeta.
  destruct (first_malformed (recipesToProcess (maxPDFsToGenerate cfg) recipes))
    as [A|(pre & x & post & E & P & N)].
  - rewrite (processRecipes_wellFormed env _ A). split; [intros _; exact A | reflexivity].
  - rewrite E, (processRecipes_malformed env post _ P N). split; [discriminate|].
    intros A. exfalso. apply N.
    rewrite Forall_forall in A. apply A, in_or_app. right. now left.
Qed.

(** A batch of complete records exits, and one with a record that lacks
    its ingredients does not. *)
Lemma exits_iff_all_wellformed_witness :
  status (downloadRecipes (fineEnv [soup; bread; salad])) = Exited
  /\ status (downloadRecipes (fineEnv [soup; broken; bread])) <> Exited.
Proof.
  split.
  - apply (@exits_iff_all_wellformed scriptConfig (fineEnv [soup; bread; salad])
             [soup; bread; salad] (conj eq_refl (conj eq_refl eq_refl)) eq_refl).
    + repeat constructor.
    + repeat constructor; left; split; discriminate.
    + repeat constructor; discriminate.
  - intros X.
    apply (@exits_iff_all_wellformed scriptConfig (fineEnv [soup; broken; bread])
             [soup; broken; bread] (conj eq_refl (conj eq_refl eq_refl)) eq_refl) in X.
    + inversion X as [|? ? _ X']; subst. inversion X' as [|? ? [_ B] _]; subst.
      now apply B.
    + repeat constructor.
    + constructor; [left; split; discriminate|].
      constructor; [right; right; reflexivity|].
      constructor; [left; split; discriminate | constructor].
Defined.

(** ** Fatal errors *)

Lemma finishRun_not_failed recipes calls dir st fin e :
  status (finishRun recipes calls dir st fin) <> Failed e.
Proof. destruct fin; discriminate. Qed.

Lemma finishRun_archive recipes calls dir st fin :
  archive (finishRun recipes calls dir st fin) = Some recipes.
Proof. now destruct fin. Qed.

(** X14: the run is rejected exactly by a failed login, a failed retrieval of
    the recipes or a failed write of the archive, with the error of that
    step; nothing that happens while rendering rejects it.  A rejected run
    prints the error and nothing else, leaves no archive and no document,
    and never makes the directory; any other run holds every retrieved
    record in its archive, whatever the limit and whatever became of the
    renders. *)
Theorem failed_iff_fatal cfg env :
  let run := downloadRecipesWith cfg env in
  (forall e,
     status run = Failed e
     <-> loginError env = Some e
         \/ (loginError env = None /\ recipesResult env = inl e)
         \/ (loginError env = None
             /\ (exists recipes, recipesResult env = inr recipes)
             /\ writeArchive env (dirExists env) = Some e))
  /\ (forall e,
        status run = Failed e ->
        output run = [LogUncaught e] /\ archive run = None
        /\ documents run = [] /\ rendered run = []
        /\ ~ In (Mkdir outputDir) (fsCalls run))
  /\ (forall recipes,
        recipesResult env = inr recipes ->
        (forall e, status run <> Failed e) ->
        archive run = Some recipes).
Proof.
  intros run. subst run. unfold downloadRecipesWith.
  destruct (loginError env) as [e0|].
  - split; [|split].
    + intros e. cbn [failedRun status]. split.
      * intros [= ->]. now left.
      * intros [[= ->]|[[H _]|[H _]]]; [reflexivity | discriminate H | discriminate H].
    + intros e [= <-]. cbn. intuition.
    + intros recipes _ H. exfalso. now apply (H e0).
  - destruct (recipesResult env) as [e0|recipes].
    + split; [|split].
      * intros e. cbn [failedRun status]. split.
        -- intros [= ->]. right; left. now split.
        -- intros [H|[[_ [= ->]]|(_ & [r H] & _)]];
             [discriminate H | reflexivity | discriminate H].
      * intros e [= <-]. cbn. intuition.
      * intros r H. discriminate H.
    + cbv zeta. destruct (writeArchive env (dirExists env)) as [e0|].
      * split; [|split].
        -- intros e. cbn [failedRun status]. split.
           ++ intros [= ->]. right; right. repeat split. now exists recipes.
           ++ intros [H|[[_ H]|(_ & _ & [= ->])]];
                [discriminate H | discriminate H | reflexivity].
        -- intros e [= <-]. cbn. repeat split. intros [H|[]]. discriminate H.
        -- intros r _ H. exfalso. now apply (H e0).
      * assert (NF : forall e,
                  status (if generatePDF cfg
                          then let '(st, fin) :=
                                 processRecipes env (emptyLoop [savedLine])
                                   (recipesToProcess (maxPDFsToGenerate cfg) recipes) in
                               finishRun recipes [WriteFile archivePath; Mkdir outputDir]
                                 (mkdirRecursive (dirExists env)) st fin
                          else finishRun recipes [WriteFile archivePath]
                                 (dirExists env) (emptyLoop [savedLine]) LoopDone)
                  <> Failed e).
        { intros e. destruct (generatePDF cfg); [|discriminate].
          destruct (processRecipes env _ _) as [st fin].
          apply finishRun_not_failed. }
        split; [|split].
        -- intros e. split.
           ++ intros H. exfalso. exact (NF e H).
           ++ intros [H|[[_ H]|(_ & _ & H)]]; discriminate H.
        -- intros e H. exfalso. exact (NF e H).
        -- intros r [= <-] _. destruct (generatePDF cfg); [|reflexivity].
           destruct (processRecipes env _ _) as [st fin].
           apply finishRun_archive.
Qed.

(** ** The selection *)

(** X15: the selected recipes are always the first ones of the collection, in
    their order; a limit that is not negative selects at most that many;
    and with the limit of the script, 1000, a collection of at most 1000
    recipes is selected whole and no more than 1000 are ever selected. *)
Theorem selection_is_prefix (max : Z) (recipes : list Recipe) :
  (exists rest, recipes = recipesToProcess max recipes ++ rest)
  /\ ((0 <= max)%Z ->
      List.length (recipesToProcess max recipes) <= Z.to_nat max)
  /\ (List.length recipes <= 1000 ->
      recipesToProcess (maxPDFsToGenerate scriptConfig) recipes = recipes)
  /\ List.length (recipesToProcess (maxPDFsToGenerate scriptConfig) recipes) <= 1000.
Proof.
  split; [|split; [|split]].
  - unfold recipesToProcess, slice0.
    destruct (max =? -1)%Z; [exists []; now rewrite app_nil_r|].
    eexists. symmetry. apply firstn_skipn.
  - intros H. unfold recipesToProcess.
    destruct (max =? -1)%Z eqn:E; [apply Z.eqb_eq in E; lia|].
    rewrite (slice0_nonneg recipes H). apply firstn_le_length.
  - intros H. cbn [maxPDFsToGenerate scriptConfig]. unfold recipesToProcess.
    cbn [Z.eqb]. rewrite (@slice0_nonneg _ 1000 recipes) by lia.
    apply firstn_all2. lia.
  - cbn [maxPDFsToGenerate scriptConfig]. unfold recipesToProcess.
    cbn [Z.eqb]. rewrite (@slice0_nonneg _ 1000 recipes) by lia.
    etransitivity; [apply firstn_le_length | lia].
Qed.

(** ** Failures that are contained *)

(** X16: when the photo cannot be fetched or decoded, only the photo is
    missing: the failure is logged once with the name of the recipe, the
    document has every other section as it would without the photo, the
    recipe is still reported as created, and the promise settles with the
    stream as usual. *)
Theorem failed_photo_only_skips_photo env recipe nm l id rest :
  name recipe = Some nm -> ingredients recipe = Some l ->
  photoIds recipe = Some (id :: rest) ->
  photoAvailable env recipe = false ->
  exists e,
    (downloadImage env (photoUrlOf id) = inl e
     \/ exists buf, downloadImage env (photoUrlOf id) = inr buf
                    /\ openImage env buf = inl e)
    /\ renderLog (renderRecipe env recipe)
       = [LogError (lit "Failed to add photo for " ++ nm ++ lit ":") e;
          Log (lit "Created PDF for: " ++ nm)]
    /\ written (renderRecipe env recipe)
       = upperBlocks (host env) recipe nm []
         ++ [(Ingredients, ingredientsHeading ++ ingredientLines l)]
         ++ lowerBlocks recipe ++ [(Finish, [End])]
    /\ blocksOf Photo (written (renderRecipe env recipe)) = []
    /\ settlement (renderRecipe env recipe)
       = match streamError env (pathOf env recipe) with
         | Some e' => Rejected e'
         | None => Resolved
         end.
Proof.
  intros Hn Hi Hp Ha.
  assert (WF : wellFormed recipe) by (split; congruence).
  assert (C : exists e,
            (downloadImage env (photoUrlOf id) = inl e
             \/ exists buf, downloadImage env (photoUrlOf id) = inr buf
                            /\ openImage env buf = inl e)
            /\ photoBlock env recipe = ([], [failedPhoto recipe e])).
  { unfold photoAvailable in Ha. unfold photoBlock. rewrite Hp in *.
    destruct (downloadImage env (photoUrlOf id)) as [e|buf].
    - exists e. split; [now left | reflexivity].
    - destruct (openImage env buf) as [e|[w h]] eqn:O; [|discriminate Ha].
      exists e. split; [right; now exists buf | reflexivity]. }
  destruct C as (e & D & P). exists e. split; [exact D|].
  assert (W : written (renderRecipe env recipe)
              = upperBlocks (host env) recipe nm []
                ++ [(Ingredients, ingredientsHeading ++ ingredientLines l)]
                ++ lowerBlocks recipe ++ [(Finish, [End])])
    by (rewrite (written_wellFormed env recipe Hn Hi), P; reflexivity).
  split; [|split; [exact W|split]].
  - unfold renderRecipe. rewrite Hn, Hi, P. cbn [renderLog app].
    unfold failedPhoto, nameText. rewrite Hn. reflexivity.
  - destruct (blocksOf_written env WF) as (B & _). cbv zeta in B.
    rewrite B, P. reflexivity.
  - apply (render_wellFormed env WF).
Qed.

(** Without network, the soup is written without its photo. *)
Lemma failed_photo_only_skips_photo_witness :
  map fst (written (renderRecipe (offlineEnv []) soupWithPhoto))
  = [Title; Created; Rating; Ingredients; Finish]
  /\ renderLog (renderRecipe (offlineEnv []) soupWithPhoto)
     = [LogError (lit "Failed to add photo for Soup:")
          (ErrorMsg (lit "Failed to download image: 404"));
        Log (lit "Created PDF for: Soup")].
Proof.
  destruct (@failed_photo_only_skips_photo (offlineEnv []) soupWithPhoto
              (lit "Soup") [] (lit "abc") [] eq_refl eq_refl eq_refl eq_refl)
    as (e & D & L & W & _).
  split; [rewrite W; reflexivity|].
  rewrite L. destruct D as [D|(buf & D & _)]; [|discriminate D].
  injection D as <-. reflexivity.
Defined.

(** X17: when the stream of a recipe without photo fails, the recipe is
    first reported as created and then as failed, with its name and the
    error of the stream; no document is recorded for it, and the loop goes
    on with the next recipe. *)
Theorem stream_failure_logged_after_created env st recipe nm l e :
  name recipe = Some nm -> ingredients recipe = Some l ->
  noPhoto recipe ->
  streamError env (pathOf env recipe) = Some e ->
  snd (iteration env st recipe) = None
  /\ finished (fst (iteration env st recipe)) = finished st
  /\ opened (fst (iteration env st recipe)) = opened st ++ [pathOf env recipe]
  /\ console (fst (iteration env st recipe))
     = console st
       ++ [Log (lit "Created PDF for: " ++ nm);
           LogError (lit "Failed to create PDF for " ++ nm ++ lit ":") e].
Proof.
  intros Hn Hi P Hs.
  assert (WF : wellFormed recipe) by (split; congruence).
  rewrite (iteration_wellFormed env st WF). cbn [fst snd].
  unfold afterAll, streamOk.
  cbn [finished opened console filter flat_map map]. rewrite Hs.
  cbn [map]. rewrite !app_nil_r, (recipeLog_noPhoto env WF P).
  repeat split.
  unfold plainLog, failedPdf, nameText. rewrite Hn, Hs. reflexivity.
Qed.

(** The bread on a full disk. *)
Lemma stream_failure_logged_after_created_witness :
  console (fst (iteration (fullDiskEnv []) (emptyLoop []) bread))
  = [Log (lit "Created PDF for: Bread");
     LogError (lit "Failed to create PDF for Bread:") ENOSPC]
  /\ snd (iteration (fullDiskEnv []) (emptyLoop []) bread) = None.
Proof.
  destruct (@stream_failure_logged_after_created (fullDiskEnv []) (emptyLoop [])
              bread (lit "Bread") [] ENOSPC eq_refl eq_refl eq_refl eq_refl)
    as (N & _ & _ & C).
  split; [rewrite C; reflexivity | exact N].
Defined.

(** ** The side that limits the scale *)

(** X18: for every image of 1 to 65535 pixels a side, the largest a JPEG can
    have, the ratio is the one of its width or of its height, and that
    side is placed at 200 up to one rounding step of binary64: the scaled
    image touches the box of 200 x 200. *)
Theorem limiting_side_on_box (W H : Z) :
  (1 <= W <= 65535)%Z -> (1 <= H <= 65535)%Z ->
  let w := floatOfZ W in
  let h := floatOfZ H in
  (imageRatio w h = (200 / w)%float /\ near200 (fst (placedSize w h)) = true)
  \/ (imageRatio w h = (200 / h)%float /\ near200 (snd (placedSize w h)) = true).
Proof.
  intros HW HH w h.
  pose proof (@Zseq_forallb _ _ _ sides_on_box W ltac:(lia)) as SW.
  pose proof (@Zseq_forallb _ _ _ sides_on_box H ltac:(lia)) as SH.
  unfold sideOnBox in SW, SH. fold w in SW. fold h in SH.
  apply andb_true_iff in SW as [NW SW]. apply andb_true_iff in SH as [NH SH].
  apply negb_true_iff in NW. apply negb_true_iff in NH.
  unfold placedSize, imageRatio, maxWidth, maxHeight. cbn [fst snd].
  destruct (Math_min_cases _ _ NW NH) as [E|E]; rewrite E;
    [left | right]; split; auto.
Qed.

(** An image of 1 x 11 pixels: the height sets the ratio, and the placed
    height exceeds 200 by one rounding step. *)
Lemma limiting_side_on_box_witness :
  near200 (snd (placedSize (floatOfZ 1) (floatOfZ 11))) = true
  /\ (200 <? snd (placedSize (floatOfZ 1) (floatOfZ 11)))%float = true.
Proof.
  split; [|reflexivity].
  destruct (@limiting_side_on_box 1 11 ltac:(lia) ltac:(lia)) as [[E _]|[_ N]].
  - vm_compute in E. discriminate E.
  - exact N.
Defined.

(** ** Times *)

(** X19: with a preparation and a cooking time that are both set, the time
    line gives the preparation first and the cooking second, separated by
    a bar, each as its seconds divided by 60, without rounding. *)
Theorem times_in_minutes env recipe (p c : float) :
  wellFormed recipe ->
  prepTime recipe = Some p -> cookTime recipe = Some c ->
  truthyNum p = true -> truthyNum c = true ->
  map (linesOf []) (blocksOf Times (written (renderRecipe env recipe)))
  = [[lit "Prep Time: " ++ numberToString (host env) (p / 60) ++ lit " min"
      ++ lit " | "
      ++ lit "Cook Time: " ++ numberToString (host env) (c / 60) ++ lit " min"]].
Proof.
  intros WF Hp Hc Tp Tc.
  destruct (blocksOf_written env WF) as (_ & _ & _ & Ht & _).
  cbv zeta in Ht. rewrite Ht.
  unfold timesBlock, timeEntry. rewrite Hp, Hc. cbn [truthy]. rewrite Tp, Tc.
  cbn [orb when map snd app join linesOf].
  rewrite <- !app_assoc. reflexivity.
Qed.

(** Six hundred seconds are ten minutes. *)
Lemma times_in_minutes_witness :
  map (linesOf [])
    (blocksOf Times (written (renderRecipe (fineEnv []) soupWithTimes)))
  = [[lit "Prep Time: 10 min | Cook Time: 60 min"]].
Proof.
  assert (WF : wellFormed soupWithTimes) by (split; discriminate).
  rewrite (@times_in_minutes (fineEnv []) soupWithTimes 600 3600
             WF eq_refl eq_refl eq_refl eq_refl).
  reflexivity.
Defined.

(** ** Recipes that share a file *)

(** X20: the file of a recipe depends on its sanitized name and on its date
    token only: two recipes whose names are sanitized to the same text and
    whose date tokens are the same are written to the same path, and in a
    batch of well-formed recipes both streams are opened on it, one after
    the other. *)
Theorem same_name_same_day_same_file env r1 r2 (n1 n2 : jsstring) :
  name r1 = Some n1 -> name r2 = Some n2 ->
  sanitizeFilename n1 = sanitizeFilename n2 ->
  fileName (formatDate (host env) (creationTimestamp r1))
  = fileName (formatDate (host env) (creationTimestamp r2)) ->
  pathOf env r1 = pathOf env r2
  /\ (wellFormed r1 -> wellFormed r2 ->
      forall st,
        opened (fst (processRecipes env st [r1; r2]))
        = opened st ++ [pathOf env r1; pathOf env r1]).
Proof.
  intros H1 H2 S F.
  assert (P : pathOf env r1 = pathOf env r2).
  { unfold pathOf, outputPathOf, nameText. rewrite H1, H2. cbv zeta.
    rewrite S, F. reflexivity. }
  split; [exact P|].
  intros W1 W2 st.
  rewrite (@processRecipes_wellFormed env [r1; r2] st)
    by (constructor; [exact W1 | constructor; [exact W2 | constructor]]).
  cbn [fst afterAll opened map]. rewrite P. reflexivity.
Qed.

(** [Fish/Chips] and [Fish:Chips], created an hour apart. *)
Lemma same_name_same_day_same_file_witness :
  pathOf (fineEnv []) fishSlash = lit "recipe-pdfs/11-14-2023 - Fish-Chips.pdf"
  /\ pathOf (fineEnv []) fishColon = pathOf (fineEnv []) fishSlash.
Proof.
  split; [reflexivity|]. symmetry.
  exact (proj1 (@same_name_same_day_same_file (fineEnv []) fishSlash fishColon
                  (lit "Fish/Chips") (lit "Fish:Chips")
                  eq_refl eq_refl eq_refl eq_refl)).
Defined.
